(** * VKM Associates: the persistence layer [db.js]

    A shallow embedding of [src/db.js] (IndexedDB object stores plus one
    [localStorage] flag) and the properties of its public API.

    - JavaScript values are a small inductive type: [undefined], [null],
      booleans, numbers, strings, files and plain objects of these, all of
      which the structured clone of IndexedDB stores as they are (arrays,
      dates, functions and symbols are left out).  A plain object is the
      finite map from the names of its own properties to their values
      (stdpp's [gmap]).  Numbers are the rational a finite double denotes,
      or [NaN], or an infinity; [-0] is identified with [0] (no operation
      of [db.js] tells them apart).
    - A conversion to a number throws a [TypeError] for an object that has
      a [toString] property of its own (which, being data, is not
      callable); [addProduct] and the comparator of [listProducts] reject
      with it.
    - An object store with an in-line key ([keyPath]) is the list of its
      records in ascending key order, as [getAll()] returns them.
    - Every [async] function is a computation over the [world] that either
      resolves with a value or rejects with an error.
    - [Date.now()], [crypto.randomUUID] and the string-to-number conversion
      of the language are parameters of the development.
    - A request rejects for the reasons the code and its inputs can cause
      (no open connection, a value that is not a valid key, a write in a
      read-only transaction); failures of the engine itself (quota, a
      blocked or corrupt database) are outside the model. *)

From Stdlib Require Import QArith Qcanon.
From stdpp Require Import gmap strings list fin_maps numbers sorting pretty.

Set Warnings "-register-all".
Set Default Proof Using "Type".

(** ** JavaScript values *)

Inductive num : Type :=
| NaN
| Inf (neg : bool)
| Fin (q : Qc).

(** A [File] (a [Blob] with a name), as the file picker hands it over. *)
Record file : Type := File {
  file_name : string;
  file_type : string;
  file_size : N;
  file_bytes : list Byte.byte
}.

Inductive value : Type :=
| VUndef
| VNull
| VBool (b : bool)
| VNum (n : num)
| VStr (s : string)
| VFile (f : file)
| VObj (o : gmap string value).

Abbreviation obj := (gmap string value).

(** An integer, such as a reading of the clock in milliseconds, as a number. *)
Definition timestamp (z : Z) : Qc := Q2Qc (inject_Z z).
Definition num_of_Z (z : Z) : num := Fin (timestamp z).

Definition Qc_is_zero (q : Qc) : bool := Qeq_bool (this q) 0.

(** [ToBoolean]. *)
Definition truthy (v : value) : bool :=
  match v with
  | VUndef | VNull => false
  | VBool b => b
  | VNum NaN => false
  | VNum (Inf _) => true
  | VNum (Fin q) => negb (Qc_is_zero q)
  | VStr s => negb (String.eqb s "")
  | VFile _ | VObj _ => true
  end.

(** [a || b]. *)
Definition or_else (a b : value) : value := if truthy a then a else b.

(** [o.k]: a missing property reads as [undefined]. *)
Definition get_prop (k : string) (o : obj) : value := default VUndef (o !! k).

(** [o?.k] and [o && o.k] on the result of a store lookup. *)
Definition opt_prop (k : string) (o : option obj) : value :=
  match o with
  | Some r => get_prop k r
  | None => VUndef
  end.

Definition num_eqb (a b : num) : bool :=
  match a, b with
  | Fin p, Fin q => Qeq_bool (this p) (this q)
  | Inf s, Inf t => Bool.eqb s t
  | _, _ => false
  end.

(** [a === b].  Objects and files compare by reference; every object the
    code compares comes out of a store lookup (a fresh structured clone), so
    it is never identical to the caller's. *)
Definition strict_eq (a b : value) : bool :=
  match a, b with
  | VUndef, VUndef => true
  | VNull, VNull => true
  | VBool x, VBool y => Bool.eqb x y
  | VNum x, VNum y => num_eqb x y
  | VStr x, VStr y => String.eqb x y
  | _, _ => false
  end.

Definition num_neg (a : num) : num :=
  match a with
  | NaN => NaN
  | Inf s => Inf (negb s)
  | Fin q => Fin (- q)
  end.

(** [a - b] on numbers. *)
Definition num_sub (a b : num) : num :=
  match a, b with
  | NaN, _ | _, NaN => NaN
  | Inf s, Inf t => if Bool.eqb s t then NaN else Inf s
  | Inf s, Fin _ => Inf s
  | Fin _, Inf t => Inf (negb t)
  | Fin p, Fin q => Fin (p - q)
  end.

(** [v > 0]; false on [NaN]. *)
Definition num_pos (v : num) : bool :=
  match v with
  | NaN => false
  | Inf s => negb s
  | Fin q => match (0 ?= q)%Qc with Lt => true | _ => false end
  end.

(** [Number.isFinite(v)]: no coercion, only a finite number passes. *)
Definition Number_isFinite (v : value) : bool :=
  match v with
  | VNum (Fin _) => true
  | _ => false
  end.

(** ** Keys and object stores *)

(** The valid IndexedDB keys among the values: numbers other than [NaN],
    and strings. *)
Inductive key : Type :=
| KInf (neg : bool)
| KFin (q : Qc)
| KStr (s : string).

Definition to_key (v : value) : option key :=
  match v with
  | VNum (Inf s) => Some (KInf s)
  | VNum (Fin q) => Some (KFin q)
  | VStr s => Some (KStr s)
  | _ => None
  end.

Definition of_key (k : key) : value :=
  match k with
  | KInf s => VNum (Inf s)
  | KFin q => VNum (Fin q)
  | KStr s => VStr s
  end.

(** A string here is the UTF-8 encoding of a JavaScript string (one
    without lone surrogates), and IndexedDB orders strings by UTF-16 code
    unit.  That is the order of the bytes, but for one exception: the
    characters from U+E000 to U+FFFF (lead bytes 238 and 239) come after
    the characters beyond U+FFFF (lead bytes 240 to 244), whose code units
    are surrogates.  [byte_rank] moves the two groups of lead bytes
    accordingly; two encodings differ first either in two lead bytes or in
    two continuation bytes of characters with the same lead byte, where
    the byte order is the order of the code units. *)
Definition byte_rank (n : N) : N :=
  if (n =? 238)%N || (n =? 239)%N then (n + 5)%N
  else if (240 <=? n)%N && (n <=? 244)%N then (n - 2)%N
  else n.

Definition string_ranks (s : string) : list N :=
  (λ c, byte_rank (Ascii.N_of_ascii c)) <$> String.list_ascii_of_string s.

Fixpoint ranks_compare (a b : list N) : comparison :=
  match a, b with
  | [], [] => Eq
  | [], _ :: _ => Lt
  | _ :: _, [] => Gt
  | x :: a', y :: b' =>
      match (x ?= y)%N with
      | Eq => ranks_compare a' b'
      | c => c
      end
  end.

Definition string_compare (s t : string) : comparison :=
  ranks_compare (string_ranks s) (string_ranks t).

(** The key order of IndexedDB: numbers before strings, numbers by value,
    strings by code unit. *)
Definition key_compare (a b : key) : comparison :=
  match a, b with
  | KInf true, KInf true => Eq
  | KInf true, _ => Lt
  | KFin _, KInf true => Gt
  | KFin p, KFin q => (p ?= q)%Qc
  | KFin _, _ => Lt
  | KInf false, KInf false => Eq
  | KInf false, KStr _ => Lt
  | KInf false, _ => Gt
  | KStr s, KStr t => string_compare s t
  | KStr _, _ => Gt
  end.

Definition key_eqb (a b : key) : bool :=
  match key_compare a b with Eq => true | _ => false end.

Definition key_ltb (a b : key) : bool :=
  match key_compare a b with Lt => true | _ => false end.

(** The key of a record under an in-line key path. *)
Definition key_of (keyPath : string) (r : obj) : option key :=
  to_key (get_prop keyPath r).

Definition has_key (keyPath : string) (k : key) (r : obj) : bool :=
  match key_of keyPath r with
  | Some k' => key_eqb k k'
  | None => false
  end.

(** [store.get(k)]. *)
Fixpoint get_row (keyPath : string) (k : key) (rows : list obj) : option obj :=
  match rows with
  | [] => None
  | r :: rest => if has_key keyPath k r then Some r else get_row keyPath k rest
  end.

(** [store.put(r)] for a record whose key is [k]: replaces the record stored
    under [k], or inserts at the place the key order gives. *)
Fixpoint put_row (keyPath : string) (k : key) (r : obj) (rows : list obj)
  : list obj :=
  match rows with
  | [] => [r]
  | r' :: rest =>
      match key_of keyPath r' with
      | Some k' =>
          match key_compare k k' with
          | Lt => r :: rows
          | Eq => r :: rest
          | Gt => r' :: put_row keyPath k r rest
          end
      | None => r' :: put_row keyPath k r rest
      end
  end.

(** [store.delete(k)]. *)
Definition delete_row (keyPath : string) (k : key) (rows : list obj)
  : list obj :=
  List.filter (fun r => negb (has_key keyPath k r)) rows.

(** Key [k] lies above the bound [lo], if there is one. *)
Definition above (lo : option key) (k : key) : bool :=
  match lo with
  | Some l => key_ltb l k
  | None => true
  end.

(** Keys are in strictly ascending order above [lo]; every record has one. *)
Fixpoint ascending (keyPath : string) (lo : option key) (rows : list obj)
  : bool :=
  match rows with
  | [] => true
  | r :: rest =>
      match key_of keyPath r with
      | Some k => above lo k && ascending keyPath (Some k) rest
      | None => false
      end
  end.

(** The well-formedness of a store: what [createObjectStore] establishes and
    every request keeps. *)
Definition store_ok (keyPath : string) (rows : list obj) : Prop :=
  ascending keyPath None rows = true.

(** ** [Array.prototype.sort] *)

(** A stable insertion sort under a comparator [cmp]; [x] stays in front of
    [y] unless [cmp x y > 0] (a [NaN] result counts as [0]).  A comparison
    that throws ([None]) ends the sort, which throws in turn; an array of
    fewer than two elements is not compared at all, and every element of
    a longer one is compared with another at least once, here as in any
    sort.  For a consistent comparator this is the order every conforming
    [sort] gives; for an inconsistent one the language leaves the order to
    the implementation, and nothing below depends on it. *)
Fixpoint sort_insert {A} (cmp : A → A → option num) (x : A) (l : list A)
  : option (list A) :=
  match l with
  | [] => Some [x]
  | y :: rest =>
      c ← cmp x y;
      if num_pos c then cons y <$> sort_insert cmp x rest else Some (x :: l)
  end.

Definition Array_sort {A} (cmp : A → A → option num) (l : list A)
  : option (list A) :=
  foldr (λ x sorted, sorted ≫= sort_insert cmp x) (Some []) l.

(** The creation time of a record, when it is a finite number. *)
Definition created (r : obj) : option Qc :=
  match get_prop "createdAt" r with
  | VNum (Fin q) => Some q
  | _ => None
  end.

(** The time of the last update of a record, when it is a finite number. *)
Definition updated (r : obj) : option Qc :=
  match get_prop "updatedAt" r with
  | VNum (Fin q) => Some q
  | _ => None
  end.

(** [updatedAt > createdAt], and [updatedAt >= createdAt]. *)
Definition updated_after_created (r : obj) : Prop :=
  match created r, updated r with
  | Some c, Some u => (c < u)%Qc
  | _, _ => False
  end.

Definition updated_not_before_created (r : obj) : Prop :=
  match created r, updated r with
  | Some c, Some u => (c ≤ u)%Qc
  | _, _ => False
  end.

(** [a] was created no earlier than [b]. *)
Definition not_older (a b : obj) : Prop :=
  match created a, created b with
  | Some p, Some q => (q ≤ p)%Qc
  | _, _ => False
  end.

(** Newest first: every record is at least as new as all that follow it. *)
Definition newest_first (l : list obj) : Prop := StronglySorted not_older l.

(** ** The database and the world around it *)

Inductive error : Type :=
| TypeError (msg : string)
| DataError
| ReadOnlyError
| Error (msg : string).

(** The four object stores of [vkmDB] version 1; their key paths are fixed
    by [onupgradeneeded]. *)
Record database : Type := Database {
  products : list obj;
  media : list obj;
  settings : list obj;
  users : list obj
}.

Definition products_keyPath : string := "id".
Definition media_keyPath : string := "id".
Definition settings_keyPath : string := "key".
Definition users_keyPath : string := "username".

(** The IndexedDB engine as the page sees it: no database yet, a database
    on disk that this page has not opened ([db] is [undefined]), or the
    open connection held in [db]. *)
Inductive engine : Type :=
| Absent
| Closed (d : database)
| Open (d : database).

Record world : Type := World {
  idb : engine;
  localStorage : gmap string string;
  objectURLs : gmap string file;
  now_calls : nat;
  uuid_calls : nat
}.

Definition set_idb (e : engine) (w : world) : world :=
  World e (localStorage w) (objectURLs w) (now_calls w) (uuid_calls w).

Definition set_localStorage (ls : gmap string string) (w : world) : world :=
  World (idb w) ls (objectURLs w) (now_calls w) (uuid_calls w).

Definition set_objectURLs (us : gmap string file) (w : world) : world :=
  World (idb w) (localStorage w) us (now_calls w) (uuid_calls w).

(** The world after one more reading of the clock, or one more UUID. *)
Definition tick (w : world) : world :=
  World (idb w) (localStorage w) (objectURLs w) (S (now_calls w)) (uuid_calls w).

Definition next_uuid (w : world) : world :=
  World (idb w) (localStorage w) (objectURLs w) (now_calls w) (S (uuid_calls w)).

Definition database_of (w : world) : option database :=
  match idb w with
  | Absent => None
  | Closed d | Open d => Some d
  end.

(** ** Promises: resolve or reject, threading the world *)

Inductive outcome (A : Type) : Type :=
| Resolved (a : A)
| Rejected (e : error).
Arguments Resolved {A} a.
Arguments Rejected {A} e.

Definition M (A : Type) : Type := world → outcome A * world.

#[global] Instance M_ret : MRet M := fun A a w => (Resolved a, w).
#[global] Instance M_bind : MBind M := fun A B f m w =>
  match m w with
  | (Resolved a, w') => f a w'
  | (Rejected e, w') => (Rejected e, w')
  end.

#[global] Instance M_fmap : FMap M := fun A B f m w =>
  match m w with
  | (Resolved a, w') => (Resolved (f a), w')
  | (Rejected e, w') => (Rejected e, w')
  end.

Definition throw {A} (e : error) : M A := fun w => (Rejected e, w).
Definition get_world : M world := fun w => (Resolved w, w).
Definition modify (f : world → world) : M unit := fun w => (Resolved tt, f w).

(** The result and the final world of a call. *)
Definition result_of {A} (r : outcome A * world) : outcome A := r.1.
Definition world_of {A} (r : outcome A * world) : world := r.2.

(** ** Transactions and requests *)

Inductive storeName : Type := Products | Media | Settings | Users.
Inductive txMode : Type := ReadOnly | ReadWrite.

Record objectStore : Type := ObjectStore {
  store_name : storeName;
  store_mode : txMode
}.

Definition keyPath (s : storeName) : string :=
  match s with
  | Products => products_keyPath
  | Media => media_keyPath
  | Settings => settings_keyPath
  | Users => users_keyPath
  end.

Definition rows_of (s : storeName) (d : database) : list obj :=
  match s with
  | Products => products d
  | Media => media d
  | Settings => settings d
  | Users => users d
  end.

Definition set_rows (s : storeName) (rows : list obj) (d : database)
  : database :=
  match s with
  | Products => Database rows (media d) (settings d) (users d)
  | Media => Database (products d) rows (settings d) (users d)
  | Settings => Database (products d) (media d) rows (users d)
  | Users => Database (products d) (media d) (settings d) rows
  end.

Definition db_undefined : error :=
  TypeError "Cannot read properties of undefined (reading 'transaction')".

(** [tx(storeName, mode)]: [db.transaction] on the global handle, which is
    [undefined] until [openDB] has run. *)
Definition tx (s : storeName) (mode : txMode) : M objectStore := fun w =>
  match idb w with
  | Open _ => (Resolved (ObjectStore s mode), w)
  | _ => (Rejected db_undefined, w)
  end.

(** [request(store.get(k))]. *)
Definition store_get (st : objectStore) (k : value) : M (option obj) := fun w =>
  match idb w with
  | Open d =>
      match to_key k with
      | Some k' =>
          (Resolved (get_row (keyPath (store_name st)) k'
                       (rows_of (store_name st) d)), w)
      | None => (Rejected DataError, w)
      end
  | _ => (Rejected db_undefined, w)
  end.

(** [request(store.getAll())]. *)
Definition store_getAll (st : objectStore) : M (list obj) := fun w =>
  match idb w with
  | Open d => (Resolved (rows_of (store_name st) d), w)
  | _ => (Rejected db_undefined, w)
  end.

(** [request(store.put(r))]. *)
Definition store_put (st : objectStore) (r : obj) : M unit := fun w =>
  match idb w, store_mode st with
  | Open d, ReadWrite =>
      let s := store_name st in
      match key_of (keyPath s) r with
      | Some k =>
          (Resolved tt,
           set_idb (Open (set_rows s (put_row (keyPath s) k r (rows_of s d)) d)) w)
      | None => (Rejected DataError, w)
      end
  | Open _, ReadOnly => (Rejected ReadOnlyError, w)
  | _, _ => (Rejected db_undefined, w)
  end.

(** [request(store.delete(k))]. *)
Definition store_delete (st : objectStore) (k : value) : M unit := fun w =>
  match idb w, store_mode st with
  | Open d, ReadWrite =>
      let s := store_name st in
      match to_key k with
      | Some k' =>
          (Resolved tt,
           set_idb (Open (set_rows s (delete_row (keyPath s) k' (rows_of s d)) d)) w)
      | None => (Rejected DataError, w)
      end
  | Open _, ReadOnly => (Rejected ReadOnlyError, w)
  | _, _ => (Rejected db_undefined, w)
  end.

Definition session_key : string := "vkm_owner_logged_in".

(** [new Error('Product not found')], the error of an update on a missing
    id. *)
Definition not_found : error := Error "Product not found".

(** The [TypeError] of a conversion to a number that finds no primitive
    value. *)
Definition cannot_convert : error :=
  TypeError "Cannot convert object to primitive value".

(** The [BusinessInfo] that [init] seeds. *)
Definition default_business : value :=
  VObj {[ "name" := VStr "VKM Associates";
          "owner" := VStr "Manorma Sharma";
          "address" := VStr "Siwala Adalhat, Mirzapur, Uttar Pradesh";
          "coords" := VObj {[ "lat" := VNum (Fin (Q2Qc (25083 # 1000)));
                              "lng" := VNum (Fin (Q2Qc (82777 # 1000))) ]} ]}.

(** The "business" setting as [getBusinessInfo] reports it: the stored
    value, or [null] when there is none or it is falsy. *)
Definition business_of (d : database) : value :=
  or_else
    (opt_prop "value" (get_row settings_keyPath (KStr "business") (settings d)))
    VNull.

(** A call of one of the functions that [window.VKM] exports. *)
Inductive call : Type :=
| CallInit
| CallSaveMedia (f : file)
| CallGetMediaUrl (id : value)
| CallSetLogo (f : file)
| CallGetLogoUrl
| CallAddProduct (p : obj)
| CallUpdateProduct (id : value) (updates : obj)
| CallDeleteProduct (id : value)
| CallListProducts (filter : obj)
| CallSetBusinessInfo (info : value)
| CallGetBusinessInfo
| CallLoginOwner (username password : value)
| CallLogoutOwner.

(** The products store of every database the world holds is well formed. *)
Definition products_wf (w : world) : Prop :=
  ∀ d, database_of w = Some d → store_ok products_keyPath (products d).

(** ** The API of [db.js] *)

(** A computation keeps the products store well formed, whatever its
    outcome. *)
Definition keeps_wf {A} (m : M A) : Prop :=
  ∀ w, products_wf w → products_wf (m w).2.

(** The functions of the module, named as in the source. *)
Module Db.
Section Store.

(** [clock n] is what the [n]-th call of [Date.now()] returns. *)
Variable clock : nat → Z.
(** [crypto.randomUUID], where the browser has it: the [n]-th call. *)
Variable randomUUID : option (nat → string).
(** The language's conversion of a string to a number. *)
Variable StringToNumber : string → num.

(** [ToNumber]; [None] where it throws.  A file or a plain object goes
    through [ToPrimitive]: [valueOf] answers the object itself, so
    [toString] decides.  The inherited one answers "[object Object]" (or
    "[object File]"), which is no numeral: [NaN].  A property [toString]
    of the object's own hides the inherited one and is not callable: no
    primitive value is found, and the conversion throws. *)
Definition ToNumber (v : value) : option num :=
  match v with
  | VUndef => Some NaN
  | VNull => Some (num_of_Z 0)
  | VBool b => Some (num_of_Z (if b then 1 else 0))
  | VNum n => Some n
  | VStr s => Some (StringToNumber s)
  | VFile _ => Some NaN
  | VObj o =>
      match o !! "toString" with
      | Some _ => None
      | None => Some NaN
      end
  end.

(** [Number(v)]. *)
Definition Number (v : value) : M value :=
  match ToNumber v with
  | Some n => mret (VNum n)
  | None => throw cannot_convert
  end.

(** [Date.now()]. *)
Definition Date_now : M Z := fun w =>
  (Resolved (clock (now_calls w)), tick w).

(** [crypto?.randomUUID ? crypto.randomUUID() : prefix + Date.now()]. *)
Definition new_id (prefix : string) : M string :=
  match randomUUID with
  | Some uuid => fun w => (Resolved (uuid (uuid_calls w)), next_uuid w)
  | None => t ← Date_now; mret (prefix +:+ pretty t)
  end.

(** The id that [new_id] produces in world [w], and the world it leaves. *)
Definition generated_id (prefix : string) (w : world) : string :=
  match randomUUID with
  | Some uuid => uuid (uuid_calls w)
  | None => prefix +:+ pretty (clock (now_calls w))
  end.

Definition after_new_id (w : world) : world :=
  match randomUUID with
  | Some _ => next_uuid w
  | None => tick w
  end.

(** [URL.createObjectURL(blob)]: registers the blob under a new URL. *)
Definition URL_createObjectURL (blob : value) : M value := fun w =>
  match blob with
  | VFile f =>
      let url := "blob:vkm/" +:+ pretty (size (objectURLs w)) in
      (Resolved (VStr url), set_objectURLs (<[url := f]> (objectURLs w)) w)
  | _ => (Rejected (TypeError "createObjectURL: not a Blob"), w)
  end.

(** [openDB]: [indexedDB.open('vkmDB', 1)].  [onupgradeneeded] runs only
    when the database does not exist yet; it creates the four stores and
    seeds the owner account. *)
Definition openDB : M unit := fun w =>
  match idb w with
  | Absent =>
      (t ← Date_now;
       let owner : obj :=
         {[ "username" := VStr "VKM2009";
            "password" := VStr "VKM1998";
            "role" := VStr "owner";
            "createdAt" := VNum (num_of_Z t) ]} in
       modify (set_idb (Open (Database [] [] [] [owner])))) w
  | Closed d | Open d => (Resolved tt, set_idb (Open d) w)
  end.

(** *** Media *)

Definition saveMedia (f : file) : M string :=
  id ← new_id "m_";
  t ← Date_now;
  let record : obj :=
    {[ "id" := VStr id;
       "name" := VStr (file_name f);
       "type" := VStr (file_type f);
       "size" := VNum (num_of_Z (Z.of_N (file_size f)));
       "blob" := VFile f;
       "createdAt" := VNum (num_of_Z t) ]} in
  media ← tx Media ReadWrite;
  store_put media record;;
  mret id.

Definition getMediaUrl (id : value) : M value :=
  media ← tx Media ReadOnly;
  rec ← store_get media id;
  match rec with
  | None => mret VNull
  | Some r => URL_createObjectURL (get_prop "blob" r)
  end.

Definition setLogo (f : file) : M string :=
  mediaId ← saveMedia f;
  settings ← tx Settings ReadWrite;
  store_put settings {[ "key" := VStr "logoMediaId"; "value" := VStr mediaId ]};;
  mret mediaId.

Definition getLogoUrl : M value :=
  settings ← tx Settings ReadOnly;
  row ← store_get settings (VStr "logoMediaId");
  match row with
  | Some r => getMediaUrl (get_prop "value" r)
  | None => mret VNull
  end.

(** *** Products *)

(** The object literal that [addProduct] builds from its input [p], once
    the id, the two conversions and the two readings of the clock are
    there. *)
Definition product_record (id : value) (p : obj) (price stock : value)
    (t1 t2 : Z) : obj :=
  {[ "id" := id;
     "name" := get_prop "name" p;
     "category" := or_else (get_prop "category" p) (VStr "Stationery");
     "price" := price;
     "stock" := stock;
     "imageMediaId" := or_else (get_prop "imageMediaId" p) VNull;
     "description" := or_else (get_prop "description" p) (VStr "");
     "createdAt" := VNum (num_of_Z t1);
     "updatedAt" := VNum (num_of_Z t2) ]}.

(** The properties of the literal are evaluated in the order written: the
    price is converted, and may throw, before the clock is read and before
    the transaction is asked for. *)
Definition addProduct (p : obj) : M obj :=
  id ← (if truthy (get_prop "id" p) then mret (get_prop "id" p)
        else VStr <$> new_id "p_");
  price ← Number (or_else (get_prop "price" p) (VNum (num_of_Z 0)));
  stock ← (if Number_isFinite (get_prop "stock" p)
           then Number (get_prop "stock" p)
           else mret (VNum (num_of_Z 0)));
  t1 ← Date_now;
  t2 ← Date_now;
  let product := product_record id p price stock t1 t2 in
  products ← tx Products ReadWrite;
  store_put products product;;
  mret product.

(** The price that [addProduct] converts for input [p], where the
    conversion returns, and the stock it stores. *)
Definition price_of (p : obj) : option num :=
  ToNumber (or_else (get_prop "price" p) (VNum (num_of_Z 0))).

Definition stock_of (p : obj) : value :=
  if Number_isFinite (get_prop "stock" p) then get_prop "stock" p
  else VNum (num_of_Z 0).

(** The id [addProduct] uses for input [p] in world [w], and the world
    once the id is there. *)
Definition product_id (p : obj) (w : world) : value :=
  if truthy (get_prop "id" p) then get_prop "id" p
  else VStr (generated_id "p_" w).

Definition after_product_id (p : obj) (w : world) : world :=
  if truthy (get_prop "id" p) then w else after_new_id w.

(** [{ ...existing, ...updates, updatedAt: Date.now() }]: the properties of
    [updates] win over those of [existing]. *)
Definition updateProduct (id : value) (updates : obj) : M obj :=
  products ← tx Products ReadWrite;
  existing ← store_get products id;
  match existing with
  | None => throw not_found
  | Some e =>
      t ← Date_now;
      let next : obj := <["updatedAt" := VNum (num_of_Z t)]> (updates ∪ e) in
      store_put products next;;
      mret next
  end.

Definition deleteProduct (id : value) : M unit :=
  products ← tx Products ReadWrite;
  store_delete products id.

(** The comparator [(a, b) => b.createdAt - a.createdAt]: both operands
    are converted to numbers, the left one first. *)
Definition by_createdAt_desc (a b : obj) : option num :=
  nb ← ToNumber (get_prop "createdAt" b);
  na ← ToNumber (get_prop "createdAt" a);
  Some (num_sub nb na).

(** The predicate [p => !filter.category || p.category === filter.category]. *)
Definition category_matches (filter p : obj) : bool :=
  negb (truthy (get_prop "category" filter))
  || strict_eq (get_prop "category" p) (get_prop "category" filter).

(** [listProducts(filter = {})]; [listProducts()] is [listProducts ∅]. *)
Definition listProducts (filter : obj) : M (list obj) :=
  products ← tx Products ReadOnly;
  all ← store_getAll products;
  match Array_sort by_createdAt_desc
          (List.filter (category_matches filter) all) with
  | Some sorted => mret sorted
  | None => throw cannot_convert
  end.

(** *** Settings *)

Definition setBusinessInfo (info : value) : M unit :=
  settings ← tx Settings ReadWrite;
  store_put settings {[ "key" := VStr "business"; "value" := info ]}.

Definition getBusinessInfo : M value :=
  settings ← tx Settings ReadOnly;
  row ← store_get settings (VStr "business");
  mret (or_else (opt_prop "value" row) VNull).

(** *** Owner login *)

Definition loginOwner (username password : value) : M bool :=
  users ← tx Users ReadOnly;
  user ← store_get users username;
  let ok :=
    match user with
    | Some u =>
        strict_eq (get_prop "password" u) password
        && strict_eq (get_prop "role" u) (VStr "owner")
    | None => false
    end in
  (if ok
   then modify (fun w => set_localStorage (<[session_key := "1"]> (localStorage w)) w)
   else mret tt);;
  mret ok.

Definition logoutOwner : M unit :=
  modify (fun w => set_localStorage (delete session_key (localStorage w)) w).

Definition isOwner (w : world) : bool :=
  bool_decide (localStorage w !! session_key = Some "1").

(** *** Lifecycle *)

Definition db_is_set (w : world) : bool :=
  match idb w with
  | Open _ => true
  | _ => false
  end.

Definition init : M bool :=
  w ← get_world;
  (if db_is_set w then mret tt else openDB);;
  existing ← getBusinessInfo;
  (if truthy existing then mret tt else setBusinessInfo default_business);;
  mret true.

(** The world after a call through [window.VKM], whatever its outcome. *)
Definition VKM (c : call) (w : world) : world :=
  match c with
  | CallInit => world_of (init w)
  | CallSaveMedia f => world_of (saveMedia f w)
  | CallGetMediaUrl id => world_of (getMediaUrl id w)
  | CallSetLogo f => world_of (setLogo f w)
  | CallGetLogoUrl => world_of (getLogoUrl w)
  | CallAddProduct p => world_of (addProduct p w)
  | CallUpdateProduct id updates => world_of (updateProduct id updates w)
  | CallDeleteProduct id => world_of (deleteProduct id w)
  | CallListProducts filter => world_of (listProducts filter w)
  | CallSetBusinessInfo info => world_of (setBusinessInfo info w)
  | CallGetBusinessInfo => world_of (getBusinessInfo w)
  | CallLoginOwner username password =>
      world_of (loginOwner username password w)
  | CallLogoutOwner => world_of (logoutOwner w)
  end.

End Store.
End Db.
Import Db.

(** The [createdAt] of every record converts to a number: none is an
    object with a [toString] property of its own.  Every record that
    [addProduct] stores is such; only an update can bring in another. *)
Definition createdAt_converts (StringToNumber : string → num)
    (rows : list obj) : Prop :=
  Forall (λ r, is_Some (ToNumber StringToNumber (get_prop "createdAt" r))) rows.

(** ** A concrete environment, for evaluating the API on examples *)

(** A clock that advances by one millisecond at every reading. *)
Definition ticking_clock (n : nat) : Z := 1700000000000 + Z.of_nat n.

(** A clock that does not advance between readings. *)
Definition frozen_clock (n : nat) : Z := 1700000000000.

Definition example_uuid (n : nat) : string := "uuid-" +:+ pretty n.

Fixpoint digits_value (s : string) (acc : Z) : option Z :=
  match s with
  | EmptyString => Some acc
  | String c rest =>
      let n := Z.of_nat (Ascii.nat_of_ascii c) in
      if (48 <=? n)%Z && (n <=? 57)%Z
      then digits_value rest (10 * acc + (n - 48))
      else None
  end.

(** The conversion of a string to a number on the strings of the examples:
    it agrees with JavaScript on the empty string and on strings of decimal
    digits, and answers [NaN] elsewhere. *)
Definition decimal_StringToNumber (s : string) : num :=
  match digits_value s 0 with
  | Some z => num_of_Z z
  | None => NaN
  end.

(** A page that has never opened the database. *)
Definition fresh_world : world := World Absent ∅ ∅ 0 0.

(** The database a world holds, or an empty one. *)
Definition the_database (w : world) : database :=
  match idb w with
  | Open d | Closed d => d
  | Absent => Database [] [] [] []
  end.

(** The shop after [init] and one [addProduct], on a clock that stands
    still; the product gets the id "uuid-0". *)
Definition pen_input : obj :=
  {[ "name" := VStr "Pen"; "price" := VStr "12"; "stock" := VStr "5" ]}.

Definition opened_world : world := world_of (init frozen_clock fresh_world).

Definition example_shop : world :=
  world_of (addProduct frozen_clock (Some example_uuid) decimal_StringToNumber
              pen_input opened_world).

(** The value a call resolved with, or [dflt] if it rejected. *)
Definition resolved_or {A} (dflt : A) (r : outcome A * world) : A :=
  match r.1 with
  | Resolved a => a
  | Rejected _ => dflt
  end.

(** The record of the pen as [addProduct] returned it. *)
Definition pen_record : obj :=
  resolved_or ∅
    (addProduct frozen_clock (Some example_uuid) decimal_StringToNumber
       pen_input opened_world).

(** The record of the pen when the clock moves at every reading. *)
Definition ticking_pen_record : obj :=
  resolved_or ∅
    (addProduct ticking_clock (Some example_uuid) decimal_StringToNumber
       pen_input opened_world).

(** An update of the pen that names another id and creation time. *)
Definition move_update : obj :=
  {[ "id" := VStr "other"; "createdAt" := VNum (num_of_Z 5) ]}.

Definition moved_record : obj :=
  resolved_or ∅
    (updateProduct frozen_clock (VStr "uuid-0") move_update example_shop).

Definition moved_shop : world :=
  world_of (updateProduct frozen_clock (VStr "uuid-0") move_update example_shop).

(** An update of the price of the pen. *)
Definition repriced_record : obj :=
  resolved_or ∅
    (updateProduct frozen_clock (VStr "uuid-0")
       {[ "price" := VNum (num_of_Z 15) ]} example_shop).

(** The page loaded again: the database of [opened_world] is on disk and
    [db] is not set yet. *)
Definition reloaded_world : world :=
  World (Closed (the_database opened_world)) ∅ ∅ 0 0.

(** A logo file. *)
Definition logo_file : file := File "logo.png" "image/png" 3 [].

(** ** What a call leaves alone *)

(** [R] relates the world before a computation to the world after it,
    whatever the outcome. *)
Definition frames (R : relation world) {A} (m : M A) : Prop :=
  ∀ w, R w (m w).2.

(** The world after holds the same records in store [s] as the database of
    the world before, if there was one. *)
Definition same_rows (s : storeName) (w w' : world) : Prop :=
  ∀ d, database_of w = Some d →
       ∃ d', database_of w' = Some d' ∧ rows_of s d' = rows_of s d.

(** The world after has the same [localStorage]. *)
Definition same_session (w w' : world) : Prop :=
  localStorage w' = localStorage w.

(** Every media id stored before is still stored after. *)
Definition media_kept (w w' : world) : Prop :=
  ∀ d, database_of w = Some d →
       ∃ d', database_of w' = Some d'
             ∧ ∀ k, is_Some (get_row media_keyPath k (media d)) →
                    is_Some (get_row media_keyPath k (media d')).

(** While [db] is not set, the engine state after is the engine state
    before. *)
Definition closed_stays (w w' : world) : Prop :=
  idb w' = idb w ∨ ∃ d, idb w = Open d.


(** The record [saveMedia] stores for file [f] under [id] at time [t]. *)
Definition media_record (id : string) (f : file) (t : Z) : obj :=
  {[ "id" := VStr id;
     "name" := VStr (file_name f);
     "type" := VStr (file_type f);
     "size" := VNum (num_of_Z (Z.of_N (file_size f)));
     "blob" := VFile f;
     "createdAt" := VNum (num_of_Z t) ]}.

(** The settings row that [setLogo] stores for the media id [id]. *)
Definition logo_row (id : string) : obj :=
  {[ "key" := VStr "logoMediaId"; "value" := VStr id ]}.

(** The user record that [openDB] seeds at time [t]. *)
Definition owner_record (t : Z) : obj :=
  {[ "username" := VStr "VKM2009";
     "password" := VStr "VKM1998";
     "role" := VStr "owner";
     "createdAt" := VNum (num_of_Z t) ]}.


(** The order of a listing: [a] comes before [b] when it is newer, or as
    new and of smaller id. *)
Definition listed_before (a b : obj) : Prop :=
  match created a, created b,
        key_of products_keyPath a, key_of products_keyPath b with
  | Some ca, Some cb, Some ka, Some kb =>
      (cb < ca)%Qc ∨ (ca = cb ∧ key_ltb ka kb = true)
  | _, _, _, _ => False
  end.


(** What the record being inserted knows of a list: every record in it has
    a creation time, and an id above [kx]. *)
Definition later_ids (kx : key) (l : list obj) : Prop :=
  Forall (λ z, is_Some (created z)
               ∧ ∃ kz, key_of products_keyPath z = Some kz
                       ∧ key_ltb kx kz = true) l.

(** The stores in which a call puts or deletes. *)
Definition touches (c : call) (s : storeName) : bool :=
  match c, s with
  | CallInit, Settings => true
  | CallSaveMedia _, Media => true
  | CallSetLogo _, Media => true
  | CallSetLogo _, Settings => true
  | CallAddProduct _, Products => true
  | CallUpdateProduct _ _, Products => true
  | CallDeleteProduct _, Products => true
  | CallSetBusinessInfo _, Settings => true
  | _, _ => false
  end.

(** The calls that write the session flag. *)
Definition writes_session (c : call) : bool :=
  match c with
  | CallLoginOwner _ _ | CallLogoutOwner => true
  | _ => false
  end.


(** The shop once a logo is set; its media record has the id "uuid-1". *)
Definition logo_world : world :=
  world_of (setLogo frozen_clock (Some example_uuid) logo_file example_shop).

(** A database whose logo setting names a media id that is not stored. *)
Definition dangling_logo_world : world :=
  World (Open (Database [] [] [logo_row "gone"] [])) ∅ ∅ 0 0.

(** A product input without id, and one whose id is not a valid key. *)
Definition chair_input : obj :=
  {[ "name" := VStr "Chair"; "category" := VStr "Furniture" ]}.

Definition bad_id_input : obj :=
  {[ "id" := VBool true; "name" := VStr "Desk" ]}.

(** A product input with the id of a product of the stocked shop. *)
Definition pencil_input : obj :=
  {[ "id" := VStr "b"; "name" := VStr "Pencil";
     "price" := VNum (num_of_Z 3) ]}.

(** A product input whose price is an object with a [toString] property
    of its own, and an update that puts such an object in [createdAt]. *)
Definition unpriced_input : obj :=
  {[ "name" := VStr "Lamp";
     "price" := VObj {[ "toString" := VNum (num_of_Z 0) ]} ]}.

Definition undated_update : obj :=
  {[ "createdAt" := VObj {[ "toString" := VNum (num_of_Z 0) ]} ]}.

(** A clock that advances by one millisecond at every fourth reading. *)
Definition slow_clock (n : nat) : Z := 1700000000000 + Z.of_nat (n / 4).

Definition item (id category : string) : obj :=
  {[ "id" := VStr id; "name" := VStr ("Item " +:+ id);
     "category" := VStr category ]}.

(** A shop with four products, added in the order b, a, d, c on the slow
    clock: a and b are created in one millisecond, c and d in the next. *)
Definition stocked_shop : world :=
  foldl (λ w p, world_of (addProduct slow_clock (Some example_uuid)
                            decimal_StringToNumber p w))
    (world_of (init slow_clock fresh_world))
    [item "b" "Stationery"; item "a" "Furniture";
     item "d" "Furniture"; item "c" "Stationery"].

(** The stocked shop once an update has put an object with a [toString]
    property of its own into the [createdAt] of product a. *)
Definition undated_shop : world :=
  world_of (updateProduct slow_clock (VStr "a") undated_update stocked_shop).

(** The ids of the records a call resolved with. *)
Definition listed_ids (r : outcome (list obj) * world) : list value :=
  get_prop "id" <$> resolved_or [] r.

(** Two strings of one character each, in UTF-8: U+FF5E, which is one
    code unit, and U+1F600, which is the two surrogates D83D and DE00. *)
Definition string_of_bytes (bytes : list N) : string :=
  String.string_of_list_ascii (Ascii.ascii_of_N <$> bytes).

Definition fullwidth_tilde : string := string_of_bytes [239; 189; 158]%N.

Definition grinning_face : string := string_of_bytes [240; 159; 152; 128]%N.


(** ** The order of keys *)

Lemma byte_rank_inj (a b : N) : byte_rank a = byte_rank b → a = b.
Proof.
  unfold byte_rank.
  repeat match goal with
         | |- context [(?x =? ?y)%N] => destruct (N.eqb_spec x y); simpl
         | |- context [(?x <=? ?y)%N] => destruct (N.leb_spec x y); simpl
         end; lia.
Qed.

Lemma string_ranks_inj (s t : string) : string_ranks s = string_ranks t → s = t.
Proof.
  unfold string_ranks. revert t.
  induction s as [|a s IH]; intros [|b t]; simpl; try done.
  intros [= Hab Hst]. apply byte_rank_inj in Hab.
  f_equal; [|by apply IH].
  by rewrite <- (Ascii.ascii_N_embedding a), Hab, Ascii.ascii_N_embedding.
Qed.

Lemma ranks_compare_refl (a : list N) : ranks_compare a a = Eq.
Proof. induction a as [|x a IH]; simpl; [done|]. by rewrite N.compare_refl. Qed.

Lemma ranks_compare_eq (a b : list N) : ranks_compare a b = Eq → a = b.
Proof.
  revert b. induction a as [|x a IH]; intros [|y b]; simpl; try done.
  destruct (x ?= y)%N eqn:E; try done.
  apply N.compare_eq in E as ->. by intros ->%IH.
Qed.

Lemma ranks_compare_antisym (a b : list N) :
  ranks_compare b a = CompOpp (ranks_compare a b).
Proof.
  revert b. induction a as [|x a IH]; intros [|y b]; simpl; try done.
  rewrite (N.compare_antisym x y).
  destruct (x ?= y)%N; simpl; [apply IH|done..].
Qed.

Lemma ranks_compare_lt_trans (a b c : list N) :
  ranks_compare a b = Lt → ranks_compare b c = Lt → ranks_compare a c = Lt.
Proof.
  revert b c. induction a as [|x a IH]; intros [|y b] [|z c]; simpl; try done.
  destruct (x ?= y)%N eqn:Exy; try done;
    destruct (y ?= z)%N eqn:Eyz; try done; intros Hab Hbc.
  - apply N.compare_eq in Exy as ->. rewrite Eyz. by eapply IH.
  - apply N.compare_eq in Exy as ->. by rewrite Eyz.
  - apply N.compare_eq in Eyz as <-. by rewrite Exy.
  - assert ((x ?= z)%N = Lt) as ->; [|done].
    rewrite N.compare_lt_iff in *. lia.
Qed.

Lemma to_key_of_key (k : key) : to_key (of_key k) = Some k.
Proof. by destruct k. Qed.

Lemma to_key_Some (v : value) (k : key) : to_key v = Some k → v = of_key k.
Proof.
  destruct v as [| | |n| | |]; simpl; try discriminate.
  - destruct n; simpl; intros [= <-]; reflexivity || discriminate.
  - by intros [= <-].
Qed.

Lemma key_compare_refl (a : key) : key_compare a a = Eq.
Proof.
  destruct a as [[]|q|s]; simpl; try reflexivity.
  - by apply Qceq_alt.
  - apply ranks_compare_refl.
Qed.

Lemma key_compare_eq (a b : key) : key_compare a b = Eq → a = b.
Proof.
  destruct a as [[]|p|s], b as [[]|q|t]; simpl; try discriminate; try done.
  - by intros ->%Qceq_alt.
  - by intros ->%ranks_compare_eq%string_ranks_inj.
Qed.

Lemma key_compare_antisym (a b : key) :
  key_compare b a = CompOpp (key_compare a b).
Proof.
  destruct a as [[]|p|s], b as [[]|q|t]; simpl; try reflexivity.
  - unfold Qccompare. symmetry. apply Qcompare_antisym.
  - apply ranks_compare_antisym.
Qed.

Lemma key_compare_lt_trans (a b c : key) :
  key_compare a b = Lt → key_compare b c = Lt → key_compare a c = Lt.
Proof.
  destruct a as [[]|p|s], b as [[]|q|t], c as [[]|r|u]; simpl;
    try discriminate; try done.
  - rewrite <- !Qclt_alt. apply Qclt_trans.
  - apply ranks_compare_lt_trans.
Qed.

Lemma key_eqb_eq (a b : key) : key_eqb a b = true ↔ a = b.
Proof.
  unfold key_eqb. split.
  - destruct (key_compare a b) eqn:E; try discriminate.
    intros _. by apply key_compare_eq.
  - intros ->. by rewrite key_compare_refl.
Qed.

Lemma key_eqb_refl (a : key) : key_eqb a a = true.
Proof. by apply key_eqb_eq. Qed.

Lemma key_eqb_ne (a b : key) : a ≠ b → key_eqb a b = false.
Proof.
  intros Hne. destruct (key_eqb a b) eqn:E; [|done].
  by apply key_eqb_eq in E.
Qed.

Lemma key_ltb_irrefl (a : key) : key_ltb a a = false.
Proof. unfold key_ltb. by rewrite key_compare_refl. Qed.

Lemma key_ltb_trans (a b c : key) :
  key_ltb a b = true → key_ltb b c = true → key_ltb a c = true.
Proof.
  unfold key_ltb.
  destruct (key_compare a b) eqn:E1; try discriminate.
  destruct (key_compare b c) eqn:E2; try discriminate.
  by rewrite (key_compare_lt_trans a b c).
Qed.

Lemma key_compare_gt_lt (a b : key) :
  key_compare a b = Gt → key_ltb b a = true.
Proof.
  intros E. unfold key_ltb. by rewrite key_compare_antisym, E.
Qed.

(** ** Rows of an object store *)

Section Rows.
Variable kp : string.

Lemma has_key_true (k : key) (r : obj) :
  has_key kp k r = true ↔ key_of kp r = Some k.
Proof.
  unfold has_key. destruct (key_of kp r) as [k'|]; [|done].
  rewrite key_eqb_eq. split; congruence.
Qed.

Lemma get_row_Some (k : key) (rows : list obj) (r : obj) :
  get_row kp k rows = Some r → r ∈ rows ∧ key_of kp r = Some k.
Proof.
  induction rows as [|r' rest IH]; simpl; [done|].
  destruct (has_key kp k r') eqn:E.
  - intros [= ->]. split; [left|]. by apply has_key_true.
  - intros [? ?]%IH. split; [by right|done].
Qed.

Lemma get_row_None (k : key) (rows : list obj) :
  get_row kp k rows = None ↔ Forall (λ r, key_of kp r ≠ Some k) rows.
Proof.
  induction rows as [|r' rest IH]; simpl.
  - split; [constructor|done].
  - destruct (has_key kp k r') eqn:E.
    + split; [done|]. intros H. inversion H; subst.
      by apply has_key_true in E.
    + rewrite IH. split.
      * intros H. constructor; [|done].
        intros Hk%has_key_true. congruence.
      * intros H. by inversion H.
Qed.

Lemma get_row_put_eq (k : key) (r : obj) (rows : list obj) :
  key_of kp r = Some k → get_row kp k (put_row kp k r rows) = Some r.
Proof.
  intros Hk. assert (Hr : has_key kp k r = true) by by apply has_key_true.
  induction rows as [|r' rest IH]; simpl.
  - by rewrite Hr.
  - destruct (key_of kp r') as [k'|] eqn:Ek'.
    + destruct (key_compare k k') eqn:Ec; simpl.
      * by rewrite Hr.
      * by rewrite Hr.
      * unfold has_key at 1. rewrite Ek'. unfold key_eqb. by rewrite Ec.
    + simpl. unfold has_key at 1. by rewrite Ek'.
Qed.

Lemma get_row_put_ne (k k' : key) (r : obj) (rows : list obj) :
  key_of kp r = Some k → k' ≠ k →
  get_row kp k' (put_row kp k r rows) = get_row kp k' rows.
Proof.
  intros Hk Hne.
  assert (Hr : has_key kp k' r = false).
  { unfold has_key. rewrite Hk. by apply key_eqb_ne. }
  induction rows as [|r' rest IH]; simpl.
  - by rewrite Hr.
  - destruct (key_of kp r') as [k''|] eqn:Ek''.
    + destruct (key_compare k k'') eqn:Ec; simpl.
      * rewrite Hr. apply key_compare_eq in Ec as <-.
        unfold has_key. rewrite Ek''. by rewrite key_eqb_ne.
      * by rewrite Hr.
      * by rewrite IH.
    + simpl. by rewrite IH.
Qed.

Lemma get_row_delete_eq (k : key) (rows : list obj) :
  get_row kp k (delete_row kp k rows) = None.
Proof.
  unfold delete_row. induction rows as [|r' rest IH]; simpl; [done|].
  destruct (has_key kp k r') eqn:E; simpl; [done|]. by rewrite E.
Qed.

Lemma get_row_delete_ne (k k' : key) (rows : list obj) :
  k' ≠ k → get_row kp k' (delete_row kp k rows) = get_row kp k' rows.
Proof.
  intros Hne. unfold delete_row.
  induction rows as [|r' rest IH]; simpl; [done|].
  destruct (has_key kp k r') eqn:E; simpl.
  - apply has_key_true in E.
    unfold has_key at 2. rewrite E. by rewrite key_eqb_ne.
  - by rewrite IH.
Qed.

Lemma delete_row_absent (k : key) (rows : list obj) :
  get_row kp k rows = None → delete_row kp k rows = rows.
Proof.
  unfold delete_row. induction rows as [|r' rest IH]; simpl; [done|].
  destruct (has_key kp k r') eqn:E; [done|].
  intros H. simpl. by rewrite IH.
Qed.

End Rows.

(** ** Well-formed stores *)

Section Ascending.
Variable kp : string.

Lemma ascending_cons (lo : option key) (r : obj) (rest : list obj) :
  ascending kp lo (r :: rest) = true ↔
  ∃ k, key_of kp r = Some k ∧ above lo k = true
       ∧ ascending kp (Some k) rest = true.
Proof.
  simpl. destruct (key_of kp r) as [k|].
  - rewrite andb_true_iff. split.
    + intros [? ?]. by exists k.
    + intros (k' & [= <-] & ? & ?). done.
  - split; [done|]. by intros (k & ? & _).
Qed.

Lemma above_trans (lo : option key) (k k' : key) :
  above lo k = true → key_ltb k k' = true → above lo k' = true.
Proof. destruct lo as [l|]; simpl; [apply key_ltb_trans|done]. Qed.

Lemma ascending_weaken (lo lo' : option key) (rows : list obj) :
  (∀ k, above lo k = true → above lo' k = true) →
  ascending kp lo rows = true → ascending kp lo' rows = true.
Proof.
  intros Hlo. destruct rows as [|r rest]; [done|].
  rewrite !ascending_cons. intros (k & ? & ? & ?). exists k. auto.
Qed.

Lemma ascending_None (lo : option key) (rows : list obj) :
  ascending kp lo rows = true → store_ok kp rows.
Proof. by apply ascending_weaken. Qed.

Lemma ascending_Forall (lo : option key) (rows : list obj) :
  ascending kp lo rows = true →
  Forall (λ r, ∃ k, key_of kp r = Some k ∧ above lo k = true) rows.
Proof.
  revert lo. induction rows as [|r rest IH]; intros lo; [constructor|].
  rewrite ascending_cons. intros (k & Hk & Hlo & Hrest).
  constructor; [by exists k|].
  eapply Forall_impl; [by apply IH|]. simpl.
  intros r' (k' & ? & ?). exists k'. split; [done|].
  by eapply above_trans.
Qed.

(** A well-formed store holds at most one record per key. *)
Lemma ascending_NoDup (lo : option key) (rows : list obj) :
  ascending kp lo rows = true → NoDup (key_of kp <$> rows).
Proof.
  revert lo. induction rows as [|r rest IH]; intros lo; [constructor|].
  intros H. pose proof H as (k & Hk & Hlo & Hrest)%ascending_cons.
  rewrite fmap_cons. constructor; [|by eapply IH].
  intros (r' & Hr' & Hin)%list_elem_of_fmap.
  apply ascending_Forall in Hrest.
  rewrite Forall_forall in Hrest. apply Hrest in Hin as (k' & Hk' & Hlt).
  simpl in Hlt. assert (k' = k) as -> by congruence.
  by rewrite key_ltb_irrefl in Hlt.
Qed.

Lemma ascending_get_row (lo : option key) (rows : list obj) (r : obj) (k : key) :
  ascending kp lo rows = true → r ∈ rows → key_of kp r = Some k →
  get_row kp k rows = Some r.
Proof.
  revert lo. induction rows as [|r' rest IH]; intros lo Hasc Hin Hk.
  - by apply elem_of_nil in Hin.
  - pose proof Hasc as (k' & Hk' & Hlo & Hrest)%ascending_cons.
    simpl. apply elem_of_cons in Hin as [->|Hin].
    + by rewrite (proj2 (has_key_true kp k r')).
    + destruct (has_key kp k r') eqn:E; [|by eapply IH].
      apply has_key_true in E. assert (k' = k) as -> by congruence.
      apply ascending_Forall in Hrest. rewrite Forall_forall in Hrest.
      apply Hrest in Hin as (k'' & Hk'' & Hlt). simpl in Hlt.
      assert (k'' = k) as -> by congruence.
      by rewrite key_ltb_irrefl in Hlt.
Qed.

(** [put] keeps a store well formed. *)
Lemma ascending_put_row (lo : option key) (k : key) (r : obj) (rows : list obj) :
  key_of kp r = Some k → above lo k = true →
  ascending kp lo rows = true → ascending kp lo (put_row kp k r rows) = true.
Proof.
  intros Hk. revert lo. induction rows as [|r' rest IH]; intros lo Hlo Hasc.
  - simpl. by rewrite Hk, Hlo.
  - pose proof Hasc as (k' & Hk' & Hlo' & Hrest)%ascending_cons.
    simpl put_row. rewrite Hk'.
    destruct (key_compare k k') eqn:Ec.
    + apply key_compare_eq in Ec as ->.
      apply ascending_cons. by exists k'.
    + apply ascending_cons. exists k. split_and!; [done..|].
      apply ascending_cons. exists k'. split_and!; [done| |done].
      simpl. unfold key_ltb. by rewrite Ec.
    + apply ascending_cons. exists k'. split_and!; [done..|].
      apply IH; [|done]. simpl. by apply key_compare_gt_lt.
Qed.

(** [delete] keeps a store well formed. *)
Lemma ascending_delete_row (lo : option key) (k : key) (rows : list obj) :
  ascending kp lo rows = true →
  ascending kp lo (delete_row kp k rows) = true.
Proof.
  unfold delete_row. revert lo.
  induction rows as [|r' rest IH]; intros lo Hasc; [done|].
  pose proof Hasc as (k' & Hk' & Hlo' & Hrest)%ascending_cons.
  simpl. destruct (has_key kp k r'); simpl.
  - apply IH. eapply ascending_weaken; [|done].
    intros k''. simpl. intros ?. by eapply above_trans.
  - apply ascending_cons. exists k'. split_and!; [done..|]. by apply IH.
Qed.

(** Putting under a key that is present replaces the record where it
    stands: the sequence of keys does not change. *)
Lemma put_row_in_place (lo : option key) (k : key) (r : obj) (rows : list obj) :
  key_of kp r = Some k → ascending kp lo rows = true →
  is_Some (get_row kp k rows) →
  key_of kp <$> put_row kp k r rows = key_of kp <$> rows.
Proof.
  intros Hk. revert lo. induction rows as [|r' rest IH]; intros lo Hasc [old Hold].
  - done.
  - pose proof Hasc as (k' & Hk' & Hlo' & Hrest)%ascending_cons.
    simpl put_row. rewrite Hk'.
    destruct (key_compare k k') eqn:Ec.
    + apply key_compare_eq in Ec as ->. by rewrite !fmap_cons, Hk, Hk'.
    + exfalso. apply get_row_Some in Hold as [Hin Hko].
      apply elem_of_cons in Hin as [->|Hin].
      * assert (k' = k) as -> by congruence.
        by rewrite key_compare_refl in Ec.
      * apply ascending_Forall in Hrest. rewrite Forall_forall in Hrest.
        apply Hrest in Hin as (k'' & Hk'' & Hlt). simpl in Hlt.
        assert (k'' = k) as -> by congruence.
        unfold key_ltb in Hlt. rewrite key_compare_antisym, Ec in Hlt.
        done.
    + rewrite !fmap_cons. f_equal. eapply IH; [done|].
      simpl in Hold. unfold has_key in Hold. rewrite Hk' in Hold.
      unfold key_eqb in Hold. rewrite Ec in Hold. by exists old.
Qed.

(** After a [put], exactly one record carries the key: the one put. *)
Lemma put_row_unique (lo : option key) (k : key) (r : obj) (rows : list obj) :
  key_of kp r = Some k → ascending kp lo rows = true →
  List.filter (has_key kp k) (put_row kp k r rows) = [r].
Proof.
  intros Hk.
  assert (Hr : has_key kp k r = true) by by apply has_key_true.
  assert (Hnone : ∀ l rest, ascending kp (Some l) rest = true →
            (l = k ∨ key_ltb k l = true) →
            List.filter (has_key kp k) rest = []).
  { intros l rest Hasc Hl. apply ascending_Forall in Hasc.
    induction Hasc as [|r' rest' (k' & Hk' & Hlt) _ IH]; [done|].
    simpl. unfold has_key at 1. rewrite Hk'.
    rewrite key_eqb_ne; [done|]. intros <-. simpl in Hlt.
    destruct Hl as [->|Hl].
    - by rewrite key_ltb_irrefl in Hlt.
    - pose proof (key_ltb_trans _ _ _ Hl Hlt) as Hkk.
      by rewrite key_ltb_irrefl in Hkk. }
  revert lo. induction rows as [|r' rest IH]; intros lo Hasc.
  - simpl. by rewrite Hr.
  - pose proof Hasc as (k' & Hk' & Hlo' & Hrest)%ascending_cons.
    simpl put_row. rewrite Hk'.
    destruct (key_compare k k') eqn:Ec.
    + apply key_compare_eq in Ec as ->. simpl. rewrite Hr.
      f_equal. eapply Hnone; [done|]. by left.
    + simpl. rewrite Hr. f_equal.
      unfold has_key at 1. rewrite Hk'. unfold key_eqb. rewrite Ec.
      eapply Hnone; [done|]. right. unfold key_ltb. by rewrite Ec.
    + simpl. unfold has_key at 1. rewrite Hk'. unfold key_eqb. rewrite Ec.
      by eapply IH.
Qed.

End Ascending.

(** ** Sorting *)

Section Sorting.
Context {A : Type} (cmp : A → A → option num).

Lemma Array_sort_cons (x : A) (l : list A) :
  Array_sort cmp (x :: l) = Array_sort cmp l ≫= sort_insert cmp x.
Proof. reflexivity. Qed.

Lemma sort_insert_Permutation (x : A) (l l' : list A) :
  sort_insert cmp x l = Some l' → l' ≡ₚ x :: l.
Proof.
  revert l'. induction l as [|y rest IH]; intros l'; simpl.
  - by intros [= <-].
  - destruct (cmp x y) as [c|]; simpl; [|done].
    destruct (num_pos c); [|by intros [= <-]].
    destruct (sort_insert cmp x rest) as [s|]; simpl; [|done].
    intros [= <-]. rewrite (IH s eq_refl). apply Permutation_swap.
Qed.

(** Sorting neither drops nor adds an element. *)
Lemma Array_sort_Permutation (l l' : list A) :
  Array_sort cmp l = Some l' → l' ≡ₚ l.
Proof.
  revert l'. induction l as [|x rest IH]; intros l'.
  - by intros [= <-].
  - rewrite Array_sort_cons.
    destruct (Array_sort cmp rest) as [s|]; simpl; [|done].
    intros H%sort_insert_Permutation. rewrite H. by rewrite (IH s).
Qed.

(** Where no comparison between elements that satisfy [P] throws, the sort
    of such elements returns. *)
Lemma sort_insert_is_Some (P : A → Prop) (x : A) (l : list A) :
  (∀ x y, P x → P y → is_Some (cmp x y)) →
  P x → Forall P l → is_Some (sort_insert cmp x l).
Proof.
  intros Hcmp Hx. induction 1 as [|y rest Hy _ IH]; simpl; [by eexists|].
  destruct (Hcmp x y Hx Hy) as [c ->]. simpl.
  destruct (num_pos c); [|by eexists].
  destruct IH as [s ->]. by eexists.
Qed.

Lemma Array_sort_is_Some (P : A → Prop) (l : list A) :
  (∀ x y, P x → P y → is_Some (cmp x y)) →
  Forall P l → is_Some (Array_sort cmp l).
Proof.
  intros Hcmp. induction 1 as [|x rest Hx HP IH]; [by eexists|].
  rewrite Array_sort_cons. destruct IH as [s Hs]. rewrite Hs. simpl.
  apply (sort_insert_is_Some P); [done..|].
  by rewrite (Array_sort_Permutation rest s Hs).
Qed.

(** Where the comparator decides a transitive relation [R] on the
    elements that satisfy [P], the result is sorted by [R]. *)
Lemma Array_sort_sorted (P : A → Prop) (R : relation A) (l l' : list A) :
  (∀ x y c, P x → P y → cmp x y = Some c → num_pos c = true → R y x) →
  (∀ x y c, P x → P y → cmp x y = Some c → num_pos c = false → R x y) →
  (∀ x y z, P x → P y → P z → R x y → R y z → R x z) →
  Forall P l → Array_sort cmp l = Some l' → StronglySorted R l'.
Proof.
  intros Hpos Hneg Htrans.
  assert (Hins : ∀ x s s', P x → Forall P s → StronglySorted R s →
                           sort_insert cmp x s = Some s' →
                           StronglySorted R s').
  { intros x s s' Hx. revert s'.
    induction s as [|y rest IH]; intros s' HP Hs; simpl.
    - intros [= <-]. repeat constructor.
    - apply Forall_cons in HP as [Hy HP].
      apply StronglySorted_inv in Hs as [Hs Hall].
      destruct (cmp x y) as [c|] eqn:Ec; simpl; [|done].
      destruct (num_pos c) eqn:E.
      + destruct (sort_insert cmp x rest) as [t|] eqn:Et; simpl; [|done].
        intros [= <-]. constructor; [by apply IH|].
        rewrite (sort_insert_Permutation _ _ _ Et).
        constructor; [by eapply Hpos|done].
      + intros [= <-]. constructor; [by constructor|].
        constructor; [by eapply Hneg|].
        rewrite Forall_forall in HP, Hall. apply Forall_forall.
        intros z Hz. apply (Htrans x y z); eauto. }
  intros HP. revert l'. induction HP as [|x rest Hx HP IH]; intros l'.
  - intros [= <-]. constructor.
  - rewrite Array_sort_cons.
    destruct (Array_sort cmp rest) as [s|] eqn:Es; simpl; [|done].
    apply Hins; [done| |by apply IH].
    by rewrite (Array_sort_Permutation rest s Es).
Qed.

End Sorting.

(** Where a comparison throws exactly when one of the two elements is
    [bad], the sort throws exactly when the array has two elements or
    more, one of them bad: every element of such an array is compared
    with another. *)
Section SortThrows.
Context {A : Type} (cmp : A → A → option num) (bad : A → Prop).
Hypothesis cmp_None : ∀ x y, cmp x y = None ↔ bad x ∨ bad y.

Lemma bad_or_not (x : A) : bad x ∨ ¬ bad x.
Proof using cmp_None.
  destruct (cmp x x) eqn:E.
  - right. intros Hx.
    assert (cmp x x = None) by (apply cmp_None; by left). congruence.
  - left. apply cmp_None in E. tauto.
Qed.

Lemma sort_insert_good (x : A) (s : list A) :
  ¬ bad x → Forall (λ y, ¬ bad y) s → is_Some (sort_insert cmp x s).
Proof using cmp_None.
  apply (sort_insert_is_Some cmp (λ y, ¬ bad y)).
  intros a b Ha Hb. destruct (cmp a b) eqn:E; [by eexists|].
  apply cmp_None in E. tauto.
Qed.

Lemma Array_sort_None (l : list A) :
  Array_sort cmp l = None ↔ 2 ≤ length l ∧ Exists bad l.
Proof using cmp_None.
  induction l as [|x rest IH].
  - split; [done|]. intros [H _]. simpl in H. lia.
  - rewrite Array_sort_cons.
    destruct (Array_sort cmp rest) as [s|] eqn:Es; simpl.
    + pose proof (Array_sort_Permutation cmp rest s Es) as Hperm.
      assert (Hrest : ¬ (2 ≤ length rest ∧ Exists bad rest))
        by (intros H%IH; done).
      destruct rest as [|y [|z rest]].
      * apply Permutation_nil_r in Hperm as ->. simpl.
        split; [done|]. intros [H _]. simpl in H. lia.
      * apply Permutation_singleton_r in Hperm as ->. simpl.
        destruct (cmp x y) as [c|] eqn:Ec; simpl.
        -- split; [by destruct (num_pos c)|]. intros [_ Hex].
           assert (cmp x y = None); [|congruence].
           apply cmp_None. rewrite !Exists_cons, Exists_nil in Hex. tauto.
        -- split; [|done]. intros _. split; [simpl; lia|].
           apply cmp_None in Ec. rewrite !Exists_cons. tauto.
      * assert (Hgood : Forall (λ y, ¬ bad y) s).
        { rewrite Hperm. apply Forall_forall. intros a Ha Hbad.
          apply Hrest. split; [simpl; lia|].
          apply Exists_exists. by exists a. }
        destruct (bad_or_not x) as [Hx|Hx].
        -- destruct s as [|a s].
           { by apply Permutation_nil_cons in Hperm. }
           simpl. rewrite (proj2 (cmp_None x a)) by (by left). simpl.
           split; [|done]. intros _. split; [simpl; lia|].
           by apply Exists_cons_hd.
        -- destruct (sort_insert_good x s Hx Hgood) as [t ->].
           split; [done|]. intros [_ [Hbad|Hex]%Exists_cons]; [done|].
           exfalso. apply Hrest. split; [simpl; lia|done].
    + split; [|done]. intros _. destruct (proj1 IH eq_refl) as [Hlen Hex].
      split; [simpl; lia|]. by apply Exists_cons_tl.
Qed.

End SortThrows.

Lemma num_pos_sub (p q : Qc) :
  num_pos (num_sub (Fin q) (Fin p)) = true ↔ (p < q)%Qc.
Proof.
  simpl. rewrite Qclt_minus_iff. unfold Qcminus.
  rewrite (Qclt_alt (Q2Qc 0) (q + - p)).
  destruct (Q2Qc 0 ?= q + - p)%Qc; split; done.
Qed.

Lemma created_Some (r : obj) (c : Qc) :
  created r = Some c → get_prop "createdAt" r = VNum (Fin c).
Proof.
  unfold created.
  destruct (get_prop "createdAt" r) as [| | |[]| | |]; try done.
  by intros [= ->].
Qed.

(** On records whose [createdAt] are finite numbers the comparator
    returns their difference. *)
Lemma by_createdAt_desc_created (S2N : string → num) (x y : obj) (cx cy : Qc) :
  created x = Some cx → created y = Some cy →
  by_createdAt_desc S2N x y = Some (num_sub (Fin cy) (Fin cx)).
Proof.
  intros Hx%created_Some Hy%created_Some. unfold by_createdAt_desc.
  by rewrite Hx, Hy.
Qed.

Lemma by_createdAt_desc_pos (S2N : string → num) (x y : obj) (cx cy : Qc)
    (c : num) :
  created x = Some cx → created y = Some cy →
  by_createdAt_desc S2N x y = Some c →
  num_pos c = true ↔ (cx < cy)%Qc.
Proof.
  intros Hx Hy. rewrite (by_createdAt_desc_created S2N x y cx cy Hx Hy).
  intros [= <-]. apply num_pos_sub.
Qed.

Lemma sort_by_createdAt_newest_first (S2N : string → num) (l l' : list obj) :
  Forall (λ r, is_Some (created r)) l →
  Array_sort (by_createdAt_desc S2N) l = Some l' →
  newest_first l'.
Proof.
  apply Array_sort_sorted.
  - intros x y c [p Hp] [q Hq] Hc Hpos.
    apply (by_createdAt_desc_pos S2N x y p q c Hp Hq Hc) in Hpos.
    unfold not_older. rewrite Hp, Hq. by apply Qclt_le_weak.
  - intros x y c [p Hp] [q Hq] Hc Hneg.
    unfold not_older. rewrite Hp, Hq.
    apply Qcnot_lt_le. intros Hlt.
    apply (by_createdAt_desc_pos S2N x y p q c Hp Hq Hc) in Hlt. congruence.
  - intros x y z [p Hp] [q Hq] [r Hr]. unfold not_older.
    rewrite Hp, Hq, Hr. intros ? ?. by eapply Qcle_trans.
Qed.

(** ** Running the requests on an open database *)

Lemma bind_run {A B} (m : M A) (f : A → M B) (w : world) :
  (m ≫= f) w =
  match m w with
  | (Resolved a, w') => f a w'
  | (Rejected e, w') => (Rejected e, w')
  end.
Proof. reflexivity. Qed.

Lemma ret_run {A} (a : A) (w : world) : (mret a : M A) w = (Resolved a, w).
Proof. reflexivity. Qed.

Lemma tx_run (s : storeName) (mode : txMode) (w : world) (d : database) :
  idb w = Open d → tx s mode w = (Resolved (ObjectStore s mode), w).
Proof. unfold tx. by intros ->. Qed.

Lemma store_get_run (s : storeName) (mode : txMode) (k : key) (w : world)
    (d : database) :
  idb w = Open d →
  store_get (ObjectStore s mode) (of_key k) w
  = (Resolved (get_row (keyPath s) k (rows_of s d)), w).
Proof. unfold store_get. intros ->. by rewrite to_key_of_key. Qed.

Lemma store_getAll_run (s : storeName) (mode : txMode) (w : world)
    (d : database) :
  idb w = Open d →
  store_getAll (ObjectStore s mode) w = (Resolved (rows_of s d), w).
Proof. unfold store_getAll. by intros ->. Qed.

Lemma store_put_run (s : storeName) (r : obj) (k : key) (w : world)
    (d : database) :
  idb w = Open d → key_of (keyPath s) r = Some k →
  store_put (ObjectStore s ReadWrite) r w
  = (Resolved tt,
     set_idb (Open (set_rows s (put_row (keyPath s) k r (rows_of s d)) d)) w).
Proof. unfold store_put. intros -> Hk. simpl. by rewrite Hk. Qed.

Lemma store_put_invalid (s : storeName) (r : obj) (w : world) (d : database) :
  idb w = Open d → key_of (keyPath s) r = None →
  store_put (ObjectStore s ReadWrite) r w = (Rejected DataError, w).
Proof. unfold store_put. intros -> Hk. simpl. by rewrite Hk. Qed.

Lemma store_delete_run (s : storeName) (k : key) (w : world) (d : database) :
  idb w = Open d →
  store_delete (ObjectStore s ReadWrite) (of_key k) w
  = (Resolved tt,
     set_idb (Open (set_rows s (delete_row (keyPath s) k (rows_of s d)) d)) w).
Proof. unfold store_delete. intros ->. simpl. by rewrite to_key_of_key. Qed.

Lemma set_rows_same (s : storeName) (d : database) :
  set_rows s (rows_of s d) d = d.
Proof. by destruct s, d. Qed.

Lemma rows_of_set_rows (s : storeName) (rows : list obj) (d : database) :
  rows_of s (set_rows s rows d) = rows.
Proof. by destruct s. Qed.

Lemma set_idb_same (w : world) (d : database) :
  idb w = Open d → set_idb (Open d) w = w.
Proof. destruct w. simpl. by intros ->. Qed.

Lemma strict_eq_VStr (v : value) (s : string) :
  strict_eq v (VStr s) = true ↔ v = VStr s.
Proof.
  destruct v; simpl; try (split; congruence).
  rewrite String.eqb_eq. split; congruence.
Qed.

(** ** Properties of the API *)

Section Properties.
Context (clock : nat → Z) (randomUUID : option (nat → string))
        (StringToNumber : string → num).

Local Abbreviation Date_now := (Date_now clock).
Local Abbreviation new_id := (new_id clock randomUUID).
Local Abbreviation generated_id := (generated_id clock randomUUID).
Local Abbreviation after_new_id := (after_new_id randomUUID).
Local Abbreviation saveMedia := (saveMedia clock randomUUID).
Local Abbreviation setLogo := (setLogo clock randomUUID).
Local Abbreviation updateProduct := (updateProduct clock).
Local Abbreviation ToNumber := (ToNumber StringToNumber).
Local Abbreviation Number := (Number StringToNumber).
Local Abbreviation price_of := (price_of StringToNumber).
Local Abbreviation by_createdAt_desc := (by_createdAt_desc StringToNumber).
Local Abbreviation product_id := (product_id clock randomUUID).
Local Abbreviation after_product_id := (after_product_id randomUUID).
Local Abbreviation addProduct :=
  (addProduct clock randomUUID StringToNumber).
Local Abbreviation listProducts := (listProducts StringToNumber).
Local Abbreviation openDB := (openDB clock).
Local Abbreviation init := (init clock).
Local Abbreviation VKM := (VKM clock randomUUID StringToNumber).

Lemma Date_now_run (w : world) :
  Date_now w = (Resolved (clock (now_calls w)), tick w).
Proof. reflexivity. Qed.

Lemma new_id_run (prefix : string) (w : world) :
  new_id prefix w = (Resolved (generated_id prefix w), after_new_id w).
Proof.
  unfold Db.new_id, Db.generated_id, Db.after_new_id.
  by destruct randomUUID.
Qed.

Lemma idb_after_new_id (w : world) : idb (after_new_id w) = idb w.
Proof. unfold Db.after_new_id. by destruct randomUUID. Qed.

Lemma localStorage_after_new_id (w : world) :
  localStorage (after_new_id w) = localStorage w.
Proof. unfold Db.after_new_id. by destruct randomUUID. Qed.

Lemma objectURLs_after_new_id (w : world) :
  objectURLs (after_new_id w) = objectURLs w.
Proof. unfold Db.after_new_id. by destruct randomUUID. Qed.

(** *** Products: what a call computes *)

Lemma idb_after_product_id (p : obj) (w : world) :
  idb (after_product_id p w) = idb w.
Proof.
  unfold Db.after_product_id. destruct (truthy _); [done|].
  apply idb_after_new_id.
Qed.

Lemma Number_run (v : value) (w : world) :
  Number v w
  = match ToNumber v with
    | Some n => (Resolved (VNum n), w)
    | None => (Rejected cannot_convert, w)
    end.
Proof. unfold Db.Number. by destruct (Db.ToNumber _ v). Qed.

(** The stock needs no conversion: it is kept only when it is a finite
    number already. *)
Lemma stock_run (p : obj) (w : world) :
  (if Number_isFinite (get_prop "stock" p)
   then Number (get_prop "stock" p)
   else mret (VNum (num_of_Z 0))) w
  = (Resolved (stock_of p), w).
Proof.
  unfold stock_of.
  by destruct (get_prop "stock" p) as [| | |[]| | |].
Qed.

(** [addProduct] up to the transaction: the id, the conversion of the
    price, the two readings of the clock. *)
Lemma addProduct_steps (p : obj) (w : world) :
  let w1 := after_product_id p w in
  addProduct p w
  = match price_of p with
    | Some n =>
        let r := product_record (product_id p w) p (VNum n) (stock_of p)
                   (clock (now_calls w1)) (clock (S (now_calls w1))) in
        (products ← tx Products ReadWrite;
         store_put products r;;
         mret r) (tick (tick w1))
    | None => (Rejected cannot_convert, w1)
    end.
Proof.
  cbv zeta. unfold Db.addProduct.
  rewrite bind_run.
  assert (Hid : (if truthy (get_prop "id" p)
                 then mret (get_prop "id" p)
                 else VStr <$> new_id "p_") w
                = (Resolved (product_id p w), after_product_id p w)).
  { unfold Db.product_id, Db.after_product_id.
    destruct (truthy _); [done|].
    unfold fmap, M_fmap. by rewrite new_id_run. }
  rewrite Hid. cbv beta iota.
  rewrite bind_run, Number_run. unfold Db.price_of.
  destruct (ToNumber (or_else (get_prop "price" p) (VNum (num_of_Z 0))))
    as [n|]; [|done].
  cbv beta iota.
  rewrite bind_run, stock_run. cbv beta iota.
  rewrite bind_run, Date_now_run. cbv beta iota.
  rewrite bind_run, Date_now_run. cbv beta iota zeta.
  reflexivity.
Qed.

Lemma addProduct_run (p : obj) (w : world) (d : database) :
  idb w = Open d →
  let w1 := after_product_id p w in
  addProduct p w
  = match price_of p with
    | Some n =>
        let r := product_record (product_id p w) p (VNum n) (stock_of p)
                   (clock (now_calls w1)) (clock (S (now_calls w1))) in
        match to_key (product_id p w) with
        | Some k =>
            (Resolved r,
             set_idb (Open (set_rows Products
                              (put_row products_keyPath k r (products d)) d))
               (tick (tick w1)))
        | None => (Rejected DataError, tick (tick w1))
        end
    | None => (Rejected cannot_convert, w1)
    end.
Proof.
  intros Hw. cbv zeta. rewrite addProduct_steps. cbv zeta.
  destruct (price_of p) as [n|]; [|done].
  set (w1 := after_product_id p w).
  assert (Hw2 : idb (tick (tick w1)) = Open d).
  { simpl. unfold w1. by rewrite idb_after_product_id. }
  rewrite bind_run, (tx_run _ _ _ d Hw2). cbv beta iota.
  rewrite bind_run.
  set (r := product_record _ _ _ _ _ _).
  assert (Hkey : key_of (keyPath Products) r = to_key (product_id p w))
    by reflexivity.
  destruct (to_key (product_id p w)) as [k|] eqn:Ek.
  - by rewrite (store_put_run _ _ k _ d Hw2 Hkey).
  - by rewrite (store_put_invalid _ _ _ d Hw2 Hkey).
Qed.

Lemma updateProduct_run (k : key) (updates : obj) (w : world) (d : database)
    (e : obj) :
  idb w = Open d →
  get_row products_keyPath k (products d) = Some e →
  let next := <["updatedAt" := VNum (num_of_Z (clock (now_calls w)))]>
                (updates ∪ e) in
  updateProduct (of_key k) updates w
  = match key_of products_keyPath next with
    | Some k' =>
        (Resolved next,
         set_idb (Open (set_rows Products
                          (put_row products_keyPath k' next (products d)) d))
           (tick w))
    | None => (Rejected DataError, tick w)
    end.
Proof.
  intros Hw He. cbv zeta. unfold Db.updateProduct.
  rewrite bind_run, (tx_run _ _ _ d Hw). cbv beta iota.
  rewrite bind_run, (store_get_run _ _ _ _ d Hw). cbv beta iota.
  change (get_row (keyPath Products) k (rows_of Products d))
    with (get_row products_keyPath k (products d)).
  rewrite He.
  rewrite bind_run, Date_now_run. cbv beta iota zeta.
  assert (Hw1 : idb (tick w) = Open d) by done.
  set (next := <["updatedAt" := _]> (updates ∪ e)).
  rewrite bind_run.
  destruct (key_of products_keyPath next) as [k'|] eqn:Ek.
  - by rewrite (store_put_run Products _ k' _ d Hw1 Ek).
  - by rewrite (store_put_invalid Products _ _ d Hw1 Ek).
Qed.

Lemma listProducts_run (filter : obj) (w : world) (d : database) :
  idb w = Open d →
  listProducts filter w
  = match Array_sort by_createdAt_desc
            (List.filter (category_matches filter) (products d)) with
    | Some sorted => (Resolved sorted, w)
    | None => (Rejected cannot_convert, w)
    end.
Proof.
  intros Hw. unfold Db.listProducts.
  rewrite bind_run, (tx_run _ _ _ d Hw). cbv beta iota.
  rewrite bind_run, (store_getAll_run _ _ _ d Hw). cbv beta iota.
  change (rows_of Products d) with (products d).
  by destruct (Array_sort _ _).
Qed.

(** A listing returns whenever the [createdAt] of the stored products
    convert to numbers. *)
Lemma by_createdAt_desc_is_Some (x y : obj) :
  is_Some (ToNumber (get_prop "createdAt" x)) →
  is_Some (ToNumber (get_prop "createdAt" y)) →
  is_Some (by_createdAt_desc x y).
Proof.
  intros [nx Hx] [ny Hy]. unfold Db.by_createdAt_desc.
  rewrite Hy. simpl. rewrite Hx. by eexists.
Qed.

Lemma Forall_filter_list {A} (P : A → Prop) (f : A → bool) (l : list A) :
  Forall P l → Forall P (List.filter f l).
Proof.
  rewrite !Forall_forall. intros H x [Hin _]%list_elem_of_In%filter_In.
  by apply H, list_elem_of_In.
Qed.

Lemma listProducts_resolves (filter : obj) (w : world) (d : database) :
  idb w = Open d →
  createdAt_converts StringToNumber (products d) →
  ∃ l, listProducts filter w = (Resolved l, w)
       ∧ Array_sort by_createdAt_desc
           (List.filter (category_matches filter) (products d)) = Some l.
Proof.
  intros Hw Hconv. rewrite (listProducts_run filter w d Hw).
  destruct (Array_sort_is_Some by_createdAt_desc _
              (List.filter (category_matches filter) (products d))
              by_createdAt_desc_is_Some
              (Forall_filter_list _ _ _ Hconv)) as [l Hl].
  rewrite Hl. by exists l.
Qed.

(** C3: [updateProduct] on an id that no stored product has rejects with
    the error "Product not found" and writes nothing: the world after the
    call is the world before it. *)
Theorem updateProduct_missing_rejects (k : key) (updates : obj) (w : world)
    (d : database) :
  idb w = Open d →
  get_row products_keyPath k (products d) = None →
  updateProduct (of_key k) updates w = (Rejected not_found, w).
Proof.
  intros Hw Hnone. unfold Db.updateProduct.
  rewrite bind_run, (tx_run _ _ _ d Hw).
  rewrite bind_run, (store_get_run _ _ _ _ d Hw).
  simpl. by rewrite Hnone.
Qed.

(** C7: [deleteProduct] called twice on the same id resolves both times;
    after the first call the products store holds no record under the id,
    so no listing that [listProducts] resolves with has one, and
    [listProducts()] does resolve (the stored [createdAt] being numbers,
    or anything else that converts to one); the second call leaves the
    world as the first left it. *)
Theorem deleteProduct_idempotent (k : key) (w : world) (d : database) :
  idb w = Open d →
  let r1 := deleteProduct (of_key k) w in
  let r2 := deleteProduct (of_key k) (world_of r1) in
  result_of r1 = Resolved tt
  ∧ result_of r2 = Resolved tt
  ∧ (∃ d1, idb (world_of r1) = Open d1
           ∧ get_row products_keyPath k (products d1) = None)
  ∧ (∀ filter l,
       result_of (listProducts filter (world_of r1)) = Resolved l →
       Forall (λ r, key_of products_keyPath r ≠ Some k) l)
  ∧ (createdAt_converts StringToNumber (products d) →
     ∃ l, result_of (listProducts ∅ (world_of r1)) = Resolved l
          ∧ Forall (λ r, key_of products_keyPath r ≠ Some k) l)
  ∧ world_of r2 = world_of r1.
Proof.
  intros Hw.
  set (d1 := set_rows Products
               (delete_row products_keyPath k (products d)) d).
  assert (H1 : deleteProduct (of_key k) w = (Resolved tt, set_idb (Open d1) w)).
  { unfold deleteProduct.
    by rewrite bind_run, (tx_run _ _ _ d Hw), (store_delete_run _ _ _ d Hw). }
  assert (Hw1 : idb (set_idb (Open d1) w) = Open d1) by done.
  assert (Hgone : get_row products_keyPath k (products d1) = None)
    by apply get_row_delete_eq.
  assert (H2 : deleteProduct (of_key k) (set_idb (Open d1) w)
               = (Resolved tt, set_idb (Open d1) w)).
  { unfold deleteProduct.
    rewrite bind_run, (tx_run _ _ _ d1 Hw1), (store_delete_run _ _ _ d1 Hw1).
    change (delete_row (keyPath Products) k (rows_of Products d1))
      with (delete_row products_keyPath k (products d1)).
    rewrite (delete_row_absent _ _ _ Hgone).
    by rewrite (set_rows_same Products d1 : set_rows Products (products d1) d1
                                            = d1). }
  assert (Hlisted : ∀ filter l,
            Array_sort by_createdAt_desc
              (List.filter (category_matches filter) (products d1)) = Some l →
            Forall (λ r, key_of products_keyPath r ≠ Some k) l).
  { intros filter l Hl. rewrite (Array_sort_Permutation _ _ _ Hl).
    apply Forall_filter_list. by apply get_row_None. }
  cbv zeta. unfold result_of, world_of. rewrite H1. cbn [fst snd].
  rewrite H2. cbn [fst snd].
  split_and!; try done.
  - by exists d1.
  - intros filter l. rewrite (listProducts_run filter _ d1 Hw1).
    destruct (Array_sort _ _) as [l'|] eqn:El; cbn [fst]; [|done].
    intros [= <-]. by eapply Hlisted.
  - intros Hconv.
    assert (Hconv1 : createdAt_converts StringToNumber (products d1))
      by by apply Forall_filter_list.
    destruct (listProducts_resolves ∅ _ d1 Hw1 Hconv1) as (l & Hrun & Hl).
    exists l. rewrite Hrun. split; [done|]. by eapply Hlisted.
Qed.

(** C1: [loginOwner] resolves with [true] exactly when a user record is
    stored under the username whose password is the supplied one and
    whose role is "owner"; it then sets the session flag, so [isOwner]
    holds.  Otherwise it resolves with [false] and leaves the world, the
    session flag included, as it was.  [logoutOwner] always clears the
    flag. *)
Theorem loginOwner_iff_owner_credentials (username password : string)
    (w : world) (d : database) :
  idb w = Open d →
  let authorised :=
    ∃ u, get_row users_keyPath (KStr username) (users d) = Some u
         ∧ get_prop "password" u = VStr password
         ∧ get_prop "role" u = VStr "owner" in
  let r := loginOwner (VStr username) (VStr password) w in
  (∃ ok, result_of r = Resolved ok
         ∧ (ok = true ↔ authorised)
         ∧ (ok = true → isOwner (world_of r) = true)
         ∧ (ok = false → world_of r = w))
  ∧ (∀ w', result_of (logoutOwner w') = Resolved tt
           ∧ isOwner (world_of (logoutOwner w')) = false).
Proof.
  intros Hw. cbv zeta. split.
  - unfold loginOwner.
    rewrite bind_run, (tx_run _ _ _ d Hw). cbv beta iota.
    change (VStr username) with (of_key (KStr username)).
    rewrite bind_run, (store_get_run _ _ _ _ d Hw). cbv beta iota zeta.
    change (rows_of Users d) with (users d).
    change (keyPath Users) with users_keyPath.
    destruct (get_row users_keyPath (KStr username) (users d)) as [u|] eqn:Eu.
    + destruct (strict_eq (get_prop "password" u) (VStr password)) eqn:Ep;
        [destruct (strict_eq (get_prop "role" u) (VStr "owner")) eqn:Er|].
      * apply strict_eq_VStr in Ep, Er. exists true. split_and!; try done.
        -- split; [|done]. intros _. by exists u.
        -- intros _. unfold isOwner, world_of. simpl.
           rewrite lookup_insert_eq. by apply bool_decide_eq_true.
      * exists false. split_and!; try done. split; [done|].
        intros (u' & [= <-] & _ & Hr%strict_eq_VStr). congruence.
      * exists false. split_and!; try done. split; [done|].
        intros (u' & [= <-] & Hp%strict_eq_VStr & _). congruence.
    + exists false. split_and!; try done. split; [done|].
      by intros (u' & ? & _).
  - intros w'. split; [done|].
    unfold isOwner, logoutOwner, world_of. simpl.
    rewrite lookup_delete_eq. by apply bool_decide_eq_false.
Qed.

Lemma saveMedia_run (f : file) (w : world) (d : database) :
  idb w = Open d →
  ∃ rec w',
    saveMedia f w = (Resolved (generated_id "m_" w), w')
    ∧ key_of media_keyPath rec = Some (KStr (generated_id "m_" w))
    ∧ get_prop "blob" rec = VFile f
    ∧ idb w' = Open (set_rows Media
                       (put_row media_keyPath (KStr (generated_id "m_" w))
                          rec (media d)) d)
    ∧ objectURLs w' = objectURLs w
    ∧ localStorage w' = localStorage w.
Proof.
  intros Hw. unfold Db.saveMedia.
  rewrite bind_run, new_id_run. cbv beta iota.
  rewrite bind_run, Date_now_run. cbv beta iota zeta.
  set (w1 := tick (after_new_id w)).
  assert (Hw1 : idb w1 = Open d) by (simpl; by rewrite idb_after_new_id).
  rewrite bind_run, (tx_run _ _ _ d Hw1). cbv beta iota.
  match goal with |- context [store_put _ ?r] => set (rec := r) end.
  assert (Hk : key_of (keyPath Media) rec = Some (KStr (generated_id "m_" w)))
    by reflexivity.
  rewrite bind_run, (store_put_run _ _ _ _ d Hw1 Hk). cbv beta iota.
  exists rec. eexists. split; [reflexivity|]. split_and!; try done.
  - simpl. apply objectURLs_after_new_id.
  - simpl. apply localStorage_after_new_id.
Qed.

(** C9: after [setLogo(file)], [getLogoUrl()] resolves with a URL, not
    [null], and the URL is registered for the very file stored; where no
    "logoMediaId" setting is stored, [getLogoUrl()] resolves with [null]
    and changes nothing. *)
Theorem setLogo_then_getLogoUrl (f : file) (w : world) (d : database) :
  idb w = Open d →
  (∃ url,
      result_of (getLogoUrl (world_of (setLogo f w))) = Resolved (VStr url)
      ∧ objectURLs (world_of (getLogoUrl (world_of (setLogo f w)))) !! url
        = Some f)
  ∧ (get_row settings_keyPath (KStr "logoMediaId") (settings d) = None →
     getLogoUrl w = (Resolved VNull, w)).
Proof.
  intros Hw. split.
  - destruct (saveMedia_run f w d Hw)
      as (rec & w1 & Hsave & Hkey & Hblob & Hw1 & _ & _).
    set (id := generated_id "m_" w) in *.
    set (d1 := set_rows Media (put_row media_keyPath (KStr id) rec (media d)) d)
      in *.
    assert (Hset : ∃ d2, let w2 := set_idb (Open d2) w1 in
              setLogo f w = (Resolved id, w2)
              ∧ get_row (keyPath Settings) (KStr "logoMediaId")
                  (rows_of Settings d2)
                = Some {[ "key" := VStr "logoMediaId"; "value" := VStr id ]}
              ∧ rows_of Media d2
                = put_row (keyPath Media) (KStr id) rec (media d)).
    { unfold Db.setLogo. rewrite bind_run, Hsave. cbv beta iota.
      rewrite bind_run, (tx_run _ _ _ d1 Hw1). cbv beta iota.
      match goal with |- context [store_put _ ?r] => set (row := r) end.
      assert (Hk : key_of (keyPath Settings) row = Some (KStr "logoMediaId"))
        by reflexivity.
      rewrite bind_run, (store_put_run _ _ _ _ d1 Hw1 Hk). cbv beta iota.
      rewrite ret_run. eexists. cbv zeta. split_and!; [reflexivity| |done].
      rewrite rows_of_set_rows. by apply get_row_put_eq. }
    destruct Hset as (d2 & Hset & Hrow & Hmedia). cbv zeta in Hset.
    set (w2 := set_idb (Open d2) w1) in *.
    assert (Hw2 : idb w2 = Open d2) by done.
    assert (Hget : ∃ url, getLogoUrl w2
              = (Resolved (VStr url),
                 set_objectURLs (<[url := f]> (objectURLs w2)) w2)).
    { unfold getLogoUrl.
      rewrite bind_run, (tx_run _ _ _ d2 Hw2). cbv beta iota.
      change (VStr "logoMediaId") with (of_key (KStr "logoMediaId")).
      rewrite bind_run, (store_get_run _ _ _ _ d2 Hw2). cbv beta iota.
      rewrite Hrow.
      match goal with |- context [get_prop "value" ?r] =>
        change (get_prop "value" r) with (of_key (KStr id)) end.
      unfold getMediaUrl.
      rewrite bind_run, (tx_run _ _ _ d2 Hw2). cbv beta iota.
      rewrite bind_run, (store_get_run _ _ _ _ d2 Hw2). cbv beta iota.
      rewrite Hmedia, (get_row_put_eq _ _ _ _ Hkey), Hblob.
      unfold URL_createObjectURL. eexists. reflexivity. }
    destruct Hget as (url & Hget). exists url.
    rewrite Hset. unfold world_of, result_of. cbn [fst snd]. rewrite Hget.
    cbn [fst snd]. split; [done|]. simpl. apply lookup_insert_eq.
  - intros Hnone. unfold getLogoUrl.
    rewrite bind_run, (tx_run _ _ _ d Hw). cbv beta iota.
    change (VStr "logoMediaId") with (of_key (KStr "logoMediaId")).
    rewrite bind_run, (store_get_run _ _ _ _ d Hw). cbv beta iota.
    change (get_row (keyPath Settings) (KStr "logoMediaId") (rows_of Settings d))
      with (get_row settings_keyPath (KStr "logoMediaId") (settings d)).
    by rewrite Hnone.
Qed.


Lemma getBusinessInfo_run (w : world) (d : database) :
  idb w = Open d → getBusinessInfo w = (Resolved (business_of d), w).
Proof.
  intros Hw. unfold getBusinessInfo.
  rewrite bind_run, (tx_run _ _ _ d Hw). cbv beta iota.
  change (VStr "business") with (of_key (KStr "business")).
  by rewrite bind_run, (store_get_run _ _ _ _ d Hw).
Qed.

Lemma setBusinessInfo_run (info : value) (w : world) (d : database) :
  idb w = Open d →
  setBusinessInfo info w
  = (Resolved tt,
     set_idb (Open (set_rows Settings
                      (put_row settings_keyPath (KStr "business")
                         {[ "key" := VStr "business"; "value" := info ]}
                         (settings d)) d)) w).
Proof.
  intros Hw. unfold setBusinessInfo.
  rewrite bind_run, (tx_run _ _ _ d Hw). cbv beta iota.
  by rewrite (store_put_run _ _ (KStr "business") _ d Hw).
Qed.

Lemma business_of_setBusinessInfo (info : value) (d : database) :
  business_of (set_rows Settings
                 (put_row settings_keyPath (KStr "business")
                    {[ "key" := VStr "business"; "value" := info ]}
                    (settings d)) d)
  = or_else info VNull.
Proof.
  unfold business_of. simpl settings.
  by rewrite get_row_put_eq.
Qed.

(** [init] on an open connection: the seed is written only when
    [getBusinessInfo] reports nothing. *)
Lemma init_open (w : world) (d : database) :
  idb w = Open d →
  init w
  = (Resolved true,
     if truthy (business_of d) then w
     else set_idb (Open (set_rows Settings
                           (put_row settings_keyPath (KStr "business")
                              {[ "key" := VStr "business";
                                 "value" := default_business ]}
                              (settings d)) d)) w).
Proof.
  intros Hw. unfold Db.init.
  rewrite bind_run. unfold get_world at 1. cbv beta iota.
  unfold db_is_set. rewrite Hw.
  rewrite bind_run, ret_run. cbv beta iota.
  rewrite bind_run, (getBusinessInfo_run _ d Hw). cbv beta iota.
  destruct (truthy (business_of d)).
  - by rewrite bind_run, ret_run.
  - by rewrite bind_run, (setBusinessInfo_run _ _ d Hw).
Qed.

(** [init] when [db] is not set yet: [openDB] runs first. *)
Lemma init_not_open (w : world) :
  db_is_set w = false →
  init w = init (world_of (openDB w))
  ∧ ∃ d, idb (world_of (openDB w)) = Open d
         ∧ (∀ d', database_of w = Some d' →
                  d = d' ∧ world_of (openDB w) = set_idb (Open d') w).
Proof.
  intros Hset.
  assert (Hopen : ∃ w' d, openDB w = (Resolved tt, w') ∧ idb w' = Open d
            ∧ (∀ d', database_of w = Some d' →
                     d = d' ∧ w' = set_idb (Open d') w)).
  { unfold Db.openDB, database_of, db_is_set in *.
    destruct (idb w) as [|d|d] eqn:Ew; [| |done].
    - rewrite bind_run, Date_now_run. cbv beta iota zeta.
      eexists _, _. split; [reflexivity|]. split; [reflexivity|]. done.
    - exists (set_idb (Open d) w), d. split_and!; [done..|].
      by intros d' [= <-]. }
  destruct Hopen as (w' & d & Hopen & Hw' & Hsame).
  rewrite Hopen. unfold world_of. cbn [snd]. split; [|by eauto].
  rewrite (init_open w' d Hw'). unfold Db.init.
  rewrite bind_run. unfold get_world at 1. cbv beta iota.
  rewrite Hset, bind_run, Hopen. cbv beta iota.
  rewrite bind_run, (getBusinessInfo_run _ d Hw'). cbv beta iota.
  destruct (truthy (business_of d)).
  - by rewrite bind_run, ret_run.
  - by rewrite bind_run, (setBusinessInfo_run _ _ d Hw').
Qed.

(** C8: [init] always resolves with [true], and a second [init] changes
    nothing: it leaves the world, with the seeded "business" setting and
    the seeded owner row, exactly as the first call left it.  More
    generally, on any existing database whose "business" setting holds a
    truthy value, as every [BusinessInfo] object is, [init] writes
    nothing: it only opens the connection. *)
Theorem init_twice_is_init_once (w : world) :
  (∃ w1, init w = (Resolved true, w1) ∧ init w1 = (Resolved true, w1))
  ∧ (∀ d, database_of w = Some d → truthy (business_of d) = true →
          init w = (Resolved true, set_idb (Open d) w)).
Proof.
  assert (Hopen : ∀ w0 d, idb w0 = Open d →
            ∃ w1, init w0 = (Resolved true, w1)
                  ∧ init w1 = (Resolved true, w1)).
  { intros w0 d Hw0. rewrite (init_open w0 d Hw0).
    destruct (truthy (business_of d)) eqn:Et.
    - exists w0. split; [done|]. by rewrite (init_open w0 d Hw0), Et.
    - eexists. split; [reflexivity|].
      erewrite init_open; [|reflexivity].
      by rewrite business_of_setBusinessInfo. }
  split.
  - destruct (db_is_set w) eqn:Hset.
    + unfold db_is_set in Hset. destruct (idb w) eqn:Ew; try done. eauto.
    + destruct (init_not_open w Hset) as (-> & d & Hd & _). eauto.
  - intros d Hd Ht. destruct (db_is_set w) eqn:Hset.
    + unfold db_is_set, database_of in *.
      destruct (idb w) eqn:Ew; try done. simplify_eq.
      rewrite (init_open w d Ew), Ht. by rewrite set_idb_same.
    + destruct (init_not_open w Hset) as (-> & d' & Hd' & Hsame).
      destruct (Hsame d Hd) as [-> Hw']. rewrite Hw' in *.
      by rewrite (init_open _ d Hd'), Ht.
Qed.


(** *** Updates *)

Lemma timestamp_le (a b : Z) : (a ≤ b)%Z → (timestamp a ≤ timestamp b)%Qc.
Proof.
  intros H. unfold timestamp, Qcle. simpl.
  rewrite !Qred_correct. by rewrite <- Zle_Qle.
Qed.

(** C4, as the code has it: [updateProduct] keeps the [id] and the
    [createdAt] of the stored record whenever [partialUpdates] has neither
    field, and the merged record is stored under the same id; a field
    [id] or [createdAt] that [partialUpdates] does have replaces the
    stored one in the record returned. *)
Theorem updateProduct_keeps_id_createdAt_unless_supplied (k : key)
    (updates : obj) (w : world) (d : database) (e : obj) :
  idb w = Open d →
  get_row products_keyPath k (products d) = Some e →
  (updates !! "id" = None → updates !! "createdAt" = None →
   ∃ next d',
     updateProduct (of_key k) updates w
     = (Resolved next, set_idb (Open d') (tick w))
     ∧ get_prop "id" next = get_prop "id" e
     ∧ get_prop "createdAt" next = get_prop "createdAt" e
     ∧ get_row products_keyPath k (products d') = Some next)
  ∧ (∀ f v next,
       f = "id" ∨ f = "createdAt" → updates !! f = Some v →
       result_of (updateProduct (of_key k) updates w) = Resolved next →
       get_prop f next = v).
Proof.
  intros Hw He. pose proof (updateProduct_run k updates w d e Hw He) as Hrun.
  cbv zeta in Hrun.
  set (next := <["updatedAt" := VNum (num_of_Z (clock (now_calls w)))]>
                 (updates ∪ e)) in *.
  split.
  - intros Hid Hcr.
    assert (Hnid : get_prop "id" next = get_prop "id" e).
    { unfold get_prop, next. rewrite lookup_insert_ne by done.
      by rewrite lookup_union_r. }
    assert (Hncr : get_prop "createdAt" next = get_prop "createdAt" e).
    { unfold get_prop, next. rewrite lookup_insert_ne by done.
      by rewrite lookup_union_r. }
    assert (Hk : key_of products_keyPath next = Some k).
    { apply get_row_Some in He as [_ Hke].
      unfold key_of, products_keyPath in *. by rewrite Hnid. }
    rewrite Hk in Hrun. eexists next, _. split; [exact Hrun|].
    split_and!; [done..|]. simpl. by apply get_row_put_eq.
  - intros f v next' Hf Hv. rewrite Hrun.
    assert (Hnf : get_prop f next = v).
    { unfold get_prop, next.
      rewrite lookup_insert_ne by (destruct Hf as [-> | ->]; done).
      by rewrite (lookup_union_Some_l _ _ _ _ Hv). }
    destruct (key_of products_keyPath next); simpl; [|done].
    by intros [= <-].
Qed.

(** C5, as the code has it: [updateProduct(id, {price: x})] on a stored
    product resolves with, and stores under the same id, a record whose
    [price] is [x], whose every other field except [updatedAt] is the
    stored record's, and whose [updatedAt] is the reading of the clock at
    the update; that reading is not before [createdAt] whenever the clock
    has not gone back since. *)
Theorem updateProduct_price_only (k : key) (x : value) (w : world)
    (d : database) (e : obj) :
  idb w = Open d →
  get_row products_keyPath k (products d) = Some e →
  ∃ next d',
    updateProduct (of_key k) {[ "price" := x ]} w
    = (Resolved next, set_idb (Open d') (tick w))
    ∧ get_row products_keyPath k (products d') = Some next
    ∧ get_prop "price" next = x
    ∧ (∀ f, f ≠ "price" → f ≠ "updatedAt" → next !! f = e !! f)
    ∧ get_prop "updatedAt" next = VNum (num_of_Z (clock (now_calls w)))
    ∧ (∀ c : Z, get_prop "createdAt" e = VNum (num_of_Z c) →
                (c ≤ clock (now_calls w))%Z →
                updated_not_before_created next).
Proof.
  intros Hw He.
  pose proof (updateProduct_run k {[ "price" := x ]} w d e Hw He) as Hrun.
  cbv zeta in Hrun.
  set (next := <["updatedAt" := VNum (num_of_Z (clock (now_calls w)))]>
                 ({[ "price" := x ]} ∪ e)) in *.
  assert (Hother : ∀ f, f ≠ "price" → f ≠ "updatedAt" → next !! f = e !! f).
  { intros f Hp Hu. unfold next. rewrite lookup_insert_ne by done.
    rewrite lookup_union_r; [done|]. by rewrite lookup_singleton_ne. }
  assert (Hk : key_of products_keyPath next = Some k).
  { apply get_row_Some in He as [_ Hke].
    unfold key_of, get_prop, products_keyPath in *.
    by rewrite Hother. }
  assert (Hup : get_prop "updatedAt" next
                = VNum (num_of_Z (clock (now_calls w)))).
  { unfold get_prop, next. by rewrite lookup_insert_eq. }
  rewrite Hk in Hrun. eexists next, _. split; [exact Hrun|].
  split_and!; try done.
  - simpl. by apply get_row_put_eq.
  - unfold get_prop, next. rewrite lookup_insert_ne by done.
    rewrite (lookup_union_Some_l _ _ "price" x); [done|].
    by rewrite lookup_singleton_eq.
  - intros c Hc Hle. unfold updated_not_before_created, created, updated.
    rewrite Hup. unfold get_prop in *.
    rewrite (Hother "createdAt"), Hc by done.
    by apply timestamp_le.
Qed.


(** *** Listing *)


Lemma category_matches_none (filter p : obj) :
  truthy (get_prop "category" filter) = false →
  category_matches filter p = true.
Proof. unfold category_matches. by intros ->. Qed.

Lemma category_matches_string (C : string) (p : obj) :
  C ≠ "" →
  category_matches {[ "category" := VStr C ]} p
  = strict_eq (get_prop "category" p) (VStr C).
Proof.
  intros HC. unfold category_matches, get_prop at 1 3.
  rewrite lookup_singleton_eq. simpl.
  destruct (String.eqb_spec C ""); [done|]. done.
Qed.

(** C6, as the code has it: in a store whose [createdAt] convert to
    numbers, for a category [C] other than the empty string,
    [listProducts({category: C})] resolves with exactly the stored
    products whose [category] is [C]; [listProducts()] resolves with all
    stored products, and so does a filter whose category is the empty
    string.  Either list is ordered newest first by [createdAt] whenever
    the stored [createdAt] are finite numbers.  Neither call changes the
    world. *)
Theorem listProducts_by_category (w : world) (d : database) :
  idb w = Open d →
  createdAt_converts StringToNumber (products d) →
  (∀ C : string, C ≠ "" →
     ∃ l, listProducts {[ "category" := VStr C ]} w = (Resolved l, w)
          ∧ l ≡ₚ List.filter
                   (λ p, strict_eq (get_prop "category" p) (VStr C))
                   (products d)
          ∧ (∀ p, p ∈ l ↔ p ∈ products d ∧ get_prop "category" p = VStr C)
          ∧ (Forall (λ r, is_Some (created r)) (products d) →
             newest_first l))
  ∧ (∃ l, listProducts ∅ w = (Resolved l, w)
          ∧ l ≡ₚ products d
          ∧ (Forall (λ r, is_Some (created r)) (products d) →
             newest_first l))
  ∧ listProducts {[ "category" := VStr "" ]} w = listProducts ∅ w.
Proof.
  intros Hw Hconv. split_and!.
  - intros C HC.
    destruct (listProducts_resolves {[ "category" := VStr C ]} w d Hw Hconv)
      as (l & Hrun & Hl).
    rewrite (filter_ext _ _ (λ p, category_matches_string C p HC)) in Hl.
    exists l. split; [exact Hrun|]. split_and!.
    + by apply Array_sort_Permutation in Hl.
    + intros p. rewrite (Array_sort_Permutation _ _ _ Hl).
      rewrite list_elem_of_In, filter_In, <- list_elem_of_In.
      by rewrite strict_eq_VStr.
    + intros Hall. eapply sort_by_createdAt_newest_first; [|exact Hl].
      by apply Forall_filter_list.
  - destruct (listProducts_resolves ∅ w d Hw Hconv) as (l & Hrun & Hl).
    rewrite (filter_ext _ (λ _, true)), filter_true in Hl
      by (intros p; by apply category_matches_none).
    exists l. split; [exact Hrun|]. split.
    + by apply Array_sort_Permutation in Hl.
    + intros Hall. by eapply sort_by_createdAt_newest_first.
  - rewrite !(listProducts_run _ w d Hw).
    rewrite (filter_ext (category_matches {[ "category" := VStr "" ]})
               (category_matches ∅)); [done|].
    intros p. by rewrite !category_matches_none.
Qed.

(** *** Adding *)







(** *** The products store stays well formed *)

Lemma products_wf_same_idb (w w' : world) :
  idb w' = idb w → products_wf w → products_wf w'.
Proof. unfold products_wf, database_of. by intros ->. Qed.

Lemma keeps_ret {A} (a : A) : keeps_wf (mret a : M A).
Proof. by intros w. Qed.

Lemma keeps_throw {A} (e : error) : keeps_wf (throw e : M A).
Proof. by intros w. Qed.

Lemma keeps_bind {A B} (m : M A) (f : A → M B) :
  keeps_wf m → (∀ a, keeps_wf (f a)) → keeps_wf (m ≫= f).
Proof.
  intros Hm Hf w Hw. rewrite bind_run. specialize (Hm w Hw).
  destruct (m w) as [[a|e] w']; simpl in *; [by apply Hf|done].
Qed.

Lemma keeps_fmap {A B} (g : A → B) (m : M A) :
  keeps_wf m → keeps_wf (g <$> m).
Proof.
  intros Hm w Hw. specialize (Hm w Hw). unfold fmap, M_fmap.
  by destruct (m w) as [[a|e] w'].
Qed.

Lemma keeps_same_idb {A} (m : M A) :
  (∀ w, idb (m w).2 = idb w) → keeps_wf m.
Proof. intros H w. by apply products_wf_same_idb. Qed.

Lemma keeps_tx (s : storeName) (mode : txMode) : keeps_wf (tx s mode).
Proof.
  apply keeps_same_idb. intros w. unfold tx.
  by destruct (idb w) eqn:E.
Qed.

Lemma keeps_store_get (st : objectStore) (k : value) :
  keeps_wf (store_get st k).
Proof.
  apply keeps_same_idb. intros w. unfold store_get.
  destruct (idb w) eqn:E; try done. by destruct (to_key k).
Qed.

Lemma keeps_store_getAll (st : objectStore) : keeps_wf (store_getAll st).
Proof.
  apply keeps_same_idb. intros w. unfold store_getAll.
  by destruct (idb w) eqn:E.
Qed.

Lemma keeps_Date_now : keeps_wf Date_now.
Proof. by apply keeps_same_idb. Qed.

Lemma keeps_Number (v : value) : keeps_wf (Number v).
Proof.
  unfold Db.Number.
  destruct (Db.ToNumber _ v); [apply keeps_ret|apply keeps_throw].
Qed.

Lemma keeps_new_id (prefix : string) : keeps_wf (new_id prefix).
Proof.
  apply keeps_same_idb. intros w. rewrite new_id_run.
  apply idb_after_new_id.
Qed.

Lemma keeps_createObjectURL (blob : value) :
  keeps_wf (URL_createObjectURL blob).
Proof.
  apply keeps_same_idb. intros w. unfold URL_createObjectURL.
  by destruct blob.
Qed.

Lemma keeps_modify_localStorage (g : world → gmap string string) :
  keeps_wf (modify (λ w, set_localStorage (g w) w)).
Proof. by apply keeps_same_idb. Qed.

Lemma keeps_get_world : keeps_wf get_world.
Proof. by apply keeps_same_idb. Qed.

Lemma keeps_store_put (st : objectStore) (r : obj) :
  keeps_wf (store_put st r).
Proof.
  intros w Hw. unfold store_put.
  destruct (idb w) as [| |d] eqn:Ew; try done.
  destruct (store_mode st); [done|].
  destruct (key_of (keyPath (store_name st)) r) as [k|] eqn:Ek; [|done].
  intros d' [= <-]. specialize (Hw d). unfold database_of in Hw.
  rewrite Ew in Hw. specialize (Hw eq_refl).
  destruct (store_name st); simpl; try done.
  by apply ascending_put_row.
Qed.

Lemma keeps_store_delete (st : objectStore) (k : value) :
  keeps_wf (store_delete st k).
Proof.
  intros w Hw. unfold store_delete.
  destruct (idb w) as [| |d] eqn:Ew; try done.
  destruct (store_mode st); [done|].
  destruct (to_key k) as [k'|]; [|done].
  intros d' [= <-]. specialize (Hw d). unfold database_of in Hw.
  rewrite Ew in Hw. specialize (Hw eq_refl).
  destruct (store_name st); simpl; try done.
  by apply ascending_delete_row.
Qed.

Lemma keeps_openDB : keeps_wf openDB.
Proof.
  intros w Hw. unfold Db.openDB.
  destruct (idb w) as [|d|d] eqn:Ew.
  - by intros d' [= <-].
  - intros d' [= <-]. apply Hw. unfold database_of. by rewrite Ew.
  - intros d' [= <-]. apply Hw. unfold database_of. by rewrite Ew.
Qed.

Create HintDb keeps.
Hint Resolve keeps_ret keeps_throw keeps_tx keeps_store_get
  keeps_store_getAll keeps_Date_now keeps_Number keeps_new_id
  keeps_createObjectURL
  keeps_modify_localStorage keeps_get_world keeps_store_put
  keeps_store_delete keeps_openDB keeps_fmap : keeps.

Ltac keeps :=
  repeat first
    [ apply keeps_bind; [|intros ?]
    | match goal with
      | |- keeps_wf (match ?x with _ => _ end) => destruct x
      | |- keeps_wf (let _ := _ in _) => cbv zeta
      end
    | solve [auto with keeps] ].

Lemma keeps_getMediaUrl (id : value) : keeps_wf (getMediaUrl id).
Proof. unfold getMediaUrl. keeps. Qed.

Lemma keeps_saveMedia (f : file) : keeps_wf (saveMedia f).
Proof. unfold Db.saveMedia. keeps. Qed.

Lemma keeps_getBusinessInfo : keeps_wf getBusinessInfo.
Proof. unfold getBusinessInfo. keeps. Qed.

Lemma keeps_setBusinessInfo (info : value) : keeps_wf (setBusinessInfo info).
Proof. unfold setBusinessInfo. keeps. Qed.

Hint Resolve keeps_getMediaUrl keeps_saveMedia keeps_getBusinessInfo
  keeps_setBusinessInfo : keeps.

(** Every call through [window.VKM] keeps the products store well
    formed. *)
Lemma VKM_keeps_wf (c : call) (w : world) :
  products_wf w → products_wf (VKM c w).
Proof.
  revert w. change (∀ w, products_wf w → products_wf (VKM c w)).
  destruct c; simpl.
  - change (keeps_wf init). unfold Db.init. keeps.
  - apply keeps_saveMedia.
  - apply keeps_getMediaUrl.
  - change (keeps_wf (setLogo f)). unfold Db.setLogo. keeps.
  - change (keeps_wf getLogoUrl). unfold getLogoUrl. keeps.
  - change (keeps_wf (addProduct p)). unfold Db.addProduct. keeps.
  - change (keeps_wf (updateProduct id updates)).
    unfold Db.updateProduct. keeps.
  - change (keeps_wf (deleteProduct id)). unfold deleteProduct. keeps.
  - change (keeps_wf (listProducts filter)).
    unfold Db.listProducts. keeps.
  - apply keeps_setBusinessInfo.
  - apply keeps_getBusinessInfo.
  - change (keeps_wf (loginOwner username password)).
    unfold loginOwner. keeps.
  - change (keeps_wf logoutOwner). unfold logoutOwner. keeps.
Qed.


(** Every world reached by calls through the API, from a page that has
    never opened the database, has a well-formed products store. *)
Lemma reachable_products_wf (calls : list call) :
  products_wf (foldl (λ w c, VKM c w) fresh_world calls).
Proof.
  assert (H0 : products_wf fresh_world) by by intros d.
  revert H0. generalize fresh_world.
  induction calls as [|c calls IH]; intros w Hw; simpl; [done|].
  apply IH. by apply VKM_keeps_wf.
Qed.


Lemma store_ok_unique (kp : string) (rows : list obj) :
  store_ok kp rows →
  NoDup (key_of kp <$> rows) ∧ Forall (λ r, is_Some (key_of kp r)) rows.
Proof.
  intros Hok. split; [by eapply ascending_NoDup|].
  apply ascending_Forall in Hok. eapply Forall_impl; [done|].
  simpl. intros r (k & -> & _). by eexists.
Qed.

(** C10: after every call through the API the products store is well
    formed, so no two stored products have the same id and every stored
    product has one.  [addProduct] with a supplied id that a stored
    product already has (and a price that converts) resolves with the
    record built from its input, and replaces the stored product by it
    where it stood: afterwards the id leads to the new record, which is
    the only record with that id; the sequence of stored ids is unchanged
    and every other id leads to the record it led to before. *)
Theorem product_ids_stay_unique (c : call) (w : world) :
  products_wf w →
  (∀ d', database_of (VKM c w) = Some d' →
         store_ok products_keyPath (products d')
         ∧ NoDup (key_of products_keyPath <$> products d')
         ∧ Forall (λ r, is_Some (key_of products_keyPath r)) (products d'))
  ∧ (∀ d p k n,
       idb w = Open d →
       get_prop "id" p = of_key k → truthy (of_key k) = true →
       price_of p = Some n →
       is_Some (get_row products_keyPath k (products d)) →
       ∃ r d',
         addProduct p w = (Resolved r, set_idb (Open d') (tick (tick w)))
         ∧ r = product_record (of_key k) p (VNum n) (stock_of p)
                 (clock (now_calls w)) (clock (S (now_calls w)))
         ∧ get_prop "name" r = get_prop "name" p
         ∧ get_row products_keyPath k (products d') = Some r
         ∧ List.filter (has_key products_keyPath k) (products d') = [r]
         ∧ key_of products_keyPath <$> products d'
           = key_of products_keyPath <$> products d
         ∧ (∀ k', k' ≠ k →
                  get_row products_keyPath k' (products d')
                  = get_row products_keyPath k' (products d))).
Proof.
  intros Hwf. split.
  - intros d' Hd'. pose proof (VKM_keeps_wf c w Hwf d' Hd') as Hok.
    split; [done|]. by apply store_ok_unique.
  - intros d p k n Hw Hid Ht Hn Hold.
    pose proof (addProduct_run p w d Hw) as Hrun. cbv zeta in Hrun.
    assert (Hpid : product_id p w = of_key k).
    { unfold Db.product_id. by rewrite Hid, Ht. }
    assert (Haft : after_product_id p w = w).
    { unfold Db.after_product_id. by rewrite Hid, Ht. }
    rewrite Hn, Hpid, Haft, to_key_of_key in Hrun.
    set (r := product_record _ _ _ _ _ _) in *.
    assert (Hk : key_of products_keyPath r = Some k).
    { change (key_of products_keyPath r) with (to_key (of_key k)).
      apply to_key_of_key. }
    assert (Hok : store_ok products_keyPath (products d)).
    { apply (Hwf d). unfold database_of. by rewrite Hw. }
    eexists r, _. split; [exact Hrun|].
    split_and!; [reflexivity|reflexivity|..].
    + simpl. by apply get_row_put_eq.
    + simpl. by eapply put_row_unique.
    + simpl. by eapply put_row_in_place.
    + intros k' Hne. simpl. by apply get_row_put_ne.
Qed.


End Properties.

(** ** The API on the example shop *)

(** Closes an equation between closed terms by evaluating both sides. *)
Ltac by_evaluation :=
  match goal with
  | |- ?a = ?b => vm_cast_no_check (@eq_refl _ b)
  end.

(** A property of every element of a list, decided element by element. *)
Lemma Forall_bool_decide {A} (P : A → Prop) `{!∀ x, Decision (P x)}
    (l : list A) :
  forallb (λ x, bool_decide (P x)) l = true → Forall P l.
Proof.
  induction l as [|x l IH]; simpl; [constructor|].
  intros [Hx Hl]%andb_true_iff.
  constructor; [by apply bool_decide_eq_true in Hx|auto].
Qed.

Lemma Exists_bool_decide {A} (P : A → Prop) `{!∀ x, Decision (P x)}
    (l : list A) :
  existsb (λ x, bool_decide (P x)) l = true → Exists P l.
Proof.
  induction l as [|x l IH]; simpl; [done|].
  intros [Hx|Hl]%orb_true_iff.
  - apply Exists_cons_hd. by apply bool_decide_eq_true in Hx.
  - apply Exists_cons_tl. auto.
Qed.

(** Checks a property of every record of a store of the examples. *)
Ltac by_checking_each :=
  unfold createdAt_converts;
  match goal with
  | |- Forall ?P ?l => apply (Forall_bool_decide P l); by_evaluation
  end.

(** Two values that [===] tells apart are different. *)
Lemma strict_eq_false_neq (a b : value) :
  strict_eq a a = true → strict_eq a b = false → a ≠ b.
Proof. intros Ha Hb <-. congruence. Qed.

(** C2: the code at the input [{name: "Pen", price: "12", stock: "5"}].
    The price "12" is converted to the number 12, but the stock "5" is not
    converted to 5: [Number.isFinite] answers [false] for a string, so the
    [Number(p.stock)] beside it is never reached, and the record stored
    and listed has stock 0.  And [createdAt] and [updatedAt] are two
    readings of the clock, not one: on a clock that moves between them
    they differ. *)
Theorem addProduct_on_pen_input :
  addProduct frozen_clock (Some example_uuid) decimal_StringToNumber
    pen_input opened_world = (Resolved pen_record, example_shop)
  ∧ result_of (listProducts decimal_StringToNumber ∅ example_shop)
    = Resolved [pen_record]
  ∧ get_prop "price" pen_input = VStr "12"
  ∧ get_prop "price" pen_record = VNum (num_of_Z 12)
  ∧ get_prop "stock" pen_input = VStr "5"
  ∧ ToNumber decimal_StringToNumber (get_prop "stock" pen_input)
    = Some (num_of_Z 5)
  ∧ get_prop "stock" pen_record = VNum (num_of_Z 0)
  ∧ get_prop "stock" pen_record ≠ VNum (num_of_Z 5)
  ∧ get_prop "createdAt" ticking_pen_record = VNum (num_of_Z 1700000000001)
  ∧ get_prop "updatedAt" ticking_pen_record = VNum (num_of_Z 1700000000002)
  ∧ get_prop "createdAt" ticking_pen_record
    ≠ get_prop "updatedAt" ticking_pen_record.
Proof.
  split_and!; try by_evaluation;
    apply strict_eq_false_neq; by_evaluation.
Qed.

(** C4 fails as stated: an [id] and a [createdAt] in [partialUpdates]
    replace those of the stored record; the merged record is stored under
    the new id and the old record stays under the old one. *)
Lemma updateProduct_overwrites_id_and_createdAt :
  get_row products_keyPath (KStr "uuid-0")
    (products (the_database example_shop)) = Some pen_record
  ∧ updateProduct frozen_clock (VStr "uuid-0") move_update example_shop
    = (Resolved moved_record, moved_shop)
  ∧ get_prop "id" pen_record = VStr "uuid-0"
  ∧ get_prop "id" moved_record = VStr "other"
  ∧ get_prop "createdAt" pen_record = VNum (num_of_Z 1700000000000)
  ∧ get_prop "createdAt" moved_record = VNum (num_of_Z 5)
  ∧ get_prop "id" moved_record ≠ get_prop "id" pen_record
  ∧ get_prop "createdAt" moved_record ≠ get_prop "createdAt" pen_record
  ∧ get_row products_keyPath (KStr "uuid-0")
      (products (the_database moved_shop)) = Some pen_record
  ∧ get_row products_keyPath (KStr "other")
      (products (the_database moved_shop)) = Some moved_record.
Proof.
  split_and!; try by_evaluation;
    apply strict_eq_false_neq; by_evaluation.
Qed.

(** C5 fails as stated: an update in the millisecond of the creation gives
    an [updatedAt] equal to [createdAt], not greater. *)
Lemma updateProduct_same_millisecond :
  result_of (updateProduct frozen_clock (VStr "uuid-0")
               {[ "price" := VNum (num_of_Z 15) ]} example_shop)
  = Resolved repriced_record
  ∧ get_prop "price" repriced_record = VNum (num_of_Z 15)
  ∧ get_prop "createdAt" repriced_record = VNum (num_of_Z 1700000000000)
  ∧ get_prop "updatedAt" repriced_record = VNum (num_of_Z 1700000000000)
  ∧ ¬ updated_after_created repriced_record.
Proof.
  assert (E1 : get_prop "createdAt" repriced_record
               = VNum (num_of_Z 1700000000000)) by by_evaluation.
  assert (E2 : get_prop "updatedAt" repriced_record
               = VNum (num_of_Z 1700000000000)) by by_evaluation.
  split_and!; try by_evaluation.
  unfold updated_after_created, created, updated. rewrite E1, E2.
  unfold num_of_Z. cbv beta iota. apply Qcle_not_lt, Qcle_refl.
Qed.

(** C6 fails as stated: with the empty string as category the filter is
    off, and a product of category "Stationery" is listed. *)
Lemma listProducts_empty_category_lists_all :
  result_of (listProducts decimal_StringToNumber
               {[ "category" := VStr "" ]} example_shop)
  = Resolved [pen_record]
  ∧ get_prop "category" pen_record = VStr "Stationery"
  ∧ get_prop "category" pen_record ≠ VStr "".
Proof.
  split_and!; try by_evaluation.
  apply strict_eq_false_neq; by_evaluation.
Qed.

(** ** The theorems at work on the example shop *)

(** An open connection is a connection to the database of the world. *)
Lemma open_the_database (w : world) :
  db_is_set w = true → idb w = Open (the_database w).
Proof. unfold db_is_set, the_database. by destruct (idb w). Qed.

Lemma database_of_open (w : world) :
  db_is_set w = true → database_of w = Some (the_database w).
Proof. unfold db_is_set, database_of, the_database. by destruct (idb w). Qed.

Lemma opened_world_open : idb opened_world = Open (the_database opened_world).
Proof. apply open_the_database. by_evaluation. Defined.

Lemma example_shop_open : idb example_shop = Open (the_database example_shop).
Proof. apply open_the_database. by_evaluation. Defined.

Lemma example_shop_pen :
  get_row products_keyPath (KStr "uuid-0")
    (products (the_database example_shop)) = Some pen_record.
Proof. by_evaluation. Defined.

Lemma loginOwner_iff_owner_credentials_witness :
  idb opened_world = Open (the_database opened_world)
  ∧ ∃ ok,
      result_of (loginOwner (VStr "VKM2009") (VStr "VKM1998") opened_world)
      = Resolved ok
      ∧ (ok = true →
         isOwner (world_of (loginOwner (VStr "VKM2009") (VStr "VKM1998")
                              opened_world)) = true).
Proof.
  split; [exact opened_world_open|].
  destruct (loginOwner_iff_owner_credentials "VKM2009" "VKM1998" opened_world
              (the_database opened_world) opened_world_open)
    as [(ok & Hok & _ & Hin & _) _].
  exists ok. split; assumption.
Defined.

Lemma stocked_shop_open : idb stocked_shop = Open (the_database stocked_shop).
Proof. apply open_the_database. by_evaluation. Defined.

Lemma stocked_shop_converts :
  createdAt_converts decimal_StringToNumber
    (products (the_database stocked_shop)).
Proof. by_checking_each. Defined.

Lemma stocked_shop_created :
  Forall (λ r, is_Some (created r)) (products (the_database stocked_shop)).
Proof. by_checking_each. Defined.

Lemma pen_price :
  price_of decimal_StringToNumber pen_input = Some (num_of_Z 12).
Proof. by_evaluation. Defined.

Lemma stocked_shop_ok :
  store_ok products_keyPath (products (the_database stocked_shop)).
Proof. unfold store_ok. by_evaluation. Defined.


Lemma updateProduct_missing_rejects_witness :
  idb opened_world = Open (the_database opened_world)
  ∧ get_row products_keyPath (KStr "nope")
      (products (the_database opened_world)) = None
  ∧ updateProduct frozen_clock (VStr "nope")
      {[ "price" := VNum (num_of_Z 15) ]} opened_world
    = (Rejected not_found, opened_world).
Proof.
  assert (Hnone : get_row products_keyPath (KStr "nope")
                    (products (the_database opened_world)) = None)
    by by_evaluation.
  split; [exact opened_world_open|]. split; [exact Hnone|].
  exact (updateProduct_missing_rejects frozen_clock (KStr "nope")
           {[ "price" := VNum (num_of_Z 15) ]} opened_world
           (the_database opened_world) opened_world_open Hnone).
Defined.

Lemma updateProduct_keeps_id_createdAt_unless_supplied_witness :
  idb example_shop = Open (the_database example_shop)
  ∧ get_row products_keyPath (KStr "uuid-0")
      (products (the_database example_shop)) = Some pen_record
  ∧ ∃ next d',
      updateProduct frozen_clock (VStr "uuid-0")
        {[ "stock" := VNum (num_of_Z 7) ]} example_shop
      = (Resolved next, set_idb (Open d') (tick example_shop))
      ∧ get_prop "id" next = get_prop "id" pen_record
      ∧ get_prop "createdAt" next = get_prop "createdAt" pen_record.
Proof.
  split; [exact example_shop_open|]. split; [exact example_shop_pen|].
  destruct (updateProduct_keeps_id_createdAt_unless_supplied frozen_clock
              (KStr "uuid-0") {[ "stock" := VNum (num_of_Z 7) ]} example_shop
              (the_database example_shop) pen_record
              example_shop_open example_shop_pen) as [Hkeep _].
  destruct Hkeep as (next & d' & Hrun & Hid & Hcr & _);
    [by_evaluation|by_evaluation|].
  exists next, d'. split; [exact Hrun|]. split; assumption.
Defined.

Lemma updateProduct_price_only_witness :
  idb example_shop = Open (the_database example_shop)
  ∧ get_row products_keyPath (KStr "uuid-0")
      (products (the_database example_shop)) = Some pen_record
  ∧ ∃ next d',
      updateProduct frozen_clock (VStr "uuid-0")
        {[ "price" := VNum (num_of_Z 15) ]} example_shop
      = (Resolved next, set_idb (Open d') (tick example_shop))
      ∧ get_prop "price" next = VNum (num_of_Z 15)
      ∧ next !! "name" = pen_record !! "name".
Proof.
  split; [exact example_shop_open|]. split; [exact example_shop_pen|].
  destruct (updateProduct_price_only frozen_clock (KStr "uuid-0")
              (VNum (num_of_Z 15)) example_shop (the_database example_shop)
              pen_record example_shop_open example_shop_pen)
    as (next & d' & Hrun & _ & Hprice & Hother & _).
  exists next, d'. split; [exact Hrun|]. split; [exact Hprice|].
  apply Hother; discriminate.
Defined.

Lemma listProducts_by_category_witness :
  idb stocked_shop = Open (the_database stocked_shop)
  ∧ createdAt_converts decimal_StringToNumber
      (products (the_database stocked_shop))
  ∧ "Furniture" ≠ ""
  ∧ ∃ l,
      listProducts decimal_StringToNumber
        {[ "category" := VStr "Furniture" ]} stocked_shop
      = (Resolved l, stocked_shop)
      ∧ (∀ p, p ∈ l ↔ p ∈ products (the_database stocked_shop)
                       ∧ get_prop "category" p = VStr "Furniture")
      ∧ newest_first l
      ∧ get_prop "id" <$> l = [VStr "d"; VStr "a"].
Proof.
  assert (Hne : "Furniture" ≠ "") by discriminate.
  split; [exact stocked_shop_open|]. split; [exact stocked_shop_converts|].
  split; [exact Hne|].
  destruct (listProducts_by_category decimal_StringToNumber stocked_shop
              (the_database stocked_shop) stocked_shop_open
              stocked_shop_converts) as [Hcat _].
  destruct (Hcat "Furniture" Hne) as (l & Hrun & _ & Hin & Hsorted).
  exists l. split; [exact Hrun|]. split; [exact Hin|].
  split; [exact (Hsorted stocked_shop_created)|].
  assert (Hl : resolved_or [] (listProducts decimal_StringToNumber
                                 {[ "category" := VStr "Furniture" ]}
                                 stocked_shop) = l)
    by (by rewrite Hrun).
  rewrite <- Hl. by_evaluation.
Defined.

Lemma deleteProduct_idempotent_witness :
  idb stocked_shop = Open (the_database stocked_shop)
  ∧ result_of (deleteProduct (VStr "a") stocked_shop) = Resolved tt
  ∧ (∃ l, result_of (listProducts decimal_StringToNumber ∅
                       (world_of (deleteProduct (VStr "a") stocked_shop)))
          = Resolved l
          ∧ Forall (λ r, key_of products_keyPath r ≠ Some (KStr "a")) l
          ∧ get_prop "id" <$> l = [VStr "c"; VStr "d"; VStr "b"])
  ∧ world_of (deleteProduct (VStr "a")
                (world_of (deleteProduct (VStr "a") stocked_shop)))
    = world_of (deleteProduct (VStr "a") stocked_shop).
Proof.
  split; [exact stocked_shop_open|].
  destruct (deleteProduct_idempotent decimal_StringToNumber (KStr "a")
              stocked_shop (the_database stocked_shop) stocked_shop_open)
    as (H1 & _ & _ & _ & Hlist & H2).
  split; [exact H1|]. split; [|exact H2].
  destruct (Hlist stocked_shop_converts) as (l & Hl & Hnone).
  exists l. split; [exact Hl|]. split; [exact Hnone|].
  assert (Hl' : resolved_or [] (listProducts decimal_StringToNumber ∅
                                  (world_of (deleteProduct (VStr "a")
                                               stocked_shop))) = l).
  { exact (f_equal (λ o, match o with
                         | Resolved a => a
                         | Rejected _ => []
                         end) Hl). }
  rewrite <- Hl'. by_evaluation.
Defined.

Lemma init_twice_is_init_once_witness :
  database_of reloaded_world = Some (the_database opened_world)
  ∧ truthy (business_of (the_database opened_world)) = true
  ∧ init frozen_clock reloaded_world
    = (Resolved true,
       set_idb (Open (the_database opened_world)) reloaded_world).
Proof.
  assert (Hd : database_of reloaded_world = Some (the_database opened_world))
    by reflexivity.
  assert (Ht : truthy (business_of (the_database opened_world)) = true)
    by by_evaluation.
  split; [exact Hd|]. split; [exact Ht|].
  destruct (init_twice_is_init_once frozen_clock reloaded_world) as [_ Hno].
  exact (Hno (the_database opened_world) Hd Ht).
Defined.

Lemma setLogo_then_getLogoUrl_witness :
  idb opened_world = Open (the_database opened_world)
  ∧ ∃ url,
      result_of (getLogoUrl
                   (world_of (setLogo frozen_clock (Some example_uuid)
                                logo_file opened_world)))
      = Resolved (VStr url).
Proof.
  split; [exact opened_world_open|].
  destruct (setLogo_then_getLogoUrl frozen_clock (Some example_uuid) logo_file
              opened_world (the_database opened_world) opened_world_open)
    as [(url & Hurl & _) _].
  exists url. exact Hurl.
Defined.

Lemma pencil_price :
  price_of decimal_StringToNumber pencil_input = Some (num_of_Z 3).
Proof. by_evaluation. Defined.

Lemma is_Some_check {A} (o : option A) :
  bool_decide (is_Some o) = true → is_Some o.
Proof. apply bool_decide_eq_true. Qed.

Lemma product_ids_stay_unique_witness :
  products_wf stocked_shop
  ∧ idb stocked_shop = Open (the_database stocked_shop)
  ∧ get_prop "id" pencil_input = of_key (KStr "b")
  ∧ truthy (of_key (KStr "b")) = true
  ∧ price_of decimal_StringToNumber pencil_input = Some (num_of_Z 3)
  ∧ is_Some (get_row products_keyPath (KStr "b")
               (products (the_database stocked_shop)))
  ∧ (∀ d',
       database_of (VKM slow_clock (Some example_uuid)
                      decimal_StringToNumber (CallAddProduct pencil_input)
                      stocked_shop) = Some d' →
       NoDup (key_of products_keyPath <$> products d'))
  ∧ ∃ r d',
      addProduct slow_clock (Some example_uuid) decimal_StringToNumber
        pencil_input stocked_shop
      = (Resolved r, set_idb (Open d') (tick (tick stocked_shop)))
      ∧ get_prop "name" r = VStr "Pencil"
      ∧ get_row products_keyPath (KStr "b") (products d') = Some r
      ∧ List.filter (has_key products_keyPath (KStr "b")) (products d') = [r]
      ∧ key_of products_keyPath <$> products d'
        = key_of products_keyPath <$> products (the_database stocked_shop)
      ∧ get_prop "name" <$> products d'
        = [VStr "Item a"; VStr "Pencil"; VStr "Item c"; VStr "Item d"].
Proof.
  assert (Hwf : products_wf stocked_shop).
  { intros d Hd.
    assert (Hd' : database_of stocked_shop = Some (the_database stocked_shop))
      by (apply database_of_open; by_evaluation).
    rewrite Hd' in Hd. injection Hd as <-. exact stocked_shop_ok. }
  assert (Hid : get_prop "id" pencil_input = of_key (KStr "b"))
    by by_evaluation.
  assert (Hold : is_Some (get_row products_keyPath (KStr "b")
                            (products (the_database stocked_shop))))
    by (apply is_Some_check; by_evaluation).
  split; [exact Hwf|]. split; [exact stocked_shop_open|].
  split; [exact Hid|]. split; [reflexivity|]. split; [exact pencil_price|].
  split; [exact Hold|].
  destruct (product_ids_stay_unique slow_clock (Some example_uuid)
              decimal_StringToNumber (CallAddProduct pencil_input)
              stocked_shop Hwf) as [Hall Hupsert].
  split.
  - intros d' Hd'. destruct (Hall d' Hd') as (_ & Hnodup & _). exact Hnodup.
  - destruct (Hupsert (the_database stocked_shop) pencil_input
                (KStr "b") (num_of_Z 3) stocked_shop_open Hid
                eq_refl pencil_price Hold)
      as (r & d' & Hrun & _ & Hname & Hget & Honly & Hkeys & _).
    exists r, d'. split; [exact Hrun|]. split; [rewrite Hname; by_evaluation|].
    split; [exact Hget|]. split; [exact Honly|]. split; [exact Hkeys|].
    assert (Hd' : the_database
                    (world_of (addProduct slow_clock (Some example_uuid)
                                 decimal_StringToNumber pencil_input
                                 stocked_shop)) = d')
      by (by rewrite Hrun).
    rewrite <- Hd'. by_evaluation.
Defined.

(** ** Further evaluations *)

(** The seeded credentials log the owner in; a wrong password does not, and
    leaves the session as it was; logging out ends the session. *)
Example login_logout_on_the_seeded_account :
  let good := loginOwner (VStr "VKM2009") (VStr "VKM1998") opened_world in
  let bad := loginOwner (VStr "VKM2009") (VStr "vkm1998") (world_of good) in
  isOwner opened_world = false
  ∧ result_of good = Resolved true
  ∧ isOwner (world_of good) = true
  ∧ result_of bad = Resolved false
  ∧ isOwner (world_of bad) = true
  ∧ isOwner (world_of (logoutOwner (world_of bad))) = false.
Proof. cbv zeta. split_and!; by_evaluation. Qed.

(** The order of keys: numbers before strings; strings by code unit, so
    that U+FF5E comes after U+1F600 (whose first code unit is D83D) though
    its first byte is the smaller, and "Z" before "a" before "é". *)
Example key_order :
  key_compare (KFin (timestamp 7)) (KStr "") = Lt
  ∧ key_compare (KInf false) (KStr "") = Lt
  ∧ key_compare (KStr "Z") (KStr "a") = Lt
  ∧ key_compare (KStr "a") (KStr "ab") = Lt
  ∧ key_compare (KStr "a") (KStr (string_of_bytes [195; 169]%N)) = Lt
  ∧ key_compare (KStr fullwidth_tilde) (KStr grinning_face) = Gt
  ∧ String.compare fullwidth_tilde grinning_face = Lt.
Proof. split_and!; by_evaluation. Qed.

(** Before [init] has run, [db] is undefined and a call rejects. *)
Example listProducts_before_init :
  listProducts decimal_StringToNumber ∅ fresh_world
  = (Rejected db_undefined, fresh_world).
Proof. by_evaluation. Qed.

(** A value that is not a valid key makes the request reject. *)
Example deleteProduct_invalid_key :
  deleteProduct VUndef example_shop = (Rejected DataError, example_shop).
Proof. by_evaluation. Qed.

(** Newest first: a product added later on a ticking clock is listed
    before the pen. *)
Example listProducts_newest_first :
  let w := world_of (addProduct ticking_clock (Some example_uuid)
                       decimal_StringToNumber
                       {[ "name" := VStr "Chair"; "category" := VStr "Furniture" ]}
                       example_shop) in
  get_prop "name" <$> resolved_or [] (listProducts decimal_StringToNumber ∅ w)
  = [VStr "Chair"; VStr "Pen"]
  ∧ get_prop "name" <$>
      resolved_or [] (listProducts decimal_StringToNumber
                        {[ "category" := VStr "Furniture" ]} w)
    = [VStr "Chair"].
Proof. cbv zeta. split; by_evaluation. Qed.

(** The stocked shop: [getAll] returns the products by id; a listing puts
    the newer pair first and keeps each pair in the order of the ids; the
    filter leaves out the other category. *)
Example listProducts_on_the_stocked_shop :
  get_prop "id" <$> products (the_database stocked_shop)
  = [VStr "a"; VStr "b"; VStr "c"; VStr "d"]
  ∧ created <$> products (the_database stocked_shop)
    = [Some (timestamp 1700000000000); Some (timestamp 1700000000000);
       Some (timestamp 1700000000001); Some (timestamp 1700000000001)]
  ∧ listed_ids (listProducts decimal_StringToNumber ∅ stocked_shop)
    = [VStr "c"; VStr "d"; VStr "a"; VStr "b"]
  ∧ listed_ids (listProducts decimal_StringToNumber
                  {[ "category" := VStr "Furniture" ]} stocked_shop)
    = [VStr "d"; VStr "a"]
  ∧ listed_ids (listProducts decimal_StringToNumber
                  {[ "category" := VStr "Stationery" ]} stocked_shop)
    = [VStr "c"; VStr "b"].
Proof. split_and!; by_evaluation. Qed.

(** A [createdAt] that does not convert makes the comparator throw, once
    there is something to compare it with: the listing of all products
    and of the furniture rejects, the listing of the stationery, which
    product a is not part of, resolves. *)
Example listProducts_on_the_undated_shop :
  result_of (listProducts decimal_StringToNumber ∅ undated_shop)
  = Rejected cannot_convert
  ∧ result_of (listProducts decimal_StringToNumber
                 {[ "category" := VStr "Furniture" ]} undated_shop)
    = Rejected cannot_convert
  ∧ listed_ids (listProducts decimal_StringToNumber
                  {[ "category" := VStr "Stationery" ]} undated_shop)
    = [VStr "c"; VStr "b"].
Proof. split_and!; by_evaluation. Qed.

(** A price that does not convert makes [addProduct] reject before it
    reads the clock or asks for a transaction. *)
Example addProduct_unpriced_input :
  addProduct frozen_clock (Some example_uuid) decimal_StringToNumber
    unpriced_input example_shop
  = (Rejected cannot_convert, next_uuid example_shop)
  ∧ result_of (addProduct frozen_clock (Some example_uuid)
                 decimal_StringToNumber unpriced_input fresh_world)
    = Rejected cannot_convert.
Proof. split; by_evaluation. Qed.

(** ** Beyond the claims: what the calls leave alone *)

Section Frames.
Context (R : relation world).
Hypothesis R_refl : ∀ w, R w w.
Hypothesis R_trans : ∀ a b c, R a b → R b c → R a c.

Lemma frames_ret {A} (a : A) : frames R (mret a : M A).
Proof using R_refl. intros w. apply R_refl. Qed.

Lemma frames_throw {A} (e : error) : frames R (throw e : M A).
Proof using R_refl. intros w. apply R_refl. Qed.

Lemma frames_get_world : frames R get_world.
Proof using R_refl. intros w. apply R_refl. Qed.

Lemma frames_bind {A B} (m : M A) (f : A → M B) :
  frames R m → (∀ a, frames R (f a)) → frames R (m ≫= f).
Proof using R_trans.
  intros Hm Hf w. rewrite bind_run. specialize (Hm w).
  destruct (m w) as [[a|e] w']; simpl in *; [|done].
  eapply R_trans; [exact Hm|apply Hf].
Qed.

Lemma frames_fmap {A B} (g : A → B) (m : M A) :
  frames R m → frames R (g <$> m).
Proof.
  intros Hm w. specialize (Hm w). unfold fmap, M_fmap.
  by destruct (m w) as [[a|e] w'].
Qed.

(** A transaction hands over exactly the store asked for. *)
Lemma frames_tx_bind {B} (s : storeName) (mode : txMode)
    (f : objectStore → M B) :
  frames R (f (ObjectStore s mode)) → frames R (tx s mode ≫= f).
Proof using R_refl.
  intros Hf w. rewrite bind_run. unfold tx.
  destruct (idb w); simpl; try apply R_refl. apply Hf.
Qed.

Lemma frames_store_get (st : objectStore) (k : value) :
  frames R (store_get st k).
Proof using R_refl.
  intros w. unfold store_get. destruct (idb w); simpl; try apply R_refl.
  destruct (to_key k); apply R_refl.
Qed.

Lemma frames_store_getAll (st : objectStore) : frames R (store_getAll st).
Proof using R_refl.
  intros w. unfold store_getAll. destruct (idb w); apply R_refl.
Qed.

End Frames.

Lemma same_rows_refl (s : storeName) (w : world) : same_rows s w w.
Proof. intros d Hd. by exists d. Qed.

Lemma same_rows_trans (s : storeName) (a b c : world) :
  same_rows s a b → same_rows s b c → same_rows s a c.
Proof.
  intros Hab Hbc d Hd. destruct (Hab d Hd) as (d1 & Hd1 & E1).
  destruct (Hbc d1 Hd1) as (d2 & Hd2 & E2). exists d2. split; [done|].
  congruence.
Qed.

Lemma same_rows_same_idb (s : storeName) (w w' : world) :
  idb w' = idb w → same_rows s w w'.
Proof.
  intros E d Hd. exists d. unfold database_of in *. by rewrite E.
Qed.

Lemma rows_of_set_rows_ne (s s' : storeName) (rows : list obj) (d : database) :
  s ≠ s' → rows_of s' (set_rows s rows d) = rows_of s' d.
Proof. by destruct s, s'. Qed.

Lemma same_rows_store_put (s : storeName) (st : objectStore) (r : obj) :
  store_name st ≠ s → frames (same_rows s) (store_put st r).
Proof.
  intros Hne w. unfold store_put.
  destruct (idb w) as [| |d] eqn:Ew; try apply same_rows_refl.
  destruct (store_mode st); [apply same_rows_refl|].
  destruct (key_of _ r); [|apply same_rows_refl].
  intros d0 Hd0. unfold database_of in Hd0. rewrite Ew in Hd0.
  injection Hd0 as <-. eexists. split; [reflexivity|].
  by apply rows_of_set_rows_ne.
Qed.

Lemma same_rows_store_delete (s : storeName) (st : objectStore) (k : value) :
  store_name st ≠ s → frames (same_rows s) (store_delete st k).
Proof.
  intros Hne w. unfold store_delete.
  destruct (idb w) as [| |d] eqn:Ew; try apply same_rows_refl.
  destruct (store_mode st); [apply same_rows_refl|].
  destruct (to_key k); [|apply same_rows_refl].
  intros d0 Hd0. unfold database_of in Hd0. rewrite Ew in Hd0.
  injection Hd0 as <-. eexists. split; [reflexivity|].
  by apply rows_of_set_rows_ne.
Qed.

Lemma same_session_refl (w : world) : same_session w w.
Proof. reflexivity. Qed.

Lemma same_session_trans (a b c : world) :
  same_session a b → same_session b c → same_session a c.
Proof. unfold same_session. congruence. Qed.

Lemma same_session_store_put (st : objectStore) (r : obj) :
  frames same_session (store_put st r).
Proof.
  intros w. unfold store_put, same_session.
  destruct (idb w); try done. destruct (store_mode st); [done|].
  by destruct (key_of _ r).
Qed.

Lemma same_session_store_delete (st : objectStore) (k : value) :
  frames same_session (store_delete st k).
Proof.
  intros w. unfold store_delete, same_session.
  destruct (idb w); try done. destruct (store_mode st); [done|].
  by destruct (to_key k).
Qed.

Lemma media_kept_refl (w : world) : media_kept w w.
Proof. intros d Hd. by exists d. Qed.

Lemma media_kept_trans (a b c : world) :
  media_kept a b → media_kept b c → media_kept a c.
Proof.
  intros Hab Hbc d Hd. destruct (Hab d Hd) as (d1 & Hd1 & K1).
  destruct (Hbc d1 Hd1) as (d2 & Hd2 & K2). exists d2. split; [done|].
  intros k Hk. auto.
Qed.

Lemma media_kept_same_rows (w w' : world) :
  same_rows Media w w' → media_kept w w'.
Proof.
  intros H d Hd. destruct (H d Hd) as (d' & Hd' & E). exists d'.
  split; [done|]. simpl in E. by rewrite E.
Qed.

Lemma media_kept_store_put (st : objectStore) (r : obj) :
  frames media_kept (store_put st r).
Proof.
  destruct (store_name st) eqn:Hm;
    try (intros w; apply media_kept_same_rows, same_rows_store_put;
         congruence).
  intros w. unfold store_put.
  destruct (idb w) as [| |d] eqn:Ew; try apply media_kept_refl.
  destruct (store_mode st); [apply media_kept_refl|].
  destruct (key_of _ r) as [k|] eqn:Ek; [|apply media_kept_refl].
  intros d0 Hd0. unfold database_of in Hd0. rewrite Ew in Hd0.
  injection Hd0 as <-. eexists. split; [reflexivity|].
  intros k' Hk'. rewrite Hm in *. simpl.
  destruct (key_eqb k' k) eqn:E.
  - apply key_eqb_eq in E as ->.
    rewrite (get_row_put_eq _ _ _ _ Ek). by eexists.
  - assert (Hne : k' ≠ k) by (intros ->; by rewrite key_eqb_refl in E).
    by rewrite (get_row_put_ne _ _ _ _ _ Ek Hne).
Qed.

Lemma media_kept_store_delete (st : objectStore) (k : value) :
  store_name st ≠ Media → frames media_kept (store_delete st k).
Proof.
  intros Hm w. apply media_kept_same_rows. by apply same_rows_store_delete.
Qed.

Section MoreProperties.
Context (clock : nat → Z) (randomUUID : option (nat → string))
        (StringToNumber : string → num).

Local Abbreviation Date_now := (Date_now clock).
Local Abbreviation new_id := (new_id clock randomUUID).
Local Abbreviation generated_id := (generated_id clock randomUUID).
Local Abbreviation after_new_id := (after_new_id randomUUID).
Local Abbreviation saveMedia := (saveMedia clock randomUUID).
Local Abbreviation setLogo := (setLogo clock randomUUID).
Local Abbreviation updateProduct := (updateProduct clock).
Local Abbreviation ToNumber := (ToNumber StringToNumber).
Local Abbreviation Number := (Number StringToNumber).
Local Abbreviation price_of := (price_of StringToNumber).
Local Abbreviation by_createdAt_desc := (by_createdAt_desc StringToNumber).
Local Abbreviation product_id := (product_id clock randomUUID).
Local Abbreviation after_product_id := (after_product_id randomUUID).
Local Abbreviation addProduct :=
  (addProduct clock randomUUID StringToNumber).
Local Abbreviation listProducts := (listProducts StringToNumber).
Local Abbreviation openDB := (openDB clock).
Local Abbreviation init := (init clock).
Local Abbreviation VKM := (VKM clock randomUUID StringToNumber).

Lemma Date_now_idb (w : world) : idb (Date_now w).2 = idb w.
Proof. reflexivity. Qed.

Lemma new_id_idb (prefix : string) (w : world) :
  idb (new_id prefix w).2 = idb w.
Proof.
  rewrite (new_id_run clock randomUUID). apply idb_after_new_id.
Qed.

Lemma new_id_session (prefix : string) (w : world) :
  localStorage (new_id prefix w).2 = localStorage w.
Proof.
  rewrite (new_id_run clock randomUUID). apply localStorage_after_new_id.
Qed.

Lemma createObjectURL_idb (blob : value) (w : world) :
  idb (URL_createObjectURL blob w).2 = idb w.
Proof. unfold URL_createObjectURL. by destruct blob. Qed.

Lemma createObjectURL_session (blob : value) (w : world) :
  localStorage (URL_createObjectURL blob w).2 = localStorage w.
Proof. unfold URL_createObjectURL. by destruct blob. Qed.

Lemma same_rows_openDB (s : storeName) : frames (same_rows s) openDB.
Proof.
  intros w d Hd. unfold Db.openDB, database_of in *.
  destruct (idb w) as [|d0|d0] eqn:Ew; [done| |]; injection Hd as <-;
    by exists d0.
Qed.

Lemma same_session_openDB : frames same_session openDB.
Proof.
  intros w. unfold Db.openDB, same_session. by destruct (idb w).
Qed.

(** Steps through a computation, leaving the requests to [leaf]. *)
Ltac frames_with Hr Ht leaf :=
  repeat first
    [ apply (frames_tx_bind _ Hr); cbv beta
    | apply (frames_bind _ Ht); [|intros ?]
    | match goal with
      | |- frames _ (match ?x with _ => _ end) => destruct x
      end
    | progress cbv zeta
    | solve [ apply (frames_ret _ Hr) | apply (frames_throw _ Hr)
            | apply (frames_get_world _ Hr)
            | apply (frames_store_get _ Hr)
            | apply (frames_store_getAll _ Hr)
            | apply frames_fmap; leaf
            | leaf ] ].

Ltac rows_leaf s :=
  first
    [ apply same_rows_openDB
    | apply same_rows_store_put; simpl; discriminate
    | apply same_rows_store_delete; simpl; discriminate
    | intros ?; apply same_rows_same_idb;
      first [ apply Date_now_idb | apply new_id_idb
            | apply createObjectURL_idb | reflexivity ] ].

Ltac unfold_api :=
  unfold Db.init, Db.setLogo, Db.getLogoUrl, Db.saveMedia, Db.getMediaUrl,
    Db.addProduct, Db.updateProduct, Db.deleteProduct, Db.listProducts,
    Db.setBusinessInfo, Db.getBusinessInfo, Db.loginOwner, Db.logoutOwner,
    Db.Number.

(** X1: A call writes only in the stores that [touches] lists for it: the
    records of every other store of an existing database are the same
    after the call, whatever its outcome.  So no call changes the users
    store, and [deleteProduct] leaves the media store as it is. *)
Theorem calls_write_only_their_stores (c : call) (s : storeName) (w : world)
    (d : database) :
  database_of w = Some d →
  touches c s = false →
  ∃ d', database_of (VKM c w) = Some d' ∧ rows_of s d' = rows_of s d.
Proof.
  intros Hd Ht.
  enough (H : same_rows s w (VKM c w)) by exact (H d Hd).
  clear d Hd. revert w.
  destruct c, s; try discriminate Ht; clear Ht; unfold Db.VKM, world_of;
    match goal with
    | |- ∀ w, same_rows ?s w (?m w).2 => change (frames (same_rows s) m)
    end;
    unfold_api;
    match goal with
    | |- frames (same_rows ?s) _ =>
        frames_with (same_rows_refl s) (same_rows_trans s) ltac:(rows_leaf s)
    end.
Qed.

Ltac session_leaf :=
  first
    [ apply same_session_openDB
    | apply same_session_store_put
    | apply same_session_store_delete
    | intros ?; unfold same_session;
      first [ apply new_id_session | apply createObjectURL_session
            | reflexivity ] ].

(** X2: Only [loginOwner] and [logoutOwner] write the session flag: after any
    other call, whatever its outcome, [localStorage] is as before, and so
    is [isOwner()]. *)
Theorem only_login_and_logout_change_the_session (c : call) (w : world) :
  writes_session c = false →
  localStorage (VKM c w) = localStorage w ∧ isOwner (VKM c w) = isOwner w.
Proof.
  intros Hc.
  enough (H : same_session w (VKM c w))
    by (split; [exact H|unfold isOwner; by rewrite H]).
  revert w.
  destruct c; try discriminate Hc; clear Hc; unfold Db.VKM, world_of;
    match goal with
    | |- ∀ w, same_session w (?m w).2 => change (frames same_session m)
    end;
    unfold_api;
    frames_with same_session_refl same_session_trans ltac:(session_leaf).
Qed.

Lemma media_kept_openDB : frames media_kept openDB.
Proof. intros w. apply media_kept_same_rows, same_rows_openDB. Qed.

Ltac media_leaf :=
  first
    [ apply media_kept_openDB
    | apply media_kept_store_put
    | apply media_kept_store_delete; simpl; discriminate
    | intros ?; apply media_kept_same_rows, same_rows_same_idb;
      first [ apply Date_now_idb | apply new_id_idb
            | apply createObjectURL_idb | reflexivity ] ].

(** X3: No call removes a media record: an id stored in the media store is
    still stored there after any call, whatever its outcome. *)
Theorem media_records_are_never_removed (c : call) (w : world) (d : database)
    (k : key) :
  database_of w = Some d →
  is_Some (get_row media_keyPath k (media d)) →
  ∃ d', database_of (VKM c w) = Some d'
        ∧ is_Some (get_row media_keyPath k (media d')).
Proof.
  intros Hd Hk.
  enough (H : media_kept w (VKM c w)).
  { destruct (H d Hd) as (d' & Hd' & Hkept). exists d'. auto. }
  clear d k Hd Hk. revert w.
  destruct c; unfold Db.VKM, world_of;
    match goal with
    | |- ∀ w, media_kept w (?m w).2 => change (frames media_kept m)
    end;
    unfold_api;
    frames_with media_kept_refl media_kept_trans ltac:(media_leaf).
Qed.


(** *** Errors *)

Lemma tx_not_open (s : storeName) (mode : txMode) (w : world) :
  db_is_set w = false → tx s mode w = (Rejected db_undefined, w).
Proof. unfold db_is_set, tx. by destruct (idb w). Qed.

Lemma closed_stays_refl (w : world) : closed_stays w w.
Proof. by left. Qed.

Lemma closed_stays_trans (a b c : world) :
  closed_stays a b → closed_stays b c → closed_stays a c.
Proof.
  intros [Hab|Hab] [Hbc|[d Hbc]]; try by right.
  - left. congruence.
  - right. exists d. congruence.
Qed.

Lemma closed_stays_same_idb (w w' : world) : idb w' = idb w → closed_stays w w'.
Proof. by left. Qed.

Lemma closed_stays_store_put (st : objectStore) (r : obj) :
  frames closed_stays (store_put st r).
Proof.
  intros w. unfold store_put.
  destruct (idb w) as [| |d] eqn:Ew; try by left.
  right. by exists d.
Qed.

Lemma closed_stays_store_delete (st : objectStore) (k : value) :
  frames closed_stays (store_delete st k).
Proof.
  intros w. unfold store_delete.
  destruct (idb w) as [| |d] eqn:Ew; try by left.
  right. by exists d.
Qed.

Ltac closed_leaf :=
  first
    [ apply closed_stays_store_put
    | apply closed_stays_store_delete
    | intros ?; apply closed_stays_same_idb;
      first [ apply Date_now_idb | apply new_id_idb
            | apply createObjectURL_idb | reflexivity ] ].

(** X4: Until [init] has run, [db] is undefined: every call that reaches the
    database rejects with the [TypeError] of [db.transaction], and no call
    but [init] changes the state of the engine.  [addProduct] converts the
    price before it asks for the transaction: where that conversion
    throws, it rejects with the [TypeError] of the conversion instead. *)
Theorem calls_before_init_reject (w : world) :
  db_is_set w = false →
  (∀ c, c ≠ CallInit → idb (VKM c w) = idb w)
  ∧ (∀ f, result_of (saveMedia f w) = Rejected db_undefined)
  ∧ (∀ id, result_of (getMediaUrl id w) = Rejected db_undefined)
  ∧ (∀ f, result_of (setLogo f w) = Rejected db_undefined)
  ∧ result_of (getLogoUrl w) = Rejected db_undefined
  ∧ (∀ p, result_of (addProduct p w)
          = Rejected match price_of p with
                     | Some _ => db_undefined
                     | None => cannot_convert
                     end)
  ∧ (∀ id updates,
       result_of (updateProduct id updates w) = Rejected db_undefined)
  ∧ (∀ id, result_of (deleteProduct id w) = Rejected db_undefined)
  ∧ (∀ filter, result_of (listProducts filter w) = Rejected db_undefined)
  ∧ (∀ info, result_of (setBusinessInfo info w) = Rejected db_undefined)
  ∧ result_of (getBusinessInfo w) = Rejected db_undefined
  ∧ (∀ username password,
       result_of (loginOwner username password w) = Rejected db_undefined).
Proof.
  intros Hw.
  assert (Htick : ∀ w0, db_is_set w0 = false → db_is_set (tick w0) = false)
    by done.
  assert (Hid : ∀ w0, db_is_set w0 = false →
                      db_is_set (after_new_id w0) = false).
  { intros w0. unfold db_is_set. by rewrite idb_after_new_id. }
  assert (Hsave : ∀ f, result_of (saveMedia f w) = Rejected db_undefined).
  { intros f. unfold Db.saveMedia.
    rewrite bind_run, (new_id_run clock randomUUID). cbv beta iota.
    rewrite bind_run, (Date_now_run clock). cbv beta iota zeta.
    rewrite bind_run, tx_not_open; [done|]. by apply Htick, Hid. }
  split_and!.
  - intros c Hc.
    enough (H : closed_stays w (VKM c w)).
    { destruct H as [H|[d H]]; [done|].
      unfold db_is_set in Hw. by rewrite H in Hw. }
    clear Hw Hsave. revert w.
    destruct c; try done; unfold Db.VKM, world_of;
      match goal with
      | |- ∀ w, closed_stays w (?m w).2 => change (frames closed_stays m)
      end;
      unfold_api;
      frames_with closed_stays_refl closed_stays_trans ltac:(closed_leaf).
  - exact Hsave.
  - intros id. unfold getMediaUrl. by rewrite bind_run, tx_not_open.
  - intros f. unfold Db.setLogo. rewrite bind_run.
    specialize (Hsave f). unfold result_of in Hsave.
    destruct (saveMedia f w) as [[a|e] w']; simpl in *; congruence.
  - unfold getLogoUrl. by rewrite bind_run, tx_not_open.
  - intros p.
    rewrite (addProduct_steps clock randomUUID StringToNumber). cbv zeta.
    destruct (price_of p) as [n|]; [|done].
    rewrite bind_run, tx_not_open; [done|]. apply Htick, Htick.
    unfold Db.after_product_id. destruct (truthy _); [done|]. by apply Hid.
  - intros id updates. unfold Db.updateProduct.
    by rewrite bind_run, tx_not_open.
  - intros id. unfold deleteProduct. by rewrite bind_run, tx_not_open.
  - intros filter. unfold Db.listProducts. by rewrite bind_run, tx_not_open.
  - intros info. unfold setBusinessInfo. by rewrite bind_run, tx_not_open.
  - unfold getBusinessInfo. by rewrite bind_run, tx_not_open.
  - intros username password. unfold loginOwner.
    by rewrite bind_run, tx_not_open.
Qed.

Lemma store_get_invalid (st : objectStore) (id : value) (w : world)
    (d : database) :
  idb w = Open d → to_key id = None →
  store_get st id w = (Rejected DataError, w).
Proof. unfold store_get. by intros -> ->. Qed.

Lemma store_delete_invalid (s : storeName) (id : value) (w : world)
    (d : database) :
  idb w = Open d → to_key id = None →
  store_delete (ObjectStore s ReadWrite) id w = (Rejected DataError, w).
Proof. unfold store_delete. intros -> Hk. simpl. by rewrite Hk. Qed.

(** X5: An id or username that is not a valid key (neither a string nor a
    number other than [NaN]: [undefined], [null], a boolean, an object)
    makes the lookup reject with [DataError]; the world is left as it
    was. *)
Theorem invalid_key_rejects (id : value) (w : world) (d : database) :
  idb w = Open d →
  to_key id = None →
  getMediaUrl id w = (Rejected DataError, w)
  ∧ (∀ updates, updateProduct id updates w = (Rejected DataError, w))
  ∧ deleteProduct id w = (Rejected DataError, w)
  ∧ (∀ password, loginOwner id password w = (Rejected DataError, w)).
Proof.
  intros Hw Hk. split_and!.
  - unfold getMediaUrl. rewrite bind_run, (tx_run _ _ _ d Hw). cbv beta iota.
    by rewrite bind_run, (store_get_invalid _ _ _ d Hw Hk).
  - intros updates. unfold Db.updateProduct.
    rewrite bind_run, (tx_run _ _ _ d Hw). cbv beta iota.
    by rewrite bind_run, (store_get_invalid _ _ _ d Hw Hk).
  - unfold deleteProduct. rewrite bind_run, (tx_run _ _ _ d Hw).
    cbv beta iota. by rewrite (store_delete_invalid _ _ _ d Hw Hk).
  - intros password. unfold loginOwner.
    rewrite bind_run, (tx_run _ _ _ d Hw). cbv beta iota.
    by rewrite bind_run, (store_get_invalid _ _ _ d Hw Hk).
Qed.

(** X6: [addProduct] with an id that is truthy but not a valid key ([true], an
    object) rejects and stores nothing: the database is as before.  The
    error is the [DataError] of [put], unless the conversion of the price
    has thrown its [TypeError] before. *)
Theorem addProduct_invalid_id_rejects (p : obj) (w : world) (d : database) :
  idb w = Open d →
  truthy (get_prop "id" p) = true →
  to_key (get_prop "id" p) = None →
  result_of (addProduct p w)
  = Rejected match price_of p with
             | Some _ => DataError
             | None => cannot_convert
             end
  ∧ idb (world_of (addProduct p w)) = Open d.
Proof.
  intros Hw Ht Hk.
  pose proof (addProduct_run clock randomUUID StringToNumber p w d Hw) as Hrun.
  cbv zeta in Hrun.
  assert (Hpid : product_id p w = get_prop "id" p)
    by (unfold Db.product_id; by rewrite Ht).
  assert (Haft : after_product_id p w = w)
    by (unfold Db.after_product_id; by rewrite Ht).
  rewrite Hpid, Hk, Haft in Hrun. rewrite Hrun.
  by destruct (price_of p).
Qed.

(** X7: [updateProduct] whose [partialUpdates] carry an [id] that is not a
    valid key (such as [{id: null}]) rejects with [DataError] after the
    merge, and the stored product is untouched: the database is as
    before. *)
Theorem updateProduct_invalid_new_id_rejects (k : key) (updates : obj)
    (v : value) (w : world) (d : database) (e : obj) :
  idb w = Open d →
  get_row products_keyPath k (products d) = Some e →
  updates !! "id" = Some v →
  to_key v = None →
  result_of (updateProduct (of_key k) updates w) = Rejected DataError
  ∧ idb (world_of (updateProduct (of_key k) updates w)) = Open d.
Proof.
  intros Hw He Hv Hk.
  pose proof (updateProduct_run clock k updates w d e Hw He) as Hrun.
  cbv zeta in Hrun.
  match type of Hrun with
  | context [key_of products_keyPath ?n] =>
      assert (Hkey : key_of products_keyPath n = None)
  end.
  { unfold key_of, get_prop, products_keyPath.
    rewrite lookup_insert_ne by done.
    by rewrite (lookup_union_Some_l _ _ _ _ Hv). }
  rewrite Hkey in Hrun. by rewrite Hrun.
Qed.


(** *** Products: merging, moving, composing *)

Lemma delete_put_row (kp : string) (k : key) (r : obj) (rows : list obj) :
  key_of kp r = Some k → get_row kp k rows = None →
  delete_row kp k (put_row kp k r rows) = rows.
Proof.
  intros Hk. assert (Hr : has_key kp k r = true) by by apply has_key_true.
  induction rows as [|r' rest IH]; simpl.
  - intros _. unfold delete_row. simpl. by rewrite Hr.
  - destruct (has_key kp k r') eqn:Er'; [done|]. intros Hnone.
    assert (Hrest : delete_row kp k (r' :: rest) = r' :: rest).
    { apply delete_row_absent. simpl. by rewrite Er'. }
    destruct (key_of kp r') as [k'|] eqn:Ek'.
    + destruct (key_compare k k') eqn:Ec.
      * apply key_compare_eq in Ec as ->.
        apply has_key_true in Ek'. congruence.
      * unfold delete_row in *. simpl. rewrite Hr. simpl. simpl in Hrest.
        exact Hrest.
      * unfold delete_row in *. simpl. rewrite Er'. simpl.
        f_equal. by apply IH.
    + unfold delete_row in *. simpl. rewrite Er'. simpl.
      f_equal. by apply IH.
Qed.

Lemma put_put_row (kp : string) (k : key) (r1 r2 : obj) (rows : list obj) :
  key_of kp r1 = Some k →
  put_row kp k r2 (put_row kp k r1 rows) = put_row kp k r2 rows.
Proof.
  intros Hk. induction rows as [|r' rest IH]; simpl.
  - by rewrite Hk, key_compare_refl.
  - destruct (key_of kp r') as [k'|] eqn:Ek'.
    + destruct (key_compare k k') eqn:Ec; simpl.
      * by rewrite Hk, key_compare_refl.
      * by rewrite Hk, key_compare_refl.
      * rewrite Ek', Ec. by rewrite IH.
    + simpl. rewrite Ek'. by rewrite IH.
Qed.

(** The merged record of an update. *)
Lemma merged_lookup (updates e : obj) (t : value) (f : string) :
  f ≠ "updatedAt" →
  <["updatedAt" := t]> (updates ∪ e) !! f
  = match updates !! f with
    | Some v => Some v
    | None => e !! f
    end.
Proof.
  intros Hf. rewrite lookup_insert_ne by done.
  rewrite lookup_union. by destruct (updates !! f), (e !! f).
Qed.

(** An update whose merged record has the valid key [k'] stores it under
    [k']. *)
Lemma updateProduct_stores (k k' : key) (updates : obj) (w : world)
    (d : database) (e : obj) :
  idb w = Open d →
  get_row products_keyPath k (products d) = Some e →
  key_of products_keyPath (updates ∪ e) = Some k' →
  let next := <["updatedAt" := VNum (num_of_Z (clock (now_calls w)))]>
                (updates ∪ e) in
  key_of products_keyPath next = Some k'
  ∧ updateProduct (of_key k) updates w
    = (Resolved next,
       set_idb (Open (set_rows Products
                        (put_row products_keyPath k' next (products d)) d))
         (tick w)).
Proof.
  intros Hw He Hk'. cbv zeta.
  pose proof (updateProduct_run clock k updates w d e Hw He) as Hrun.
  cbv zeta in Hrun.
  set (next := <["updatedAt" := VNum (num_of_Z (clock (now_calls w)))]>
                 (updates ∪ e)) in *.
  assert (Hkey : key_of products_keyPath next = Some k').
  { rewrite <- Hk'. unfold key_of, get_prop, products_keyPath, next.
    by rewrite lookup_insert_ne. }
  split; [done|]. by rewrite Hkey in Hrun.
Qed.

Lemma key_of_update_without_id (k : key) (updates e : obj) :
  key_of products_keyPath e = Some k → updates !! "id" = None →
  key_of products_keyPath (updates ∪ e) = Some k.
Proof.
  intros <- Hu. unfold key_of, get_prop, products_keyPath.
  by rewrite lookup_union_r.
Qed.

(** X8: [updateProduct] is a shallow merge: each field of the record it
    resolves with is the one of [partialUpdates] where that has the field,
    and the stored one otherwise, except that [updatedAt] is always the
    reading of the clock, also when [partialUpdates] has an [updatedAt].
    The record is stored under the id it then has; the products under
    every other id are as before. *)
Theorem updateProduct_merges (k k' : key) (updates : obj) (w : world)
    (d : database) (e : obj) :
  idb w = Open d →
  get_row products_keyPath k (products d) = Some e →
  key_of products_keyPath (updates ∪ e) = Some k' →
  ∃ next d',
    updateProduct (of_key k) updates w
    = (Resolved next, set_idb (Open d') (tick w))
    ∧ get_prop "updatedAt" next = VNum (num_of_Z (clock (now_calls w)))
    ∧ (∀ f, f ≠ "updatedAt" →
            next !! f = match updates !! f with
                        | Some v => Some v
                        | None => e !! f
                        end)
    ∧ get_row products_keyPath k' (products d') = Some next
    ∧ (∀ k'', k'' ≠ k' →
              get_row products_keyPath k'' (products d')
              = get_row products_keyPath k'' (products d)).
Proof.
  intros Hw He Hk'.
  destruct (updateProduct_stores k k' updates w d e Hw He Hk') as [Hkey Hrun].
  eexists _, _. split; [exact Hrun|]. split_and!.
  - unfold get_prop. by rewrite lookup_insert_eq.
  - intros f Hf. by apply merged_lookup.
  - simpl. by apply get_row_put_eq.
  - intros k'' Hne. simpl. by apply get_row_put_ne.
Qed.

(** X9: An [id] in [partialUpdates] that differs from the id updated does not
    rename the product: the merged record is stored under the new id,
    replacing whatever was there, and the old record stays under the old
    id. *)
Theorem updateProduct_with_new_id_keeps_the_old_record (k k2 : key)
    (updates : obj) (w : world) (d : database) (e : obj) :
  idb w = Open d →
  get_row products_keyPath k (products d) = Some e →
  updates !! "id" = Some (of_key k2) →
  k2 ≠ k →
  ∃ next d',
    updateProduct (of_key k) updates w
    = (Resolved next, set_idb (Open d') (tick w))
    ∧ get_prop "id" next = of_key k2
    ∧ get_row products_keyPath k2 (products d') = Some next
    ∧ get_row products_keyPath k (products d') = Some e.
Proof.
  intros Hw He Hid Hne.
  assert (Hk2 : key_of products_keyPath (updates ∪ e) = Some k2).
  { unfold key_of, get_prop, products_keyPath.
    rewrite (lookup_union_Some_l _ _ _ _ Hid). apply to_key_of_key. }
  destruct (updateProduct_stores k k2 updates w d e Hw He Hk2) as [Hkey Hrun].
  eexists _, _. split; [exact Hrun|]. split_and!.
  - unfold get_prop. rewrite merged_lookup by done. by rewrite Hid.
  - simpl. by apply get_row_put_eq.
  - simpl. rewrite get_row_put_ne by done. exact He.
Qed.

(** X10: Two updates in a row, neither with an [id], amount to one update with
    the two merged, the later one winning: the second call resolves with
    the record, and leaves the products store, that a single
    [updateProduct(id, {...u1, ...u2})] at the second reading of the clock
    gives. *)
Theorem updateProduct_twice_merges (k : key) (u1 u2 : obj) (w : world)
    (d : database) (e : obj) :
  idb w = Open d →
  get_row products_keyPath k (products d) = Some e →
  u1 !! "id" = None → u2 !! "id" = None →
  ∃ w1 next d2,
    world_of (updateProduct (of_key k) u1 w) = w1
    ∧ updateProduct (of_key k) u2 w1
      = (Resolved next, set_idb (Open d2) (tick w1))
    ∧ updateProduct (of_key k) (u2 ∪ u1) (tick w)
      = (Resolved next, set_idb (Open d2) (tick w1)).
Proof.
  intros Hw He H1 H2.
  assert (Hke : key_of products_keyPath e = Some k)
    by (by apply get_row_Some in He as [_ ?]).
  destruct (updateProduct_stores k k u1 w d e Hw He
              (key_of_update_without_id k u1 e Hke H1)) as [Hk1 Hr1].
  cbv zeta in Hk1, Hr1.
  set (next1 := <["updatedAt" := VNum (num_of_Z (clock (now_calls w)))]>
                  (u1 ∪ e)) in *.
  set (d1 := set_rows Products
               (put_row products_keyPath k next1 (products d)) d) in *.
  set (w1 := set_idb (Open d1) (tick w)) in *.
  assert (Hw1 : idb w1 = Open d1) by done.
  assert (Hn1 : get_row products_keyPath k (products d1) = Some next1)
    by (simpl; by apply get_row_put_eq).
  destruct (updateProduct_stores k k u2 w1 d1 next1 Hw1 Hn1
              (key_of_update_without_id k u2 next1 Hk1 H2)) as [_ Hr2].
  cbv zeta in Hr2.
  assert (Hwt : idb (tick w) = Open d) by done.
  assert (H12 : (u2 ∪ u1) !! "id" = None) by (by rewrite lookup_union, H1, H2).
  destruct (updateProduct_stores k k (u2 ∪ u1) (tick w) d e Hwt He
              (key_of_update_without_id k (u2 ∪ u1) e Hke H12)) as [_ Hr3].
  cbv zeta in Hr3.
  change (now_calls w1) with (now_calls (tick w)) in Hr2.
  set (t2 := VNum (num_of_Z (clock (now_calls (tick w))))) in *.
  assert (Hsame : <["updatedAt" := t2]> (u2 ∪ next1)
                  = <["updatedAt" := t2]> ((u2 ∪ u1) ∪ e)).
  { apply map_eq. intros f. destruct (decide (f = "updatedAt")) as [->|Hf].
    - by rewrite !lookup_insert_eq.
    - rewrite !merged_lookup by done. unfold next1.
      rewrite merged_lookup by done. rewrite lookup_union.
      by destruct (u2 !! f), (u1 !! f). }
  rewrite Hsame in Hr2.
  eexists w1, _, _. split; [by rewrite Hr1|]. split; [exact Hr2|].
  rewrite Hr3. f_equal. unfold w1, set_idb. simpl. do 2 f_equal.
  by rewrite put_put_row.
Qed.


(** *** Products: adding and deleting *)

(** X11: [addProduct] and [deleteProduct] change the product under their id
    only: after either call every other id leads to the record it led to
    before, and after [deleteProduct] the id leads to none. *)
Theorem addProduct_deleteProduct_are_local (k : key) (w : world)
    (d : database) :
  idb w = Open d →
  (∀ p, to_key (product_id p w) = Some k →
        ∃ d', idb (world_of (addProduct p w)) = Open d'
              ∧ ∀ k', k' ≠ k →
                      get_row products_keyPath k' (products d')
                      = get_row products_keyPath k' (products d))
  ∧ (∃ d', deleteProduct (of_key k) w = (Resolved tt, set_idb (Open d') w)
           ∧ get_row products_keyPath k (products d') = None
           ∧ ∀ k', k' ≠ k →
                   get_row products_keyPath k' (products d')
                   = get_row products_keyPath k' (products d)).
Proof.
  intros Hw. split.
  - intros p Hk.
    pose proof (addProduct_run clock randomUUID StringToNumber p w d Hw)
      as Hrun.
    cbv zeta in Hrun. rewrite Hk in Hrun. rewrite Hrun.
    destruct (price_of p) as [n|].
    + eexists. split; [reflexivity|]. intros k' Hne. simpl.
      apply get_row_put_ne; [|done].
      change (to_key (product_id p w) = Some k). exact Hk.
    + exists d. split; [|done]. unfold world_of. cbn [snd].
      by rewrite (idb_after_product_id randomUUID).
  - eexists. split_and!.
    + unfold deleteProduct. rewrite bind_run, (tx_run _ _ _ d Hw).
      cbv beta iota. by rewrite (store_delete_run _ _ _ d Hw).
    + simpl. apply get_row_delete_eq.
    + intros k' Hne. simpl. by apply get_row_delete_ne.
Qed.

(** X12: Adding a product under an id that is not stored yet and deleting that
    id again gives back the database as it was. *)
Theorem addProduct_then_deleteProduct_restores (p : obj) (k : key)
    (w : world) (d : database) :
  idb w = Open d →
  to_key (product_id p w) = Some k →
  get_row products_keyPath k (products d) = None →
  result_of (deleteProduct (of_key k) (world_of (addProduct p w)))
  = Resolved tt
  ∧ idb (world_of (deleteProduct (of_key k) (world_of (addProduct p w))))
    = Open d.
Proof.
  intros Hw Hk Hnone.
  pose proof (addProduct_run clock randomUUID StringToNumber p w d Hw) as Hrun.
  cbv zeta in Hrun. rewrite Hk in Hrun. rewrite Hrun.
  destruct (price_of p) as [n|]; unfold world_of, result_of; cbn [fst snd].
  - match goal with
    | |- context [deleteProduct _ (set_idb (Open ?d1) ?w1)] =>
        set (d' := d1); set (w' := set_idb (Open d1) w1)
    end.
    assert (Hw' : idb w' = Open d') by done.
    unfold deleteProduct. rewrite bind_run, (tx_run _ _ _ d' Hw').
    cbv beta iota. rewrite (store_delete_run _ _ _ d' Hw').
    split; [done|]. simpl. f_equal.
    rewrite delete_put_row; [by destruct d| |done].
    change (to_key (product_id p w) = Some k). exact Hk.
  - set (w' := after_product_id p w).
    assert (Hw' : idb w' = Open d)
      by (unfold w'; by rewrite (idb_after_product_id randomUUID)).
    unfold deleteProduct. rewrite bind_run, (tx_run _ _ _ d Hw').
    cbv beta iota. rewrite (store_delete_run _ _ _ d Hw').
    split; [done|]. simpl. f_equal.
    change (delete_row (keyPath Products) k (rows_of Products d))
      with (delete_row products_keyPath k (products d)).
    rewrite (delete_row_absent _ _ _ Hnone). by destruct d.
Qed.

(** X13: Whatever else the input holds, the record that [addProduct] stores
    for an input with a usable id and a price that converts has exactly
    the nine fields of a product; its [stock] is a finite number, its
    [price] the number the input's price converts to, its [category] is
    truthy (never empty), and its [createdAt] and [updatedAt] are the two
    readings of the clock that follow the id: fields of these two names in
    the input, and all fields of other names, are ignored. *)
Theorem addProduct_record_shape (p : obj) (w : world) (d : database)
    (k : key) (n : num) :
  idb w = Open d →
  to_key (product_id p w) = Some k →
  price_of p = Some n →
  let t := now_calls (after_product_id p w) in
  ∃ r w',
    addProduct p w = (Resolved r, w')
    ∧ dom r = {[ "id"; "name"; "category"; "price"; "stock";
                 "imageMediaId"; "description"; "createdAt"; "updatedAt" ]}
    ∧ Number_isFinite (get_prop "stock" r) = true
    ∧ get_prop "price" r = VNum n
    ∧ truthy (get_prop "category" r) = true
    ∧ get_prop "createdAt" r = VNum (num_of_Z (clock t))
    ∧ get_prop "updatedAt" r = VNum (num_of_Z (clock (S t))).
Proof.
  intros Hw Hk Hn.
  pose proof (addProduct_run clock randomUUID StringToNumber p w d Hw) as Hrun.
  cbv zeta in Hrun. rewrite Hn, Hk in Hrun. cbv zeta.
  eexists _, _. split; [exact Hrun|]. split_and!.
  - unfold Db.product_record. rewrite !dom_insert_L, dom_singleton_L.
    set_solver.
  - change (Number_isFinite (stock_of p) = true). unfold stock_of.
    by destruct (Number_isFinite (get_prop "stock" p)) eqn:E.
  - reflexivity.
  - change (truthy (or_else (get_prop "category" p) (VStr "Stationery"))
            = true).
    unfold or_else. by destruct (truthy (get_prop "category" p)) eqn:E.
  - reflexivity.
  - reflexivity.
Qed.

(** X14: On a clock that never goes back, a product that is added (with a
    usable id and a price that converts) and then updated, with neither
    [id] nor [createdAt] in the update, keeps its [createdAt] and has an
    [updatedAt] that is not before it, after the add and after the
    update. *)
Theorem addProduct_then_updateProduct_timestamps (p updates : obj) (k : key)
    (m : num) (w : world) (d : database) :
  (∀ n, (clock n ≤ clock (S n))%Z) →
  idb w = Open d →
  to_key (product_id p w) = Some k →
  price_of p = Some m →
  updates !! "id" = None → updates !! "createdAt" = None →
  ∃ r next w2,
    result_of (addProduct p w) = Resolved r
    ∧ updateProduct (of_key k) updates (world_of (addProduct p w))
      = (Resolved next, w2)
    ∧ get_prop "createdAt" next = get_prop "createdAt" r
    ∧ updated_not_before_created r
    ∧ updated_not_before_created next.
Proof.
  intros Hmono Hw Hk Hm Hid Hcr.
  pose proof (addProduct_run clock randomUUID StringToNumber p w d Hw) as Hrun.
  cbv zeta in Hrun. rewrite Hm, Hk in Hrun. rewrite Hrun.
  unfold result_of, world_of. cbn [fst snd].
  set (n := now_calls (after_product_id p w)) in *.
  set (r := product_record (product_id p w) p (VNum m) (stock_of p)
              (clock n) (clock (S n))) in *.
  match goal with
  | |- context [updateProduct _ _ (set_idb (Open ?d1) ?w1)] =>
      set (d' := d1); set (w' := set_idb (Open d1) w1)
  end.
  assert (Hw' : idb w' = Open d') by done.
  assert (Hkr : key_of products_keyPath r = Some k).
  { change (to_key (product_id p w) = Some k). exact Hk. }
  assert (Hr : get_row products_keyPath k (products d') = Some r)
    by (simpl; by apply get_row_put_eq).
  destruct (updateProduct_stores k k updates w' d' r Hw' Hr
              (key_of_update_without_id k updates r Hkr Hid)) as [_ Hup].
  cbv zeta in Hup. change (now_calls w') with (S (S n)) in Hup.
  set (next := <["updatedAt" := VNum (num_of_Z (clock (S (S n))))]>
                 (updates ∪ r)) in *.
  assert (Hcreated : get_prop "createdAt" next = get_prop "createdAt" r).
  { unfold get_prop, next. rewrite merged_lookup by done. by rewrite Hcr. }
  eexists r, next, _.
  split; [done|]. split; [exact Hup|]. split; [exact Hcreated|].
  assert (Hcr_r : get_prop "createdAt" r = VNum (num_of_Z (clock n)))
    by reflexivity.
  assert (Hup_r : get_prop "updatedAt" r = VNum (num_of_Z (clock (S n))))
    by reflexivity.
  split.
  - unfold updated_not_before_created, created, updated.
    rewrite Hcr_r, Hup_r. unfold num_of_Z. by apply timestamp_le.
  - unfold updated_not_before_created, created, updated.
    rewrite Hcreated, Hcr_r.
    assert (Hu : get_prop "updatedAt" next
                 = VNum (num_of_Z (clock (S (S n)))))
      by (unfold get_prop, next; by rewrite lookup_insert_eq).
    rewrite Hu. unfold num_of_Z. apply timestamp_le.
    etrans; apply Hmono.
Qed.


(** *** Media and the logo *)

Lemma saveMedia_stores (f : file) (w : world) (d : database) :
  idb w = Open d →
  let id := generated_id "m_" w in
  let rec := media_record id f (clock (now_calls (after_new_id w))) in
  saveMedia f w
  = (Resolved id,
     set_idb (Open (set_rows Media
                      (put_row media_keyPath (KStr id) rec (media d)) d))
       (tick (after_new_id w))).
Proof.
  intros Hw. cbv zeta. unfold Db.saveMedia.
  rewrite bind_run, (new_id_run clock randomUUID). cbv beta iota.
  rewrite bind_run, (Date_now_run clock). cbv beta iota zeta.
  set (w1 := tick (after_new_id w)).
  assert (Hw1 : idb w1 = Open d) by (simpl; by rewrite idb_after_new_id).
  rewrite bind_run, (tx_run _ _ _ d Hw1). cbv beta iota.
  rewrite bind_run.
  by rewrite (store_put_run Media _ (KStr (generated_id "m_" w)) _ d Hw1).
Qed.

Lemma getMediaUrl_run (k : key) (w : world) (d : database) :
  idb w = Open d →
  getMediaUrl (of_key k) w
  = match get_row media_keyPath k (media d) with
    | Some r => URL_createObjectURL (get_prop "blob" r) w
    | None => (Resolved VNull, w)
    end.
Proof.
  intros Hw. unfold getMediaUrl.
  rewrite bind_run, (tx_run _ _ _ d Hw). cbv beta iota.
  rewrite bind_run, (store_get_run _ _ _ _ d Hw). cbv beta iota.
  change (get_row (keyPath Media) k (rows_of Media d))
    with (get_row media_keyPath k (media d)).
  by destruct (get_row media_keyPath k (media d)).
Qed.

Lemma getLogoUrl_run (w : world) (d : database) :
  idb w = Open d →
  getLogoUrl w
  = match get_row settings_keyPath (KStr "logoMediaId") (settings d) with
    | Some r => getMediaUrl (get_prop "value" r) w
    | None => (Resolved VNull, w)
    end.
Proof.
  intros Hw. unfold getLogoUrl.
  rewrite bind_run, (tx_run _ _ _ d Hw). cbv beta iota.
  change (VStr "logoMediaId") with (of_key (KStr "logoMediaId")).
  rewrite bind_run, (store_get_run _ _ _ _ d Hw). cbv beta iota.
  change (get_row (keyPath Settings) (KStr "logoMediaId")
            (rows_of Settings d))
    with (get_row settings_keyPath (KStr "logoMediaId") (settings d)).
  by destruct (get_row settings_keyPath _ (settings d)).
Qed.

Lemma setLogo_stores (f : file) (w : world) (d : database) :
  idb w = Open d →
  let id := generated_id "m_" w in
  let rec := media_record id f (clock (now_calls (after_new_id w))) in
  let d1 := set_rows Media
              (put_row media_keyPath (KStr id) rec (media d)) d in
  setLogo f w
  = (Resolved id,
     set_idb (Open (set_rows Settings
                      (put_row settings_keyPath (KStr "logoMediaId")
                         (logo_row id) (settings d)) d1))
       (tick (after_new_id w))).
Proof.
  intros Hw. cbv zeta. unfold Db.setLogo.
  rewrite bind_run, (saveMedia_stores f w d Hw). cbv beta iota zeta.
  match goal with
  | |- context [tx Settings ReadWrite ≫= _] => idtac
  end.
  set (id := generated_id "m_" w).
  set (d1 := set_rows Media _ d).
  set (w1 := set_idb (Open d1) _).
  assert (Hw1 : idb w1 = Open d1) by done.
  rewrite bind_run, (tx_run _ _ _ d1 Hw1). cbv beta iota.
  rewrite bind_run.
  by rewrite (store_put_run Settings _ (KStr "logoMediaId") _ d1 Hw1).
Qed.

(** X15: [saveMedia] stores the file with its name, type and size under a new
    string id and leaves the media under every other id as they were;
    [getMediaUrl] of that id then resolves with a URL registered for the
    very file.  [getMediaUrl] of an id that is not stored resolves with
    [null] and changes nothing. *)
Theorem saveMedia_then_getMediaUrl (f : file) (w : world) (d : database) :
  idb w = Open d →
  (∃ id w1 d1 rec url,
      saveMedia f w = (Resolved id, w1)
      ∧ idb w1 = Open d1
      ∧ get_row media_keyPath (KStr id) (media d1) = Some rec
      ∧ get_prop "name" rec = VStr (file_name f)
      ∧ get_prop "type" rec = VStr (file_type f)
      ∧ get_prop "size" rec = VNum (num_of_Z (Z.of_N (file_size f)))
      ∧ get_prop "blob" rec = VFile f
      ∧ (∀ k, k ≠ KStr id →
              get_row media_keyPath k (media d1)
              = get_row media_keyPath k (media d))
      ∧ getMediaUrl (VStr id) w1
        = (Resolved (VStr url),
           set_objectURLs (<[url := f]> (objectURLs w1)) w1))
  ∧ (∀ k, get_row media_keyPath k (media d) = None →
          getMediaUrl (of_key k) w = (Resolved VNull, w)).
Proof.
  intros Hw. split.
  - pose proof (saveMedia_stores f w d Hw) as Hsave. cbv zeta in Hsave.
    set (id := generated_id "m_" w) in *.
    set (rec := media_record id f _) in *.
    assert (Hk : key_of media_keyPath rec = Some (KStr id)) by reflexivity.
    eexists id, _, _, rec, _. split; [exact Hsave|].
    split; [reflexivity|].
    assert (Hget : get_row media_keyPath (KStr id)
                     (put_row media_keyPath (KStr id) rec (media d))
                   = Some rec) by by apply get_row_put_eq.
    split_and!; try reflexivity.
    + exact Hget.
    + intros k Hne. simpl. by apply get_row_put_ne.
    + change (VStr id) with (of_key (KStr id)).
      erewrite getMediaUrl_run by reflexivity.
      simpl media. rewrite Hget. reflexivity.
  - intros k Hnone. rewrite (getMediaUrl_run k w d Hw). by rewrite Hnone.
Qed.

(** X16: A logo whose media record is missing: where the "logoMediaId" setting
    names an id that the media store does not hold, [getLogoUrl] resolves
    with [null] and changes nothing. *)
Theorem getLogoUrl_of_missing_media (k : key) (row : obj) (w : world)
    (d : database) :
  idb w = Open d →
  get_row settings_keyPath (KStr "logoMediaId") (settings d) = Some row →
  get_prop "value" row = of_key k →
  get_row media_keyPath k (media d) = None →
  getLogoUrl w = (Resolved VNull, w).
Proof.
  intros Hw Hrow Hv Hnone.
  rewrite (getLogoUrl_run w d Hw), Hrow, Hv.
  by rewrite (getMediaUrl_run k w d Hw), Hnone.
Qed.

(** X17: A second [setLogo] makes [getLogoUrl] lead to the second file, and it
    does not remove the record of the first logo: where the two ids
    differ, [getMediaUrl] of the first id still leads to the first file. *)
Theorem setLogo_twice (f1 f2 : file) (w : world) (d : database) :
  idb w = Open d →
  ∃ id1 id2 w1 w2 url,
    setLogo f1 w = (Resolved id1, w1)
    ∧ setLogo f2 w1 = (Resolved id2, w2)
    ∧ getLogoUrl w2
      = (Resolved (VStr url),
         set_objectURLs (<[url := f2]> (objectURLs w2)) w2)
    ∧ (id1 ≠ id2 →
       ∃ url1, getMediaUrl (VStr id1) w2
               = (Resolved (VStr url1),
                  set_objectURLs (<[url1 := f1]> (objectURLs w2)) w2)).
Proof.
  intros Hw.
  pose proof (setLogo_stores f1 w d Hw) as H1. cbv zeta in H1.
  set (id1 := generated_id "m_" w) in *.
  set (rec1 := media_record id1 f1 _) in *.
  set (d1 := set_rows Settings _ _) in *.
  set (w1 := set_idb (Open d1) _) in *.
  assert (Hw1 : idb w1 = Open d1) by done.
  pose proof (setLogo_stores f2 w1 d1 Hw1) as H2. cbv zeta in H2.
  set (id2 := generated_id "m_" w1) in *.
  set (rec2 := media_record id2 f2 _) in *.
  pose (d2 := set_rows Settings
                (put_row settings_keyPath (KStr "logoMediaId")
                   (logo_row id2) (settings d1))
                (set_rows Media
                   (put_row media_keyPath (KStr id2) rec2 (media d1)) d1)).
  pose (w2 := set_idb (Open d2) (tick (after_new_id w1))).
  change (setLogo f2 w1 = (Resolved id2, w2)) in H2.
  assert (Hw2 : idb w2 = Open d2) by done.
  assert (Hk1 : key_of media_keyPath rec1 = Some (KStr id1)) by reflexivity.
  assert (Hk2 : key_of media_keyPath rec2 = Some (KStr id2)) by reflexivity.
  assert (Hrow : get_row settings_keyPath (KStr "logoMediaId") (settings d2)
                 = Some (logo_row id2))
    by (simpl; by apply get_row_put_eq).
  assert (Hm2 : get_row media_keyPath (KStr id2) (media d2) = Some rec2)
    by (simpl; by apply get_row_put_eq).
  eexists id1, id2, w1, w2, _. split; [exact H1|]. split; [exact H2|].
  split.
  - rewrite (getLogoUrl_run w2 d2 Hw2), Hrow.
    change (get_prop "value" (logo_row id2)) with (of_key (KStr id2)).
    rewrite (getMediaUrl_run _ w2 d2 Hw2), Hm2. reflexivity.
  - intros Hne.
    assert (Hm1 : get_row media_keyPath (KStr id1) (media d2) = Some rec1).
    { simpl. rewrite get_row_put_ne; [|done|congruence].
      by apply get_row_put_eq. }
    change (VStr id1) with (of_key (KStr id1)).
    rewrite (getMediaUrl_run _ w2 d2 Hw2), Hm1. eexists. reflexivity.
Qed.


(** *** Settings and the lifecycle *)

(** X18: [setBusinessInfo] then [getBusinessInfo]: a truthy value comes back as
    it was stored, a falsy one ([null], [0], "", [false], [undefined])
    comes back as [null]; every other setting is as before. *)
Theorem setBusinessInfo_then_getBusinessInfo (info : value) (w : world)
    (d : database) :
  idb w = Open d →
  ∃ d',
    setBusinessInfo info w = (Resolved tt, set_idb (Open d') w)
    ∧ getBusinessInfo (set_idb (Open d') w)
      = (Resolved (if truthy info then info else VNull),
         set_idb (Open d') w)
    ∧ (∀ k, k ≠ KStr "business" →
            get_row settings_keyPath k (settings d')
            = get_row settings_keyPath k (settings d)).
Proof.
  intros Hw. eexists. split; [by apply setBusinessInfo_run|]. split.
  - erewrite getBusinessInfo_run by reflexivity.
    by rewrite business_of_setBusinessInfo.
  - intros k Hne. simpl. by apply get_row_put_ne.
Qed.

Lemma openDB_creates (w : world) :
  idb w = Absent →
  openDB w
  = (Resolved tt,
     set_idb (Open (Database [] [] [] [owner_record (clock (now_calls w))]))
       (tick w)).
Proof.
  intros Hw. unfold Db.openDB. rewrite Hw.
  by rewrite bind_run, (Date_now_run clock).
Qed.

(** The world [init] leaves once the connection [w'] is open. *)
Lemma init_after_open (w : world) (w' : world) (d : database) :
  (if db_is_set w then mret tt else openDB) w = (Resolved tt, w') →
  idb w' = Open d →
  init w
  = (Resolved true,
     if truthy (business_of d) then w'
     else set_idb (Open (set_rows Settings
                           (put_row settings_keyPath (KStr "business")
                              {[ "key" := VStr "business";
                                 "value" := default_business ]}
                              (settings d)) d)) w').
Proof.
  intros Hopen Hw'. unfold Db.init.
  rewrite bind_run. unfold get_world at 1. cbv beta iota.
  rewrite bind_run, Hopen. cbv beta iota.
  rewrite bind_run, (getBusinessInfo_run _ d Hw'). cbv beta iota.
  destruct (truthy (business_of d)).
  - by rewrite bind_run, ret_run.
  - by rewrite bind_run, (setBusinessInfo_run _ _ d Hw').
Qed.

Lemma open_step (w : world) :
  ∃ w' d',
    (if db_is_set w then mret tt else openDB) w = (Resolved tt, w')
    ∧ idb w' = Open d'
    ∧ localStorage w' = localStorage w
    ∧ (∀ d, database_of w = Some d → d' = d)
    ∧ (database_of w = None →
       d' = Database [] [] [] [owner_record (clock (now_calls w))]).
Proof.
  unfold db_is_set, database_of.
  destruct (idb w) as [|d|d] eqn:Ew.
  - rewrite (openDB_creates w Ew). eexists _, _.
    split_and!; [reflexivity..| |]; done.
  - unfold Db.openDB. rewrite Ew. eexists _, d.
    split_and!; [reflexivity..| |]; [by intros ? [= <-]|done].
  - exists w, d. split_and!; [done..| |]; [by intros ? [= <-]|done].
Qed.

(** X19: After [init], from any world, [getBusinessInfo] resolves with a truthy
    value: the business info stored before where there was a truthy one,
    and the default otherwise.  [init] leaves every other setting, and the
    session, as they were. *)
Theorem init_establishes_business_info (w : world) :
  ∃ w1 d1,
    init w = (Resolved true, w1)
    ∧ idb w1 = Open d1
    ∧ truthy (business_of d1) = true
    ∧ getBusinessInfo w1 = (Resolved (business_of d1), w1)
    ∧ business_of d1
      = match database_of w with
        | Some d =>
            if truthy (business_of d) then business_of d
            else default_business
        | None => default_business
        end
    ∧ (∀ d k, database_of w = Some d → k ≠ KStr "business" →
              get_row settings_keyPath k (settings d1)
              = get_row settings_keyPath k (settings d))
    ∧ localStorage w1 = localStorage w.
Proof.
  destruct (open_step w) as (w' & d' & Hopen & Hw' & Hls & Hsome & Hnone).
  rewrite (init_after_open w w' d' Hopen Hw').
  assert (Hb : database_of w = None → business_of d' = VNull).
  { intros Hn. by rewrite (Hnone Hn). }
  destruct (truthy (business_of d')) eqn:Et.
  - exists w', d'. split_and!; try done.
    + by apply getBusinessInfo_run.
    + destruct (database_of w) as [d|] eqn:Ed.
      * rewrite <- (Hsome d eq_refl). by rewrite Et.
      * rewrite (Hb eq_refl) in Et. done.
    + intros d k Hd _. by rewrite (Hsome d Hd).
  - eexists _, _. split; [reflexivity|]. split; [reflexivity|].
    assert (Hnew : business_of
                     (set_rows Settings
                        (put_row settings_keyPath (KStr "business")
                           {[ "key" := VStr "business";
                              "value" := default_business ]}
                           (settings d')) d') = default_business)
      by by rewrite business_of_setBusinessInfo.
    split_and!.
    + by rewrite Hnew.
    + erewrite getBusinessInfo_run by reflexivity. done.
    + rewrite Hnew. destruct (database_of w) as [d|] eqn:Ed; [|done].
      rewrite <- (Hsome d eq_refl). by rewrite Et.
    + intros d k Hd Hne. simpl. rewrite get_row_put_ne by done.
      by rewrite (Hsome d Hd).
    + exact Hls.
Qed.

Lemma loginOwner_run (username password : string) (w : world)
    (d : database) :
  idb w = Open d →
  loginOwner (VStr username) (VStr password) w
  = let ok :=
      match get_row users_keyPath (KStr username) (users d) with
      | Some u =>
          strict_eq (get_prop "password" u) (VStr password)
          && strict_eq (get_prop "role" u) (VStr "owner")
      | None => false
      end in
    (Resolved ok,
     if ok then set_localStorage (<[session_key := "1"]> (localStorage w)) w
     else w).
Proof.
  intros Hw. cbv zeta. unfold loginOwner.
  rewrite bind_run, (tx_run _ _ _ d Hw). cbv beta iota.
  change (VStr username) with (of_key (KStr username)).
  rewrite bind_run, (store_get_run _ _ _ _ d Hw). cbv beta iota zeta.
  change (get_row (keyPath Users) (KStr username) (rows_of Users d))
    with (get_row users_keyPath (KStr username) (users d)).
  by destruct (match get_row users_keyPath (KStr username) (users d) with
               | Some u => _ | None => false end).
Qed.

(** X20: The first [init] in a browser that has no database creates empty
    products and media stores, one user, and the default business info; it
    logs nobody in.  Afterwards [loginOwner] resolves with [true] for the
    seeded credentials "VKM2009" / "VKM1998" and for no other pair of
    strings. *)
Theorem first_init_seeds_the_owner (w : world) :
  idb w = Absent →
  ∃ w1 d1,
    init w = (Resolved true, w1)
    ∧ idb w1 = Open d1
    ∧ products d1 = [] ∧ media d1 = []
    ∧ users d1 = [owner_record (clock (now_calls w))]
    ∧ business_of d1 = default_business
    ∧ localStorage w1 = localStorage w
    ∧ ∀ username password,
        result_of (loginOwner (VStr username) (VStr password) w1)
        = Resolved true
        ↔ username = "VKM2009" ∧ password = "VKM1998".
Proof.
  intros Hw.
  assert (Hopen : (if db_is_set w then mret tt else openDB) w
                  = (Resolved tt,
                     set_idb (Open (Database [] [] []
                                      [owner_record (clock (now_calls w))]))
                       (tick w))).
  { unfold db_is_set. rewrite Hw. by apply openDB_creates. }
  rewrite (init_after_open w _ _ Hopen eq_refl).
  change (truthy (business_of (Database [] [] []
                                 [owner_record (clock (now_calls w))])))
    with false. cbv iota.
  eexists _, _. split; [reflexivity|]. split; [reflexivity|].
  split_and!; try reflexivity.
  intros username password.
  erewrite loginOwner_run by reflexivity. cbv zeta.
  unfold result_of. simpl users. simpl get_row.
  change (has_key users_keyPath (KStr username)
            (owner_record (clock (now_calls w))))
    with (key_eqb (KStr username) (KStr "VKM2009")).
  destruct (key_eqb (KStr username) (KStr "VKM2009")) eqn:Eu.
  - apply key_eqb_eq in Eu as [= ->].
    change (get_prop "password" (owner_record (clock (now_calls w))))
      with (VStr "VKM1998").
    change (get_prop "role" (owner_record (clock (now_calls w))))
      with (VStr "owner").
    change (strict_eq (VStr "owner") (VStr "owner")) with true.
    change (strict_eq (VStr "VKM1998") (VStr password))
      with (String.eqb "VKM1998" password).
    rewrite andb_true_r.
    destruct (String.eqb_spec "VKM1998" password) as [<-|Hne]; cbn [fst].
    + by split.
    + split; [done|]. intros [_ ->]. done.
  - simpl. split; [done|]. intros [-> _].
    by rewrite key_eqb_refl in Eu.
Qed.


(** *** The order of a listing *)

Lemma ascending_filter (kp : string) (f : obj → bool) (lo : option key)
    (rows : list obj) :
  ascending kp lo rows = true → ascending kp lo (List.filter f rows) = true.
Proof.
  revert lo. induction rows as [|r rest IH]; intros lo Hasc; [done|].
  pose proof Hasc as (k & Hk & Hlo & Hrest)%ascending_cons.
  simpl. destruct (f r).
  - apply ascending_cons. exists k. split_and!; [done..|]. by apply IH.
  - apply IH. eapply ascending_weaken; [|done].
    intros k'. simpl. intros ?. by eapply above_trans.
Qed.

Lemma listed_before_trans (a b c : obj) :
  listed_before a b → listed_before b c → listed_before a c.
Proof.
  unfold listed_before.
  destruct (created a) as [ca|], (created b) as [cb|], (created c) as [cc|];
    try done;
    destruct (key_of products_keyPath a) as [ka|],
             (key_of products_keyPath b) as [kb|],
             (key_of products_keyPath c) as [kc|]; try done.
  intros [Hab|[-> Hab]] [Hbc|[-> Hbc]].
  - left. by eapply Qclt_trans.
  - by left.
  - by left.
  - right. split; [done|]. by eapply key_ltb_trans.
Qed.

Lemma sort_insert_listed (x : obj) (cx : Qc) (kx : key) (l l' : list obj) :
  created x = Some cx → key_of products_keyPath x = Some kx →
  later_ids kx l →
  StronglySorted listed_before l →
  sort_insert by_createdAt_desc x l = Some l' →
  StronglySorted listed_before l'.
Proof.
  intros Hcx Hkx. revert l'.
  induction l as [|y rest IH]; intros l' Hl Hs; simpl.
  - intros [= <-]. repeat constructor.
  - apply Forall_cons in Hl as [([cy Hcy] & ky & Hky & Hlt) Hl].
    apply StronglySorted_inv in Hs as [Hs Hall].
    destruct (by_createdAt_desc x y) as [c|] eqn:Ec; simpl; [|done].
    destruct (num_pos c) eqn:E.
    + apply (by_createdAt_desc_pos _ x y cx cy c Hcx Hcy Ec) in E.
      destruct (sort_insert by_createdAt_desc x rest) as [t|] eqn:Et;
        simpl; [|done].
      intros [= <-]. constructor; [by apply IH|].
      rewrite (sort_insert_Permutation _ _ _ _ Et). constructor; [|done].
      unfold listed_before. rewrite Hcy, Hcx, Hky, Hkx. by left.
    + intros [= <-].
      assert (Hxy : listed_before x y).
      { unfold listed_before. rewrite Hcx, Hcy, Hkx, Hky.
        assert (Hle : (cy ≤ cx)%Qc).
        { apply Qcnot_lt_le. intros Hlt'.
          apply (by_createdAt_desc_pos _ x y cx cy c Hcx Hcy Ec) in Hlt'.
          congruence. }
        apply Qcle_lt_or_eq in Hle as [?| ->]; [by left|by right]. }
      constructor; [by constructor|].
      constructor; [done|].
      rewrite Forall_forall in Hall. apply Forall_forall.
      intros z Hz. eapply listed_before_trans; [exact Hxy|by apply Hall].
Qed.

Lemma Array_sort_listed (lo : option key) (rows l : list obj) :
  ascending products_keyPath lo rows = true →
  Forall (λ r, is_Some (created r)) rows →
  Array_sort by_createdAt_desc rows = Some l →
  StronglySorted listed_before l.
Proof.
  revert lo l. induction rows as [|x rest IH]; intros lo l Hasc Hall.
  - intros [= <-]. constructor.
  - pose proof Hasc as (kx & Hkx & _ & Hrest)%ascending_cons.
    apply Forall_cons in Hall as [[cx Hcx] Hall].
    rewrite Array_sort_cons.
    destruct (Array_sort by_createdAt_desc rest) as [s|] eqn:Es;
      simpl; [|done].
    apply (sort_insert_listed x cx kx); [done|done| |by eapply IH].
    unfold later_ids. rewrite (Array_sort_Permutation _ _ _ Es).
    apply ascending_Forall in Hrest.
    rewrite Forall_forall in Hrest, Hall. apply Forall_forall.
    intros z Hz. split; [by apply Hall|].
    destruct (Hrest z Hz) as (kz & ? & ?). by exists kz.
Qed.

Lemma created_converts (rows : list obj) :
  Forall (λ r, is_Some (created r)) rows →
  createdAt_converts StringToNumber rows.
Proof.
  intros H. eapply Forall_impl; [exact H|]. simpl.
  intros r [c Hc%created_Some]. rewrite Hc. by eexists.
Qed.

(** X21: The order of [listProducts] is settled down to ties: in a well-formed
    store whose [createdAt] are finite numbers, a product is listed before
    another when it is newer, and products of the same [createdAt] are
    listed by ascending id, in the key order of the store (the order in
    which [getAll] returns them, which a stable sort keeps); this holds
    under every filter. *)
Theorem listProducts_order_with_ties (filter : obj) (w : world)
    (d : database) :
  idb w = Open d →
  store_ok products_keyPath (products d) →
  Forall (λ r, is_Some (created r)) (products d) →
  ∃ l, listProducts filter w = (Resolved l, w)
       ∧ l ≡ₚ List.filter (category_matches filter) (products d)
       ∧ StronglySorted listed_before l.
Proof.
  intros Hw Hok Hall.
  destruct (listProducts_resolves StringToNumber filter w d
              Hw (created_converts _ Hall)) as (l & Hrun & Hl).
  exists l. split; [exact Hrun|]. split.
  - by apply Array_sort_Permutation in Hl.
  - eapply (Array_sort_listed None); [|by apply Forall_filter_list|exact Hl].
    by apply ascending_filter.
Qed.


(** *** Conversions that throw *)

Lemma ToNumber_None (v : value) :
  ToNumber v = None ↔ ∃ o, v = VObj o ∧ is_Some (o !! "toString").
Proof.
  split.
  - destruct v as [| | | | | |o]; try done. simpl.
    destruct (o !! "toString") as [t|] eqn:E; [|done].
    intros _. exists o. split; [done|]. by exists t.
  - intros (o & -> & [t Ht]). simpl. by rewrite Ht.
Qed.

(** X25: [addProduct] rejects with the [TypeError] of the conversion exactly
    for an input whose price does not convert: an object with a property
    [toString] of its own.  It then stores nothing and reads the clock for
    neither timestamp: the world is the one it had once the id was
    there, and the world it started in when the input supplies the id.
    This holds whether or not the connection is open. *)
Theorem addProduct_rejects_unconvertible_price (p : obj) (w : world) :
  price_of p = None →
  (∃ o, get_prop "price" p = VObj o ∧ is_Some (o !! "toString"))
  ∧ addProduct p w = (Rejected cannot_convert, after_product_id p w)
  ∧ idb (after_product_id p w) = idb w
  ∧ (truthy (get_prop "id" p) = true → after_product_id p w = w).
Proof.
  intros Hn. split_and!.
  - unfold Db.price_of in Hn. apply ToNumber_None in Hn as (o & Ho & Hs).
    exists o. split; [|done]. unfold or_else in Ho.
    by destruct (truthy (get_prop "price" p)).
  - rewrite (addProduct_steps clock randomUUID StringToNumber). cbv zeta.
    by rewrite Hn.
  - apply idb_after_product_id.
  - intros Ht. unfold Db.after_product_id. by rewrite Ht.
Qed.

Lemma by_createdAt_desc_None (x y : obj) :
  by_createdAt_desc x y = None
  ↔ ToNumber (get_prop "createdAt" x) = None
    ∨ ToNumber (get_prop "createdAt" y) = None.
Proof.
  unfold Db.by_createdAt_desc.
  destruct (Db.ToNumber _ (get_prop "createdAt" y)) as [ny|]; simpl;
    destruct (Db.ToNumber _ (get_prop "createdAt" x)) as [nx|]; simpl;
    split; try done; try tauto; by intros [|].
Qed.

(** X26: On an open connection [listProducts] rejects exactly when two or
    more products pass the filter and the [createdAt] of one of them does
    not convert to a number (the comparator throws); the error is the
    [TypeError] of the conversion.  With fewer than two products to
    compare it resolves whatever their [createdAt].  The world is never
    changed. *)
Theorem listProducts_rejects_iff (filter : obj) (w : world) (d : database) :
  idb w = Open d →
  let matching := List.filter (category_matches filter) (products d) in
  (result_of (listProducts filter w) = Rejected cannot_convert
   ↔ 2 ≤ length matching
     ∧ Exists (λ r, ToNumber (get_prop "createdAt" r) = None) matching)
  ∧ (∀ e, result_of (listProducts filter w) = Rejected e →
          e = cannot_convert)
  ∧ (length matching ≤ 1 → ∃ l, result_of (listProducts filter w) = Resolved l)
  ∧ world_of (listProducts filter w) = w.
Proof.
  intros Hw. cbv zeta. rewrite (listProducts_run StringToNumber filter w d Hw).
  pose proof (Array_sort_None by_createdAt_desc
                (λ r, ToNumber (get_prop "createdAt" r) = None)
                by_createdAt_desc_None
                (List.filter (category_matches filter) (products d))) as Hiff.
  destruct (Array_sort _ _) as [l|]; unfold result_of, world_of; cbn [fst snd].
  - split_and!; try done.
    + split; [done|]. intros H%Hiff. done.
    + intros _. by exists l.
  - split_and!; try done.
    + split; [|done]. intros _. by apply Hiff.
    + by intros e [= <-].
    + intros Hlen. destruct (proj1 Hiff eq_refl) as [Hlen2 _]. lia.
Qed.

End MoreProperties.

(** ** Without [crypto.randomUUID]: ids from the clock *)

Section Fallback.
Context (clock : nat → Z) (StringToNumber : string → num).

(** X22: Where the browser has no [crypto.randomUUID], the id of a media record
    is "m_" and the time: two uploads whose ids are taken in the same
    millisecond get the same id, and the second replaces the first; the
    media store ends up as if the first file had never been saved. *)
Theorem saveMedia_same_millisecond_overwrites (f1 f2 : file) (w : world)
    (d : database) :
  idb w = Open d →
  clock (now_calls w) = clock (S (S (now_calls w))) →
  ∃ id w1 w2 d2 t2,
    saveMedia clock None f1 w = (Resolved id, w1)
    ∧ saveMedia clock None f2 w1 = (Resolved id, w2)
    ∧ idb w2 = Open d2
    ∧ media d2
      = put_row media_keyPath (KStr id) (media_record id f2 t2) (media d)
    ∧ get_row media_keyPath (KStr id) (media d2)
      = Some (media_record id f2 t2).
Proof.
  intros Hw Hclock.
  pose proof (saveMedia_stores clock None f1 w d Hw) as H1. cbv zeta in H1.
  change (after_new_id None w) with (tick w) in H1.
  set (id := generated_id clock None "m_" w) in *.
  set (rec1 := media_record id f1 _) in *.
  set (d1 := set_rows Media _ d) in *.
  set (w1 := set_idb (Open d1) (tick (tick w))) in *.
  assert (Hw1 : idb w1 = Open d1) by done.
  pose proof (saveMedia_stores clock None f2 w1 d1 Hw1) as H2.
  cbv zeta in H2. change (after_new_id None w1) with (tick w1) in H2.
  assert (Hid : generated_id clock None "m_" w1 = id).
  { unfold id, generated_id. change (now_calls w1) with (S (S (now_calls w))).
    by rewrite <- Hclock. }
  rewrite Hid in H2.
  assert (Hk1 : key_of media_keyPath rec1 = Some (KStr id)) by reflexivity.
  eexists id, w1, _, _, _. split; [exact H1|]. split; [exact H2|].
  split; [reflexivity|]. split.
  - simpl. by rewrite put_put_row.
  - simpl. by apply get_row_put_eq.
Qed.

(** X23: Likewise for products: without [crypto.randomUUID] the id of a product
    added without one is "p_" and the time, so two such [addProduct] calls
    (of inputs whose prices convert) whose ids are taken in the same
    millisecond resolve with the same id, and the second product replaces
    the first; the products store ends up as if the first had never been
    added. *)
Theorem addProduct_same_millisecond_overwrites (p1 p2 : obj) (n1 n2 : num)
    (w : world) (d : database) :
  idb w = Open d →
  truthy (get_prop "id" p1) = false →
  truthy (get_prop "id" p2) = false →
  price_of StringToNumber p1 = Some n1 →
  price_of StringToNumber p2 = Some n2 →
  clock (now_calls w) = clock (S (S (S (now_calls w)))) →
  ∃ id r1 r2 w1 w2 d2,
    addProduct clock None StringToNumber p1 w = (Resolved r1, w1)
    ∧ addProduct clock None StringToNumber p2 w1 = (Resolved r2, w2)
    ∧ get_prop "id" r1 = VStr id ∧ get_prop "id" r2 = VStr id
    ∧ get_prop "name" r2 = get_prop "name" p2
    ∧ idb w2 = Open d2
    ∧ products d2 = put_row products_keyPath (KStr id) r2 (products d)
    ∧ get_row products_keyPath (KStr id) (products d2) = Some r2.
Proof.
  intros Hw Hp1 Hp2 Hn1 Hn2 Hclock.
  pose proof (addProduct_run clock None StringToNumber p1 w d Hw) as H1.
  cbv zeta in H1.
  assert (Hpid1 : product_id clock None p1 w
                  = VStr (generated_id clock None "p_" w))
    by (unfold product_id; by rewrite Hp1).
  assert (Haft1 : after_product_id None p1 w = tick w)
    by (unfold after_product_id; by rewrite Hp1).
  rewrite Hn1, Hpid1, Haft1 in H1. cbn [to_key] in H1.
  set (id := generated_id clock None "p_" w) in *.
  set (r1 := product_record (VStr id) p1 _ _ _ _) in *.
  set (d1 := set_rows Products _ d) in *.
  set (w1 := set_idb (Open d1) (tick (tick (tick w)))) in *.
  assert (Hw1 : idb w1 = Open d1) by done.
  pose proof (addProduct_run clock None StringToNumber p2 w1 d1 Hw1) as H2.
  cbv zeta in H2.
  assert (Hpid2 : product_id clock None p2 w1 = VStr id).
  { unfold product_id. rewrite Hp2. unfold id, generated_id.
    change (now_calls w1) with (S (S (S (now_calls w)))).
    by rewrite <- Hclock. }
  assert (Haft2 : after_product_id None p2 w1 = tick w1)
    by (unfold after_product_id; by rewrite Hp2).
  rewrite Hn2, Hpid2, Haft2 in H2. cbn [to_key] in H2.
  set (r2 := product_record (VStr id) p2 _ _ _ _) in *.
  assert (Hk1 : key_of products_keyPath r1 = Some (KStr id)) by reflexivity.
  assert (Hk2 : key_of products_keyPath r2 = Some (KStr id)) by reflexivity.
  eexists id, r1, r2, w1, _, _. split; [exact H1|]. split; [exact H2|].
  split; [reflexivity|]. split; [reflexivity|]. split; [reflexivity|].
  split; [reflexivity|]. split.
  - simpl. by rewrite put_put_row.
  - simpl. by apply get_row_put_eq.
Qed.

End Fallback.

(** ** The further theorems at work on the example shop *)

Lemma example_shop_database :
  database_of example_shop = Some (the_database example_shop).
Proof. apply database_of_open. by_evaluation. Defined.

Lemma logo_world_open : idb logo_world = Open (the_database logo_world).
Proof. apply open_the_database. by_evaluation. Defined.

Lemma logo_world_database :
  database_of logo_world = Some (the_database logo_world).
Proof. apply database_of_open. by_evaluation. Defined.

Lemma opened_world_no_chair :
  get_row products_keyPath (KStr "uuid-0")
    (products (the_database opened_world)) = None.
Proof. by_evaluation. Defined.

Lemma chair_id_in_opened_world :
  to_key (product_id frozen_clock (Some example_uuid) chair_input opened_world)
  = Some (KStr "uuid-0").
Proof. by_evaluation. Defined.

Lemma calls_write_only_their_stores_witness :
  database_of example_shop = Some (the_database example_shop)
  ∧ touches (CallDeleteProduct (VStr "uuid-0")) Users = false
  ∧ ∃ d',
      database_of (VKM frozen_clock (Some example_uuid)
                     decimal_StringToNumber
                     (CallDeleteProduct (VStr "uuid-0")) example_shop)
      = Some d'
      ∧ rows_of Users d' = rows_of Users (the_database example_shop).
Proof.
  split; [exact example_shop_database|]. split; [reflexivity|].
  exact (calls_write_only_their_stores frozen_clock (Some example_uuid)
           decimal_StringToNumber (CallDeleteProduct (VStr "uuid-0")) Users
           example_shop (the_database example_shop) example_shop_database
           eq_refl).
Defined.

Lemma only_login_and_logout_change_the_session_witness :
  writes_session (CallAddProduct pen_input) = false
  ∧ isOwner (VKM frozen_clock (Some example_uuid) decimal_StringToNumber
               (CallAddProduct pen_input) opened_world)
    = isOwner opened_world.
Proof.
  split; [reflexivity|].
  exact (proj2 (only_login_and_logout_change_the_session frozen_clock
                  (Some example_uuid) decimal_StringToNumber
                  (CallAddProduct pen_input) opened_world eq_refl)).
Defined.

Lemma media_records_are_never_removed_witness :
  database_of logo_world = Some (the_database logo_world)
  ∧ is_Some (get_row media_keyPath (KStr "uuid-1")
               (media (the_database logo_world)))
  ∧ ∃ d',
      database_of (VKM frozen_clock (Some example_uuid)
                     decimal_StringToNumber (CallSetLogo logo_file) logo_world)
      = Some d'
      ∧ is_Some (get_row media_keyPath (KStr "uuid-1") (media d')).
Proof.
  assert (Hk : is_Some (get_row media_keyPath (KStr "uuid-1")
                          (media (the_database logo_world)))).
  { exists (media_record "uuid-1" logo_file 1700000000000). by_evaluation. }
  split; [exact logo_world_database|]. split; [exact Hk|].
  exact (media_records_are_never_removed frozen_clock (Some example_uuid)
           decimal_StringToNumber (CallSetLogo logo_file) logo_world
           (the_database logo_world) (KStr "uuid-1") logo_world_database Hk).
Defined.

Lemma calls_before_init_reject_witness :
  db_is_set fresh_world = false
  ∧ result_of (getBusinessInfo fresh_world) = Rejected db_undefined
  ∧ result_of (addProduct frozen_clock (Some example_uuid)
                 decimal_StringToNumber pen_input fresh_world)
    = Rejected db_undefined
  ∧ idb (VKM frozen_clock (Some example_uuid) decimal_StringToNumber
           (CallAddProduct pen_input) fresh_world) = idb fresh_world.
Proof.
  split; [reflexivity|].
  destruct (calls_before_init_reject frozen_clock (Some example_uuid)
              decimal_StringToNumber fresh_world eq_refl)
    as (Hidb & _ & _ & _ & _ & Hadd & _ & _ & _ & _ & Hget & _).
  split; [exact Hget|]. split; [exact (Hadd pen_input)|].
  apply Hidb. discriminate.
Defined.

Lemma invalid_key_rejects_witness :
  idb example_shop = Open (the_database example_shop)
  ∧ to_key VNull = None
  ∧ deleteProduct VNull example_shop = (Rejected DataError, example_shop).
Proof.
  split; [exact example_shop_open|]. split; [reflexivity|].
  exact (proj1 (proj2 (proj2 (invalid_key_rejects frozen_clock VNull
                                example_shop (the_database example_shop)
                                example_shop_open eq_refl)))).
Defined.

Lemma addProduct_invalid_id_rejects_witness :
  idb example_shop = Open (the_database example_shop)
  ∧ truthy (get_prop "id" bad_id_input) = true
  ∧ to_key (get_prop "id" bad_id_input) = None
  ∧ result_of (addProduct frozen_clock (Some example_uuid)
                 decimal_StringToNumber bad_id_input example_shop)
    = Rejected DataError.
Proof.
  split; [exact example_shop_open|]. split; [reflexivity|].
  split; [reflexivity|].
  exact (proj1 (addProduct_invalid_id_rejects frozen_clock (Some example_uuid)
                  decimal_StringToNumber bad_id_input example_shop
                  (the_database example_shop) example_shop_open
                  eq_refl eq_refl)).
Defined.

Lemma updateProduct_invalid_new_id_rejects_witness :
  idb example_shop = Open (the_database example_shop)
  ∧ get_row products_keyPath (KStr "uuid-0")
      (products (the_database example_shop)) = Some pen_record
  ∧ ({[ "id" := VNull ]} : obj) !! "id" = Some VNull
  ∧ to_key VNull = None
  ∧ result_of (updateProduct frozen_clock (VStr "uuid-0") {[ "id" := VNull ]}
                 example_shop) = Rejected DataError.
Proof.
  split; [exact example_shop_open|]. split; [exact example_shop_pen|].
  split; [reflexivity|]. split; [reflexivity|].
  exact (proj1 (updateProduct_invalid_new_id_rejects frozen_clock
                  (KStr "uuid-0") {[ "id" := VNull ]} VNull example_shop
                  (the_database example_shop) pen_record example_shop_open
                  example_shop_pen eq_refl eq_refl)).
Defined.

Lemma updateProduct_merges_witness :
  idb example_shop = Open (the_database example_shop)
  ∧ get_row products_keyPath (KStr "uuid-0")
      (products (the_database example_shop)) = Some pen_record
  ∧ key_of products_keyPath
      ({[ "stock" := VNum (num_of_Z 7); "updatedAt" := VNull ]} ∪ pen_record)
    = Some (KStr "uuid-0")
  ∧ ∃ next d',
      updateProduct frozen_clock (VStr "uuid-0")
        {[ "stock" := VNum (num_of_Z 7); "updatedAt" := VNull ]} example_shop
      = (Resolved next, set_idb (Open d') (tick example_shop))
      ∧ get_prop "updatedAt" next
        = VNum (num_of_Z (frozen_clock (now_calls example_shop))).
Proof.
  assert (Hk : key_of products_keyPath
                 ({[ "stock" := VNum (num_of_Z 7); "updatedAt" := VNull ]}
                    ∪ pen_record) = Some (KStr "uuid-0")) by by_evaluation.
  split; [exact example_shop_open|]. split; [exact example_shop_pen|].
  split; [exact Hk|].
  destruct (updateProduct_merges frozen_clock (KStr "uuid-0") (KStr "uuid-0")
              {[ "stock" := VNum (num_of_Z 7); "updatedAt" := VNull ]}
              example_shop (the_database example_shop) pen_record
              example_shop_open example_shop_pen Hk)
    as (next & d' & Hrun & Hup & _).
  exists next, d'. split; assumption.
Defined.

Lemma updateProduct_with_new_id_keeps_the_old_record_witness :
  idb example_shop = Open (the_database example_shop)
  ∧ get_row products_keyPath (KStr "uuid-0")
      (products (the_database example_shop)) = Some pen_record
  ∧ move_update !! "id" = Some (of_key (KStr "other"))
  ∧ KStr "other" ≠ KStr "uuid-0"
  ∧ ∃ next d',
      updateProduct frozen_clock (VStr "uuid-0") move_update example_shop
      = (Resolved next, set_idb (Open d') (tick example_shop))
      ∧ get_row products_keyPath (KStr "other") (products d') = Some next
      ∧ get_row products_keyPath (KStr "uuid-0") (products d')
        = Some pen_record.
Proof.
  assert (Hne : KStr "other" ≠ KStr "uuid-0") by discriminate.
  split; [exact example_shop_open|]. split; [exact example_shop_pen|].
  split; [reflexivity|]. split; [exact Hne|].
  destruct (updateProduct_with_new_id_keeps_the_old_record frozen_clock
              (KStr "uuid-0") (KStr "other") move_update example_shop
              (the_database example_shop) pen_record example_shop_open
              example_shop_pen eq_refl Hne)
    as (next & d' & Hrun & _ & Hnew & Hold).
  exists next, d'. split; [exact Hrun|]. split; assumption.
Defined.

Lemma updateProduct_twice_merges_witness :
  idb example_shop = Open (the_database example_shop)
  ∧ get_row products_keyPath (KStr "uuid-0")
      (products (the_database example_shop)) = Some pen_record
  ∧ ({[ "stock" := VNum (num_of_Z 7) ]} : obj) !! "id" = None
  ∧ ({[ "price" := VNum (num_of_Z 15) ]} : obj) !! "id" = None
  ∧ ∃ w1 next d2,
      world_of (updateProduct frozen_clock (VStr "uuid-0")
                  {[ "stock" := VNum (num_of_Z 7) ]} example_shop) = w1
      ∧ updateProduct frozen_clock (VStr "uuid-0")
          {[ "price" := VNum (num_of_Z 15) ]} w1
        = (Resolved next, set_idb (Open d2) (tick w1)).
Proof.
  split; [exact example_shop_open|]. split; [exact example_shop_pen|].
  split; [reflexivity|]. split; [reflexivity|].
  destruct (updateProduct_twice_merges frozen_clock (KStr "uuid-0")
              {[ "stock" := VNum (num_of_Z 7) ]}
              {[ "price" := VNum (num_of_Z 15) ]} example_shop
              (the_database example_shop) pen_record example_shop_open
              example_shop_pen ltac:(by_evaluation) ltac:(by_evaluation))
    as (w1 & next & d2 & H1 & H2 & _).
  exists w1, next, d2. split; assumption.
Defined.

Lemma addProduct_deleteProduct_are_local_witness :
  idb example_shop = Open (the_database example_shop)
  ∧ ∃ d',
      deleteProduct (VStr "other") example_shop
      = (Resolved tt, set_idb (Open d') example_shop)
      ∧ get_row products_keyPath (KStr "uuid-0") (products d')
        = get_row products_keyPath (KStr "uuid-0")
            (products (the_database example_shop)).
Proof.
  split; [exact example_shop_open|].
  destruct (addProduct_deleteProduct_are_local frozen_clock
              (Some example_uuid) decimal_StringToNumber (KStr "other")
              example_shop (the_database example_shop) example_shop_open)
    as [_ (d' & Hrun & _ & Hother)].
  exists d'. split; [exact Hrun|]. apply Hother. discriminate.
Defined.

Lemma addProduct_then_deleteProduct_restores_witness :
  idb opened_world = Open (the_database opened_world)
  ∧ to_key (product_id frozen_clock (Some example_uuid) chair_input
              opened_world) = Some (KStr "uuid-0")
  ∧ get_row products_keyPath (KStr "uuid-0")
      (products (the_database opened_world)) = None
  ∧ idb (world_of
           (deleteProduct (VStr "uuid-0")
              (world_of (addProduct frozen_clock (Some example_uuid)
                           decimal_StringToNumber chair_input opened_world))))
    = Open (the_database opened_world).
Proof.
  split; [exact opened_world_open|]. split; [exact chair_id_in_opened_world|].
  split; [exact opened_world_no_chair|].
  exact (proj2 (addProduct_then_deleteProduct_restores frozen_clock
                  (Some example_uuid) decimal_StringToNumber chair_input
                  (KStr "uuid-0") opened_world (the_database opened_world)
                  opened_world_open chair_id_in_opened_world
                  opened_world_no_chair)).
Defined.

Lemma chair_price :
  price_of decimal_StringToNumber chair_input = Some (num_of_Z 0).
Proof. by_evaluation. Defined.

Lemma addProduct_record_shape_witness :
  idb opened_world = Open (the_database opened_world)
  ∧ to_key (product_id frozen_clock (Some example_uuid) chair_input
              opened_world) = Some (KStr "uuid-0")
  ∧ price_of decimal_StringToNumber chair_input = Some (num_of_Z 0)
  ∧ ∃ r w',
      addProduct frozen_clock (Some example_uuid) decimal_StringToNumber
        chair_input opened_world = (Resolved r, w')
      ∧ Number_isFinite (get_prop "stock" r) = true
      ∧ get_prop "price" r = VNum (num_of_Z 0)
      ∧ truthy (get_prop "category" r) = true.
Proof.
  split; [exact opened_world_open|]. split; [exact chair_id_in_opened_world|].
  split; [exact chair_price|].
  destruct (addProduct_record_shape frozen_clock (Some example_uuid)
              decimal_StringToNumber chair_input opened_world
              (the_database opened_world) (KStr "uuid-0") (num_of_Z 0)
              opened_world_open chair_id_in_opened_world chair_price)
    as (r & w' & Hrun & _ & Hstock & Hprice & Hcat & _).
  exists r, w'. split; [exact Hrun|]. split; [exact Hstock|].
  split; assumption.
Defined.

Lemma ticking_clock_monotone (n : nat) :
  (ticking_clock n ≤ ticking_clock (S n))%Z.
Proof. unfold ticking_clock. lia. Defined.

Lemma chair_id_on_ticking_clock :
  to_key (product_id ticking_clock (Some example_uuid) chair_input
            opened_world) = Some (KStr "uuid-0").
Proof. by_evaluation. Defined.

Lemma addProduct_then_updateProduct_timestamps_witness :
  (∀ n, (ticking_clock n ≤ ticking_clock (S n))%Z)
  ∧ idb opened_world = Open (the_database opened_world)
  ∧ to_key (product_id ticking_clock (Some example_uuid) chair_input
              opened_world) = Some (KStr "uuid-0")
  ∧ price_of decimal_StringToNumber chair_input = Some (num_of_Z 0)
  ∧ ({[ "price" := VNum (num_of_Z 15) ]} : obj) !! "id" = None
  ∧ ({[ "price" := VNum (num_of_Z 15) ]} : obj) !! "createdAt" = None
  ∧ ∃ next w2,
      updateProduct ticking_clock (VStr "uuid-0")
        {[ "price" := VNum (num_of_Z 15) ]}
        (world_of (addProduct ticking_clock (Some example_uuid)
                     decimal_StringToNumber chair_input opened_world))
      = (Resolved next, w2)
      ∧ updated_not_before_created next.
Proof.
  split; [exact ticking_clock_monotone|]. split; [exact opened_world_open|].
  split; [exact chair_id_on_ticking_clock|]. split; [exact chair_price|].
  split; [reflexivity|]. split; [reflexivity|].
  destruct (addProduct_then_updateProduct_timestamps ticking_clock
              (Some example_uuid) decimal_StringToNumber chair_input
              {[ "price" := VNum (num_of_Z 15) ]} (KStr "uuid-0")
              (num_of_Z 0) opened_world
              (the_database opened_world) ticking_clock_monotone
              opened_world_open chair_id_on_ticking_clock chair_price
              ltac:(by_evaluation) ltac:(by_evaluation))
    as (r & next & w2 & _ & Hup & _ & _ & Hle).
  exists next, w2. split; assumption.
Defined.

Lemma saveMedia_then_getMediaUrl_witness :
  idb example_shop = Open (the_database example_shop)
  ∧ ∃ id w1 url,
      saveMedia frozen_clock (Some example_uuid) logo_file example_shop
      = (Resolved id, w1)
      ∧ getMediaUrl (VStr id) w1
        = (Resolved (VStr url),
           set_objectURLs (<[url := logo_file]> (objectURLs w1)) w1).
Proof.
  split; [exact example_shop_open|].
  destruct (saveMedia_then_getMediaUrl frozen_clock (Some example_uuid)
              logo_file example_shop (the_database example_shop)
              example_shop_open)
    as [(id & w1 & d1 & rec & url & Hsave & _ & _ & _ & _ & _ & _ & _ & Hurl) _].
  exists id, w1, url. split; assumption.
Defined.

Lemma getLogoUrl_of_missing_media_witness :
  idb dangling_logo_world = Open (the_database dangling_logo_world)
  ∧ get_row settings_keyPath (KStr "logoMediaId")
      (settings (the_database dangling_logo_world)) = Some (logo_row "gone")
  ∧ get_prop "value" (logo_row "gone") = of_key (KStr "gone")
  ∧ get_row media_keyPath (KStr "gone")
      (media (the_database dangling_logo_world)) = None
  ∧ getLogoUrl dangling_logo_world = (Resolved VNull, dangling_logo_world).
Proof.
  assert (Hrow : get_row settings_keyPath (KStr "logoMediaId")
                   (settings (the_database dangling_logo_world))
                 = Some (logo_row "gone")) by by_evaluation.
  split; [reflexivity|]. split; [exact Hrow|]. split; [reflexivity|].
  split; [reflexivity|].
  exact (getLogoUrl_of_missing_media (KStr "gone") (logo_row "gone")
           dangling_logo_world (the_database dangling_logo_world)
           eq_refl Hrow eq_refl eq_refl).
Defined.

Lemma setLogo_twice_witness :
  idb example_shop = Open (the_database example_shop)
  ∧ ∃ id1 id2 w1 w2 url,
      setLogo frozen_clock (Some example_uuid) logo_file example_shop
      = (Resolved id1, w1)
      ∧ setLogo frozen_clock (Some example_uuid) logo_file w1
        = (Resolved id2, w2)
      ∧ getLogoUrl w2
        = (Resolved (VStr url),
           set_objectURLs (<[url := logo_file]> (objectURLs w2)) w2).
Proof.
  split; [exact example_shop_open|].
  destruct (setLogo_twice frozen_clock (Some example_uuid) logo_file
              logo_file example_shop (the_database example_shop)
              example_shop_open)
    as (id1 & id2 & w1 & w2 & url & H1 & H2 & Hurl & _).
  exists id1, id2, w1, w2, url. split; [exact H1|]. split; assumption.
Defined.

Lemma setBusinessInfo_then_getBusinessInfo_witness :
  idb example_shop = Open (the_database example_shop)
  ∧ ∃ d',
      setBusinessInfo VNull example_shop
      = (Resolved tt, set_idb (Open d') example_shop)
      ∧ getBusinessInfo (set_idb (Open d') example_shop)
        = (Resolved VNull, set_idb (Open d') example_shop).
Proof.
  split; [exact example_shop_open|].
  destruct (setBusinessInfo_then_getBusinessInfo VNull example_shop
              (the_database example_shop) example_shop_open)
    as (d' & Hset & Hget & _).
  exists d'. split; assumption.
Defined.

Lemma first_init_seeds_the_owner_witness :
  idb fresh_world = Absent
  ∧ ∃ w1,
      init frozen_clock fresh_world = (Resolved true, w1)
      ∧ result_of (loginOwner (VStr "VKM2009") (VStr "VKM1998") w1)
        = Resolved true.
Proof.
  split; [reflexivity|].
  destruct (first_init_seeds_the_owner frozen_clock fresh_world eq_refl)
    as (w1 & d1 & Hinit & _ & _ & _ & _ & _ & _ & Hlogin).
  exists w1. split; [exact Hinit|]. apply Hlogin. split; reflexivity.
Defined.

Lemma listProducts_order_with_ties_witness :
  idb stocked_shop = Open (the_database stocked_shop)
  ∧ store_ok products_keyPath (products (the_database stocked_shop))
  ∧ Forall (λ r, is_Some (created r)) (products (the_database stocked_shop))
  ∧ ∃ l,
      listProducts decimal_StringToNumber ∅ stocked_shop
      = (Resolved l, stocked_shop)
      ∧ StronglySorted listed_before l
      ∧ get_prop "id" <$> l = [VStr "c"; VStr "d"; VStr "a"; VStr "b"].
Proof.
  assert (Hok : store_ok products_keyPath
                  (products (the_database stocked_shop)))
    by (unfold store_ok; by_evaluation).
  split; [exact stocked_shop_open|]. split; [exact Hok|].
  split; [exact stocked_shop_created|].
  destruct (listProducts_order_with_ties decimal_StringToNumber ∅ stocked_shop
              (the_database stocked_shop) stocked_shop_open Hok
              stocked_shop_created) as (l & Hrun & _ & Hsorted).
  exists l. split; [exact Hrun|]. split; [exact Hsorted|].
  assert (Hl : resolved_or [] (listProducts decimal_StringToNumber ∅
                                 stocked_shop) = l)
    by (by rewrite Hrun).
  rewrite <- Hl. by_evaluation.
Defined.

Lemma saveMedia_same_millisecond_overwrites_witness :
  idb example_shop = Open (the_database example_shop)
  ∧ frozen_clock (now_calls example_shop)
    = frozen_clock (S (S (now_calls example_shop)))
  ∧ ∃ id w1 w2,
      saveMedia frozen_clock None logo_file example_shop = (Resolved id, w1)
      ∧ saveMedia frozen_clock None (File "banner.png" "image/png" 5 []) w1
        = (Resolved id, w2).
Proof.
  split; [exact example_shop_open|]. split; [reflexivity|].
  destruct (saveMedia_same_millisecond_overwrites frozen_clock logo_file
              (File "banner.png" "image/png" 5 []) example_shop
              (the_database example_shop) example_shop_open eq_refl)
    as (id & w1 & w2 & d2 & t2 & H1 & H2 & _).
  exists id, w1, w2. split; assumption.
Defined.

Lemma addProduct_same_millisecond_overwrites_witness :
  idb example_shop = Open (the_database example_shop)
  ∧ truthy (get_prop "id" chair_input) = false
  ∧ truthy (get_prop "id" pen_input) = false
  ∧ price_of decimal_StringToNumber chair_input = Some (num_of_Z 0)
  ∧ price_of decimal_StringToNumber pen_input = Some (num_of_Z 12)
  ∧ frozen_clock (now_calls example_shop)
    = frozen_clock (S (S (S (now_calls example_shop))))
  ∧ ∃ id r1 r2 w1 w2,
      addProduct frozen_clock None decimal_StringToNumber chair_input
        example_shop = (Resolved r1, w1)
      ∧ addProduct frozen_clock None decimal_StringToNumber pen_input w1
        = (Resolved r2, w2)
      ∧ get_prop "id" r1 = VStr id ∧ get_prop "id" r2 = VStr id.
Proof.
  split; [exact example_shop_open|]. split; [reflexivity|].
  split; [reflexivity|]. split; [exact chair_price|].
  split; [exact pen_price|]. split; [reflexivity|].
  destruct (addProduct_same_millisecond_overwrites frozen_clock
              decimal_StringToNumber chair_input pen_input (num_of_Z 0)
              (num_of_Z 12) example_shop
              (the_database example_shop) example_shop_open eq_refl eq_refl
              chair_price pen_price eq_refl)
    as (id & r1 & r2 & w1 & w2 & d2 & H1 & H2 & Hid1 & Hid2 & _).
  exists id, r1, r2, w1, w2. split; [exact H1|]. split; [exact H2|].
  split; assumption.
Defined.

Lemma unpriced_price :
  price_of decimal_StringToNumber unpriced_input = None.
Proof. by_evaluation. Defined.

Lemma addProduct_rejects_unconvertible_price_witness :
  price_of decimal_StringToNumber unpriced_input = None
  ∧ addProduct frozen_clock (Some example_uuid) decimal_StringToNumber
      unpriced_input example_shop
    = (Rejected cannot_convert,
       after_product_id (Some example_uuid) unpriced_input example_shop).
Proof.
  split; [exact unpriced_price|].
  exact (proj1 (proj2 (addProduct_rejects_unconvertible_price frozen_clock
                         (Some example_uuid) decimal_StringToNumber
                         unpriced_input example_shop unpriced_price))).
Defined.

Lemma undated_shop_open : idb undated_shop = Open (the_database undated_shop).
Proof. apply open_the_database. by_evaluation. Defined.

Lemma listProducts_rejects_iff_witness :
  idb undated_shop = Open (the_database undated_shop)
  ∧ result_of (listProducts decimal_StringToNumber ∅ undated_shop)
    = Rejected cannot_convert
  ∧ world_of (listProducts decimal_StringToNumber ∅ undated_shop)
    = undated_shop.
Proof.
  split; [exact undated_shop_open|].
  destruct (listProducts_rejects_iff decimal_StringToNumber ∅ undated_shop
              (the_database undated_shop) undated_shop_open)
    as (Hiff & _ & _ & Hworld).
  split; [|exact Hworld]. apply Hiff. split.
  - assert (Hlen : length (List.filter (category_matches ∅)
                             (products (the_database undated_shop))) = 4)
      by by_evaluation.
    rewrite Hlen. lia.
  - match goal with
    | |- Exists ?P ?l => apply (Exists_bool_decide P l); by_evaluation
    end.
Defined.
